(** * Verification of the portfolio repository's two programs

    - [public/ubuntu.sh]: an interactive bash script that provisions a host
      (DNS, web server, database, file share).  It is embedded in module [Sh]
      as a state-and-exit monad over a small model of the host: the files the
      script itself tests, copies and writes, the operator's terminal, and a
      trace of the externally visible steps.  External programs ([apt-get],
      [dpkg], [systemctl], ...) are known to the model by their command line
      and exit status, which an environment supplies, as it supplies the
      clock and the host name; what they do to the host themselves, and what
      is piped into them, is outside the model, and a redirection to a file
      is taken to succeed.  Only [cp] is given its effect on the files.  So
      what is proved about the content of files is proved of the script from
      line 163 on, from whatever state the programs run before have left;
      the programs run after that line ([mkdir], [chown], [find],
      [useradd], [passwd], [smbpasswd], [a2ensite], [a2enmod], [systemctl]
      and the two tests) do not touch the files in question.  What is proved
      of the whole run is proved of its steps, not of the files.
    - [server/index.js]: the Express handler of [POST /api/send-email],
      embedded in module [Mail] as a function from the request's body
      (parsed, or undefined) and the behaviour of the SMTP transport to the
      response.

    Definitions come first, theorems after them. *)

From Stdlib Require Import String Ascii List ZArith Lia Bool DecimalString.
From stdpp Require Import base strings gmap list.

Local Open Scope string_scope.

(** Appending to a string that starts with known characters may simplify. *)
#[local] Arguments String.append !_ _ / : simpl nomatch.

(** ** Text helpers shared by both embeddings *)

Module Text.

(** The line feed, the double quote and the dot. *)
Definition nl_char : ascii := ascii_of_nat 10.
Definition nl : string := String nl_char EmptyString.
Definition dq : string := String (ascii_of_nat 34) EmptyString.
Definition dot : ascii := ascii_of_nat 46.

Definition is_empty (s : string) : bool :=
  match s with EmptyString => true | String _ _ => false end.

Definition snoc (s : string) (c : ascii) : string := s +:+ String c EmptyString.

Definition concat_all (parts : list string) : string :=
  fold_right String.append EmptyString parts.

(** The text of a here-document: every line is terminated by a line feed. *)
Definition unlines (ls : list string) : string :=
  concat_all (map (fun l => l +:+ nl) ls).

(** Decimal rendering of a shell integer that is not negative. *)
Definition of_nat (n : nat) : string := NilZero.string_of_uint (Nat.to_uint n).

Definition is_digit (c : ascii) : bool :=
  (48 <=? nat_of_ascii c)%nat && (nat_of_ascii c <=? 57)%nat.

Fixpoint all_chars (p : ascii -> bool) (s : string) : bool :=
  match s with
  | EmptyString => true
  | String c r => p c && all_chars p r
  end.

Fixpoint has_char (c : ascii) (s : string) : bool :=
  match s with
  | EmptyString => false
  | String d r => if Ascii.eqb c d then true else has_char c r
  end.

(** [starts_with p s]: [p] is a prefix of [s]. *)
Fixpoint starts_with (p s : string) : bool :=
  match p, s with
  | EmptyString, _ => true
  | String a p', String b s' => Ascii.eqb a b && starts_with p' s'
  | String _ _, EmptyString => false
  end.

(** [contains sub s]: [sub] occurs somewhere in [s]. *)
Fixpoint contains (sub s : string) : bool :=
  starts_with sub s ||
  match s with
  | EmptyString => false
  | String _ r => contains sub r
  end.

(** The pieces of [s] between occurrences of [sep]; [cur] is the piece
    being read.  There is always a last piece, possibly empty. *)
Fixpoint pieces (sep : ascii) (s cur : string) : list string :=
  match s with
  | EmptyString => [cur]
  | String c r =>
      if Ascii.eqb c sep then cur :: pieces sep r EmptyString
      else pieces sep r (snoc cur c)
  end.

Definition not_newline (c : ascii) : bool := negb (Ascii.eqb c nl_char).

(** What command substitution [$(...)] keeps of a command's output: all
    trailing line feeds are removed. *)
Fixpoint strip_trailing_newlines (s : string) : string :=
  match s with
  | EmptyString => EmptyString
  | String c r =>
      let r' := strip_trailing_newlines r in
      if Ascii.eqb c nl_char && is_empty r' then EmptyString else String c r'
  end.

End Text.

(** ** The provisioning script, [public/ubuntu.sh] *)

Module Sh.
Import Text.

(** *** [validate_ip] (lines 20-32) *)

(** The pattern of line 22,
    [^[0-9]{1,3}\.[0-9]{1,3}\.[0-9]{1,3}\.[0-9]{1,3}$], as a matcher in
    continuation style: each piece of the pattern receives the matcher of
    what follows it. *)

(** [[0-9]{1,3}] followed by [k]: one, two or three digits. *)
Definition digits_1_3 (k : string -> bool) (s : string) : bool :=
  match s with
  | String c1 r1 =>
      is_digit c1 &&
      (k r1 ||
       match r1 with
       | String c2 r2 =>
           is_digit c2 &&
           (k r2 ||
            match r2 with
            | String c3 r3 => is_digit c3 && k r3
            | EmptyString => false
            end)
       | EmptyString => false
       end)
  | EmptyString => false
  end.

(** [\.] followed by [k]. *)
Definition literal_dot (k : string -> bool) (s : string) : bool :=
  match s with
  | String c r => Ascii.eqb c dot && k r
  | EmptyString => false
  end.

(** [$]: the end of the string (bash compiles the pattern without
    REG_NEWLINE, so a line feed is an ordinary character). *)
Definition at_end (s : string) : bool := is_empty s.

Definition ip_pattern : string -> bool :=
  digits_1_3 (literal_dot (digits_1_3 (literal_dot
    (digits_1_3 (literal_dot (digits_1_3 at_end)))))).

(** Word splitting of an unquoted expansion under [IFS='.'] (line 25):
    every dot ends a field, and an empty last piece is not a field. *)
Definition split_ifs_dot (s : string) : list string :=
  let ps := pieces dot s EmptyString in
  match last ps with
  | Some EmptyString => removelast ps
  | _ => ps
  end.

(** The value bash's arithmetic evaluation gives to a string of digits, as
    the operands of [-le] inside [[[ ]]] are evaluated: a leading [0]
    selects base 8, and a digit that does not fit the base is an
    evaluation error ([None]).  The empty string evaluates to 0. *)
Definition digit_value (c : ascii) : Z := Z.of_nat (nat_of_ascii c) - 48.

Fixpoint arith_digits (base : Z) (s : string) (acc : Z) : option Z :=
  match s with
  | EmptyString => Some acc
  | String c r =>
      if is_digit c && (digit_value c <? base)%Z
      then arith_digits base r (acc * base + digit_value c)%Z
      else None
  end.

Definition arith_value (s : string) : option Z :=
  match s with
  | String c r =>
      if Ascii.eqb c (ascii_of_nat 48) then arith_digits 8 r 0
      else arith_digits 10 s 0
  | EmptyString => Some 0%Z
  end.

(** [[[ $a -le 255 ]]]: false also when [$a] cannot be evaluated (bash
    prints the error and the test fails). *)
Definition le_255 (a : string) : bool :=
  match arith_value a with
  | Some v => (v <=? 255)%Z
  | None => false
  end.

(** An unset array element expands to the empty string. *)
Definition element (ip : list string) (i : nat) : string := nth i ip EmptyString.

Definition validate_ip (ip : string) : bool :=
  if ip_pattern ip then
    let ip := split_ifs_dot ip in
    le_255 (element ip 0) && le_255 (element ip 1) &&
    le_255 (element ip 2) && le_255 (element ip 3)
  else false.

(** *** The host as the script sees it *)

(** What [date] prints for [%Y], [%m], [%d], [%H], [%M] and [%S]. *)
Record Stamp := {
  year : string; month : string; day : string;
  hour : string; minute : string; second : string
}.

(** The three formats the script asks [date] for. *)
Definition date_log (t : Stamp) : string :=
  year t +:+ "-" +:+ month t +:+ "-" +:+ day t +:+ " " +:+
  hour t +:+ ":" +:+ minute t +:+ ":" +:+ second t.
Definition date_backup (t : Stamp) : string :=
  year t +:+ month t +:+ day t +:+ "_" +:+ hour t +:+ minute t +:+ second t.
Definition date_serial (t : Stamp) : string :=
  year t +:+ month t +:+ day t.

(** Everything the run does not decide itself.  [clock n] is the time when
    [n] steps have been traced; [exit_ok argv k] tells whether the run of
    the external command line [argv] that follows [k] earlier runs of the
    same command line exits with status 0. *)
Record Env := {
  id_u : string;
  hostname : string;
  clock : nat -> Stamp;
  exit_ok : list string -> nat -> bool
}.

(** The externally visible steps of a run, in the order they happen. *)
Inductive Event :=
| EvLog (line : string)                 (* a line [log] prints *)
| EvRead (prompt line : string)         (* [read -p] from the terminal *)
| EvRun (argv : list string) (ok : bool)  (* an external program *)
| EvSleep (seconds : nat)               (* [sleep] *)
| EvWrite (path : string)               (* [cat > path] *)
| EvAppend (path : string).             (* [echo ... >> path] *)

(** [files]: the regular files the script tests, copies and writes, by
    path.  [tty]: the lines the operator is still going to type, each as
    [read] assigns it.  [trace]: the steps so far, oldest first. *)
Record World := {
  files : gmap string string;
  tty : list string;
  trace : list Event
}.

Definition traced (e : Event) (w : World) : World :=
  {| files := files w; tty := tty w; trace := trace w ++ [e] |}.

(** A command either completes, or ends the whole script with [exit], or
    waits for ever for a line the operator never types. *)
Inductive Outcome (A : Type) :=
| Done (a : A)
| Exited (code : nat)
| Waiting.
Arguments Done {A} a.
Arguments Exited {A} code.
Arguments Waiting {A}.

Definition Script (A : Type) : Type := World -> Outcome A * World.

#[export] Instance script_ret : MRet Script := fun A a w => (Done a, w).
#[export] Instance script_bind : MBind Script := fun A B k m w =>
  match m w with
  | (Done a, w') => k a w'
  | (Exited c, w') => (Exited c, w')
  | (Waiting, w') => (Waiting, w')
  end.
#[export] Instance script_fmap : FMap Script := fun A B f m w =>
  match m w with
  | (Done a, w') => (Done (f a), w')
  | (Exited c, w') => (Exited c, w')
  | (Waiting, w') => (Waiting, w')
  end.

Definition exit {A} (code : nat) : Script A := fun w => (Exited code, w).
Definition skip : Script unit := mret tt.
Definition emit (e : Event) : Script unit := fun w => (Done tt, traced e w).

(** [$(command)]: the command's output without its trailing line feeds. *)
Definition command_subst (m : Script string) : Script string :=
  strip_trailing_newlines <$> m.

(** How often [argv] has been run so far. *)
Fixpoint same_argv (a b : list string) : bool :=
  match a, b with
  | [], [] => true
  | x :: a', y :: b' => String.eqb x y && same_argv a' b'
  | _, _ => false
  end.
Definition is_run_of (argv : list string) (e : Event) : bool :=
  match e with
  | EvRun a _ => same_argv a argv
  | _ => false
  end.
Definition calls (argv : list string) (tr : list Event) : nat :=
  length (List.filter (is_run_of argv) tr).

(** What the builtin [echo "$arg"] prints.  An argument made of a dash and
    letters among [n], [e], [E] is taken as options: nothing is printed
    with [n], a lone line feed otherwise. *)
Definition is_echo_flag (c : ascii) : bool :=
  Ascii.eqb c "n" || Ascii.eqb c "e" || Ascii.eqb c "E".
Definition echo (arg : string) : string :=
  match arg with
  | String "-" (String c r as flags) =>
      if all_chars is_echo_flag flags
      then (if has_char "n" flags then EmptyString else nl)
      else arg +:+ nl
  | _ => arg +:+ nl
  end.

(** Fields of an unquoted expansion under the default [IFS]: maximal runs of
    characters other than space, tab and line feed.  (Pathname expansion of
    the fields is not modelled.) *)
Definition is_ifs_space (c : ascii) : bool :=
  Ascii.eqb c " " || Ascii.eqb c (ascii_of_nat 9) || Ascii.eqb c nl_char.
Fixpoint words_from (s cur : string) : list string :=
  match s with
  | EmptyString => if is_empty cur then [] else [cur]
  | String c r =>
      if is_ifs_space c
      then (if is_empty cur then words_from r EmptyString
            else cur :: words_from r EmptyString)
      else words_from r (snoc cur c)
  end.
Definition words (s : string) : list string := words_from s EmptyString.

(** *** The operator's answers (lines 103-109) *)

Record Request := {
  user_ip : string;
  user_domain : string;
  mysql_root_password : string;
  phpmyadmin_password : string;
  samba_username : string;
  samba_password : string
}.

(** *** The rendered files (lines 169-311) *)

(** [echo "$ip" | awk -F. '{print ...}'] (lines 177 and 235): awk reads the
    text line by line, cuts each line at every dot, and prints one line per
    line read; a field past the last one is empty. *)
Definition awk_records (input : string) : list string :=
  let ps := pieces nl_char input EmptyString in
  match last ps with
  | Some EmptyString => removelast ps
  | _ => ps
  end.
Definition awk_field (record : string) (i : nat) : string :=
  nth (i - 1) (pieces dot record EmptyString) EmptyString.
Definition awk_print (action : string -> string) (input : string) : string :=
  concat_all (map (fun record => action record +:+ nl) (awk_records input)).

Definition reversed_ip (ip : string) : string :=
  strip_trailing_newlines
    (awk_print (fun l => awk_field l 3 +:+ "." +:+ awk_field l 2 +:+ "." +:+ awk_field l 1)
       (echo ip)).
Definition octet (ip : string) : string :=
  strip_trailing_newlines (awk_print (fun l => awk_field l 4) (echo ip)).

(** The resolver configuration, [/etc/resolv.conf] (lines 169-174). *)
Definition resolv_conf (r : Request) : string :=
  unlines [
    "nameserver " +:+ user_ip r;
    "nameserver 8.8.8.8";
    "search " +:+ user_domain r;
    "options edns0 trust-ad"
  ].

(** The zone definitions, [/etc/bind/named.conf.default-zones] (lines 179-211). *)
Definition named_conf_default_zones (r : Request) : string :=
  unlines [
    "# Default zones";
    "zone " +:+ dq +:+ "localhost" +:+ dq +:+ " {";
    "    type master;";
    "    file " +:+ dq +:+ "/etc/bind/db.local" +:+ dq +:+ ";";
    "};";
    EmptyString;
    "zone " +:+ dq +:+ "127.in-addr.arpa" +:+ dq +:+ " {";
    "    type master;";
    "    file " +:+ dq +:+ "/etc/bind/db.127" +:+ dq +:+ ";";
    "};";
    EmptyString;
    "zone " +:+ dq +:+ "0.in-addr.arpa" +:+ dq +:+ " {";
    "    type master;";
    "    file " +:+ dq +:+ "/etc/bind/db.0" +:+ dq +:+ ";";
    "};";
    EmptyString;
    "zone " +:+ dq +:+ "255.in-addr.arpa" +:+ dq +:+ " {";
    "    type master;";
    "    file " +:+ dq +:+ "/etc/bind/db.255" +:+ dq +:+ ";";
    "};";
    EmptyString;
    "# Custom SMK zones";
    "zone " +:+ dq +:+ user_domain r +:+ dq +:+ " {";
    "     type master;";
    "     file " +:+ dq +:+ "/etc/bind/smk.db" +:+ dq +:+ ";";
    " };";
    EmptyString;
    "zone " +:+ dq +:+ reversed_ip (user_ip r) +:+ ".in-addr.arpa" +:+ dq +:+ " {";
    "     type master;";
    "     file " +:+ dq +:+ "/etc/bind/smk.ip" +:+ dq +:+ ";";
    " };"
  ].

(** The forward zone, [/etc/bind/smk.db] (lines 214-232). *)
Definition smk_db (r : Request) (serial_date : string) : string :=
  unlines [
    "$TTL    604800";
    "@       IN      SOA     ns." +:+ user_domain r +:+ ". root." +:+ user_domain r +:+ ". (";
    "                        " +:+ serial_date +:+ "01 ; Serial";
    "                        604800    ; Refresh";
    "                        86400     ; Retry";
    "                        2419200   ; Expire";
    "                        604800 )  ; Negative Cache TTL";
    ";";
    "@       IN      NS      ns." +:+ user_domain r +:+ ".";
    "@       IN      MX 10   " +:+ user_domain r +:+ ".";
    "@       IN      A       " +:+ user_ip r;
    "ns      IN      A       " +:+ user_ip r;
    "www     IN      CNAME   ns";
    "mail    IN      CNAME   ns";
    "ftp     IN      CNAME   ns";
    "ntp     IN      CNAME   ns";
    "proxy   IN      CNAME   ns"
  ].

(** The reverse zone, [/etc/bind/smk.ip] (lines 236-246). *)
Definition smk_ip (r : Request) (serial_date : string) : string :=
  unlines [
    "@       IN      SOA     ns." +:+ user_domain r +:+ ". root." +:+ user_domain r +:+ ". (";
    "                        " +:+ serial_date +:+ "01 ; Serial";
    "                        604800    ; Refresh";
    "                        86400     ; Retry";
    "                        2419200   ; Expire";
    "                        604800 )  ; Negative Cache TTL";
    ";";
    "@       IN      NS      ns." +:+ user_domain r +:+ ".";
    octet (user_ip r) +:+ "  IN      PTR     ns." +:+ user_domain r +:+ "."
  ].

(** The virtual host, [/etc/apache2/sites-available/000-default.conf] (lines 249-264). *)
Definition default_site_conf (r : Request) : string :=
  unlines [
    "<VirtualHost " +:+ user_ip r +:+ ":80>";
    "        ServerAdmin admin@" +:+ user_domain r;
    "        ServerName www." +:+ user_domain r;
    "        DocumentRoot /var/www";
    "        ErrorLog ${APACHE_LOG_DIR}/error.log";
    "        LogLevel warn";
    "        CustomLog ${APACHE_LOG_DIR}/access.log combined";
    "        ";
    "        <Directory /var/www/>";
    "                Options Indexes FollowSymLinks";
    "                AllowOverride All";
    "                Require all granted";
    "        </Directory>";
    "</VirtualHost>"
  ].

(** The landing page, [/var/www/index.php] (lines 268-283). *)
Definition index_php (r : Request) : string :=
  unlines [
    "<!DOCTYPE html>";
    "<html>";
    "<head>";
    "    <title>Welcome to " +:+ user_domain r +:+ "</title>";
    "    <style>";
    "        body { font-family: Arial, sans-serif; margin: 40px; }";
    "        h1 { color: #333; }";
    "    </style>";
    "</head>";
    "<body>";
    "    <h1>Welcome to the " +:+ user_domain r +:+ " Server</h1>";
    "    <?php phpinfo(); ?>";
    "</body>";
    "</html>"
  ].

(** The file share, [/etc/samba/smb.conf] (lines 294-311). *)
Definition smb_conf (r : Request) (host : string) : string :=
  unlines [
    "[global]";
    "   workgroup = WORKGROUP";
    "   server string = Samba Server %v";
    "   netbios name = " +:+ host;
    "   security = user";
    "   map to guest = bad user";
    "   dns proxy = no";
    EmptyString;
    "[www]";
    "   path = /var/www/";
    "   browseable = yes";
    "   writeable = yes";
    "   valid users = " +:+ samba_username r;
    "   create mask = 0644";
    "   directory mask = 0755";
    "   force user = www-data"
  ].

Section WithEnv.
Variable env : Env.

Definition now (w : World) : Stamp := clock env (length (trace w)).

(** Runs an external program; the result is whether it exited with 0. *)
Definition run (argv : list string) : Script bool := fun w =>
  let ok := exit_ok env argv (calls argv (trace w)) in
  (Done ok, traced (EvRun argv ok) w).

(** [$(date +format)]. *)
Definition date (format : Stamp -> string) : Script string := fun w =>
  (Done (format (now w)), w).

(** [[ -f "$file" ]]: the path names a regular file. *)
Definition test_f (file : string) : Script bool := fun w =>
  (Done (bool_decide (is_Some (files w !! file))), w).

(** *** [log] (lines 4-6) and [handle_error] (lines 9-12) *)

(** The line [log] prints, as text: line 5's [echo] without the trace. *)
Definition log_text (t : Stamp) (msg : string) : string :=
  "[" +:+ date_log t +:+ "] " +:+ msg.

Definition log (msg : string) : Script unit :=
  stamp ← date date_log;
  emit (EvLog ("[" +:+ stamp +:+ "] " +:+ msg)).

Definition handle_error {A} (msg : string) : Script A :=
  log ("ERROR: " +:+ msg) ;; exit 1.

(** *** [get_input] (lines 37-65) *)

(** The loop of lines 44-63 over the lines the operator types.  [out] is
    what the function has written to its standard output so far: [log]
    writes there too, so inside [$(get_input ...)] the message of line 57
    becomes part of the captured text. *)
Fixpoint get_input_loop (prompt default : string)
    (validation_func : option (string -> bool))
    (lines : list string) (out : string) (w : World)
    : Outcome string * World :=
  match lines with
  | [] => (Waiting, w)
  | line :: rest =>
      let w1 := traced (EvRead prompt line)
                  {| files := files w; tty := rest; trace := trace w |} in
      let input :=
        if is_empty line && negb (is_empty default) then default else line in
      match validation_func with
      | Some valid =>
          if valid input then (Done (out +:+ echo input), w1)
          else
            get_input_loop prompt default validation_func rest
              (out +:+ log_text (now w1) "Invalid input, please try again" +:+ nl)
              w1
      | None => (Done (out +:+ echo input), w1)
      end
  end.

Definition get_input (prompt default : string)
    (validation_func : option (string -> bool)) : Script string :=
  fun w => get_input_loop prompt default validation_func (tty w) EmptyString w.

(** *** [check_package_installed] (lines 68-71) *)

Definition check_package_installed (package : string) : Script bool :=
  run ["dpkg"; "-l"; package].

(** *** [backup_config] (lines 74-79) *)

(** [cp] is an external program as well; when it succeeds the target
    holds the content of the source. *)
Definition cp (src dst : string) : Script bool := fun w =>
  match run ["cp"; src; dst] w with
  | (Done true, w') =>
      match files w' !! src with
      | Some content =>
          (Done true,
           {| files := <[dst := content]> (files w'); tty := tty w';
              trace := trace w' |})
      | None => (Done true, w')
      end
  | r => r
  end.

Definition backup_config (file : string) : Script unit :=
  present ← test_f file;
  if (present : bool) then
    stamp ← date date_backup;
    ok ← cp file (file +:+ ".backup." +:+ stamp);
    if (ok : bool) then skip
    else handle_error ("Failed to backup file " +:+ file)
  else skip.

(** *** [install_package] (lines 82-97) *)

(** The loop of lines 87-95.  [left] counts the iterations that remain:
    the source's [attempt] is [max_attempts + 1 - left], and the guard
    [attempt <= max_attempts] holds exactly while [left] is not 0. *)
Fixpoint install_loop (package : string) (max_attempts left : nat)
    : Script unit :=
  match left with
  | 0 =>
      handle_error ("Failed to install " +:+ package +:+ " after " +:+
                    of_nat max_attempts +:+ " attempts")
  | S left' =>
      let attempt := max_attempts + 1 - left in
      log ("Attempting to install " +:+ package +:+ " (Attempt " +:+
           of_nat attempt +:+ " of " +:+ of_nat max_attempts +:+ ")") ;;
      ok ← run ["apt-get"; "install"; "-y"; package];
      if (ok : bool) then log ("Successfully installed " +:+ package)
      else emit (EvSleep 5) ;; install_loop package max_attempts left'
  end.

Definition install_package (package : string) : Script unit :=
  let max_attempts := 3 in
  install_loop package max_attempts max_attempts.

(** *** The main script (lines 14-17 and 100-341) *)

(** [command || handle_error "..."] and [command || log "..."]; a command
    whose status the script does not look at. *)
Definition or_die (argv : list string) (msg : string) : Script unit :=
  ok ← run argv; if (ok : bool) then skip else handle_error msg.
Definition or_warn (argv : list string) (msg : string) : Script unit :=
  ok ← run argv; if (ok : bool) then skip else log msg.
Definition run_ (argv : list string) : Script unit :=
  run argv ;; skip.

Fixpoint for_each {A} (xs : list A) (body : A -> Script unit) : Script unit :=
  match xs with
  | [] => skip
  | x :: rest => body x ;; for_each rest body
  end.

(** [cat > path <<EOL] and [echo ... >> path]. *)
Definition write_file (path content : string) : Script unit := fun w =>
  (Done tt,
   traced (EvWrite path)
     {| files := <[path := content]> (files w); tty := tty w; trace := trace w |}).
Definition append_file (path text : string) : Script unit := fun w =>
  (Done tt,
   traced (EvAppend path)
     {| files := <[path := default EmptyString (files w !! path) +:+ text]> (files w);
        tty := tty w; trace := trace w |}).

(** Lines 15-17. *)
Definition require_root : Script unit :=
  if bool_decide (strip_trailing_newlines (id_u env) = "0") then skip
  else handle_error "Script must be run with sudo".

(** Lines 103-109. *)
Definition collect_input : Script Request :=
  ip ← command_subst
    (get_input "Enter IP address (e.g., 192.168.1.1): " EmptyString (Some validate_ip));
  domain ← command_subst
    (get_input "Enter domain name (e.g., example.com): " EmptyString None);
  mysql ← command_subst (get_input "Enter password for MySQL root: " EmptyString None);
  pma ← command_subst (get_input "Enter password for phpMyAdmin: " EmptyString None);
  smbuser ← command_subst
    (get_input "Enter username for Samba (e.g., smbuser): " EmptyString None);
  smbpass ← command_subst (get_input "Enter password for Samba: " EmptyString None);
  mret {| user_ip := ip; user_domain := domain; mysql_root_password := mysql;
          phpmyadmin_password := pma; samba_username := smbuser;
          samba_password := smbpass |}.

(** Lines 111-150: package manager repair, update, upgrade and the
    answers preseeded for the database packages.  (The pattern of the third
    [rm] is written as it stands in the script.) *)
Definition prepare_system : Script unit :=
  log "Fixing interrupted packages..." ;;
  or_die ["dpkg"; "--configure"; "-a"] "Failed to fix interrupted dpkg" ;;
  log "Updating system packages..." ;;
  run_ ["apt-get"; "clean"] ;;
  run_ ["apt-get"; "autoremove"; "-y"] ;;
  run_ ["apt-get"; "autoclean"] ;;
  (updated ← run ["apt-get"; "update"; "-y"];
   if (updated : bool) then skip
   else
     log "WARNING: Update failed, attempting fixes..." ;;
     run_ ["rm"; "-f"; "/var/lib/apt/lists/lock"] ;;
     run_ ["rm"; "-f"; "/var/cache/apt/archives/lock"] ;;
     run_ ["rm"; "-f"; "/var/lib/dpkg/lock*"] ;;
     run_ ["dpkg"; "--configure"; "-a"] ;;
     or_die ["apt-get"; "update"; "-y"] "Failed to update system") ;;
  (upgraded ← run ["apt-get"; "upgrade"; "-y"];
   if (upgraded : bool) then skip
   else
     log "WARNING: Upgrade failed, attempting fixes..." ;;
     run_ ["dpkg"; "--configure"; "-a"] ;;
     or_die ["apt-get"; "upgrade"; "-y"] "Failed to upgrade system") ;;
  or_die ["add-apt-repository"; "universe"; "-y"] "Failed to add universe repository" ;;
  run_ ["debconf-set-selections"] ;;
  run_ ["debconf-set-selections"] ;;
  run_ ["debconf-set-selections"] ;;
  run_ ["debconf-set-selections"] ;;
  run_ ["debconf-set-selections"] ;;
  run_ ["debconf-set-selections"].

(** Lines 153-160. *)
Definition packages : list string :=
  ["bind9"; "apache2"; "mysql-server"; "apache2-utils"; "phpmyadmin"; "samba"].

Definition install_if_missing (package : string) : Script unit :=
  installed ← check_package_installed package;
  if (installed : bool) then skip
  else run_ ["dpkg"; "--configure"; "-a"] ;; install_package package.

Definition install_packages : Script unit :=
  for_each packages install_if_missing.

(** Lines 163-166. *)
Definition backup_files : Script unit :=
  backup_config "/etc/resolv.conf" ;;
  backup_config "/etc/bind/named.conf.default-zones" ;;
  backup_config "/etc/apache2/sites-available/000-default.conf" ;;
  backup_config "/etc/samba/smb.conf".

(** Lines 169-322: the files are written, the share's account is set up
    and the web server's site and modules are enabled. *)
Definition configure (r : Request) : Script unit :=
  write_file "/etc/resolv.conf" (resolv_conf r) ;;
  write_file "/etc/bind/named.conf.default-zones" (named_conf_default_zones r) ;;
  (serial ← date date_serial; write_file "/etc/bind/smk.db" (smk_db r serial)) ;;
  (serial ← date date_serial; write_file "/etc/bind/smk.ip" (smk_ip r serial)) ;;
  write_file "/etc/apache2/sites-available/000-default.conf" (default_site_conf r) ;;
  run_ ["mkdir"; "-p"; "/var/www"] ;;
  write_file "/var/www/index.php" (index_php r) ;;
  run_ ["chown"; "-R"; "www-data:www-data"; "/var/www/"] ;;
  run_ ["find"; "/var/www/"; "-type"; "d"; "-exec"; "chmod"; "755"; "{}"; ";"] ;;
  run_ ["find"; "/var/www/"; "-type"; "f"; "-exec"; "chmod"; "644"; "{}"; ";"] ;;
  run_ (["useradd"; "-m"] ++ words (samba_username r)) ;;
  run_ (["passwd"] ++ words (samba_username r)) ;;
  write_file "/etc/samba/smb.conf"
    (smb_conf r (strip_trailing_newlines (hostname env))) ;;
  run_ (["smbpasswd"; "-a"] ++ words (samba_username r)) ;;
  append_file "/etc/apache2/apache2.conf" (echo "Include /etc/phpmyadmin/apache.conf") ;;
  run_ ["a2ensite"; "000-default.conf"] ;;
  run_ ["a2enmod"; "rewrite"] ;;
  run_ ["a2enmod"; "ssl"].

(** Lines 325-329. *)
Definition services : list string := ["bind9"; "apache2"; "mysql"; "smbd"].

Definition restart_and_enable (service : string) : Script unit :=
  or_warn ["systemctl"; "restart"; service] ("WARNING: Failed to restart " +:+ service) ;;
  or_warn ["systemctl"; "enable"; service] ("WARNING: Failed to enable " +:+ service).

Definition restart_services : Script unit :=
  for_each services restart_and_enable.

(** Lines 332-334. *)
Definition test_configuration : Script unit :=
  log "Testing configuration..." ;;
  or_warn ["apache2ctl"; "configtest"] "WARNING: Apache config test failed" ;;
  or_warn ["named-checkconf"] "WARNING: BIND config test failed".

(** Lines 336-341. *)
Definition summary (r : Request) : Script unit :=
  log "==== Configuration Completed ====" ;;
  log ("Domain: " +:+ user_domain r) ;;
  log ("IP Address: " +:+ user_ip r) ;;
  log ("phpMyAdmin URL: http://" +:+ user_ip r +:+ "/phpmyadmin") ;;
  log ("Samba share available at: //" +:+ user_ip r +:+ "/www") ;;
  log ("Samba Username: " +:+ samba_username r).

(** Everything up to the service loop, and the whole script. *)
Definition provision : Script Request :=
  require_root ;;
  log "Starting server configuration..." ;;
  r ← collect_input;
  prepare_system ;;
  install_packages ;;
  backup_files ;;
  configure r ;;
  mret r.

Definition main : Script unit :=
  r ← provision;
  restart_services ;;
  test_configuration ;;
  summary r.

(** The exit status of the script: that of its last command, [log], when
    it runs to the end; none while it waits for the operator. *)
Definition exit_status (w : World) : option nat :=
  match main w with
  | (Done _, _) => Some 0
  | (Exited code, _) => Some code
  | (Waiting, _) => None
  end.

End WithEnv.


End Sh.

(** ** The contact server, [server/index.js] *)

Module Mail.
Import Text.

(** A property of the parsed JSON body as the handler uses it (line 23).
    [Absent]: the key is missing, the variable is [undefined].
    [Str s]: a JSON string.
    [Other truthy text]: any other JSON value; [truthy] is false for
    [null], [false] and [0], and [text] is what a template literal makes of
    the value ([None] when the conversion throws). *)
Inductive Field :=
| Absent
| Str (s : string)
| Other (truthy : bool) (text : option string).

(** The object that [express.json()] parsed from the request, of which the
    handler reads three properties. *)
Record Body := { name : Field; email : Field; message : Field }.

(** [!value] is false exactly for truthy values; the empty string is falsy. *)
Definition truthy (v : Field) : bool :=
  match v with
  | Absent => false
  | Str s => negb (is_empty s)
  | Other t _ => t
  end.

(** [`${value}`]. *)
Definition interpolate (v : Field) : option string :=
  match v with
  | Absent => Some "undefined"
  | Str s => Some s
  | Other _ text => text
  end.

(** [message.replace(/\n/g, '<br/>')]: only strings have the method. *)
Fixpoint replace_newlines (s : string) : string :=
  match s with
  | EmptyString => EmptyString
  | String c r =>
      if Ascii.eqb c nl_char then "<br/>" +:+ replace_newlines r
      else String c (replace_newlines r)
  end.

(** The variables of [process.env] the handler reads (lines 27-28). *)
Record ProcessEnv := {
  FROM_EMAIL : option string;
  SMTP_USER : option string;
  TO_EMAIL : option string
}.

(** [a || b] on values that are strings or undefined. *)
Definition or_else (a b : option string) : option string :=
  match a with
  | Some s => if is_empty s then b else a
  | None => b
  end.

Record MailOptions := {
  from : option string;
  to : option string;
  subject : string;
  text : string;
  html : string
}.

Inductive Json :=
| ErrorJson (error : string)       (* [{ error: ... }] *)
| SuccessJson (success : bool).    (* [{ success: ... }] *)

Record Response := { status : nat; json : Json }.

(** What the handler does that can be observed from outside. *)
Inductive Effect :=
| SendMail (options : MailOptions)
| ConsoleError.

(** The handler either answers or throws before it has answered (its
    promise rejects and the handler itself sends nothing). *)
Inductive Result :=
| Responded (r : Response)
| Thrown.

Definition default_recipient : string := "shahmeersohail31@gmail.com".

(** Lines 26-32; [None] when building the object throws. *)
Definition mailOptions (env : ProcessEnv) (b : Body) : option MailOptions :=
  match interpolate (name b), interpolate (email b), message b with
  | Some n, Some e, Str m =>
      Some {| from := or_else (FROM_EMAIL env) (SMTP_USER env);
              to := or_else (TO_EMAIL env) (Some default_recipient);
              subject := "Portfolio Contact: " +:+ n;
              text := "Name: " +:+ n +:+ nl +:+ "Email: " +:+ e +:+ nl +:+ nl +:+ m;
              html := "<p><strong>Name:</strong> " +:+ n +:+
                      "</p><p><strong>Email:</strong> " +:+ e +:+
                      "</p><p><strong>Message:</strong><br/>" +:+
                      replace_newlines m +:+ "</p>" |}
  | _, _, _ => None
  end.

(** The handler of [POST /api/send-email] (lines 22-41).  [sendMail] tells
    whether the transport's promise fulfils for the given message. *)
Definition handler (env : ProcessEnv) (sendMail : MailOptions -> bool) (b : Body)
    : Result * list Effect :=
  if negb (truthy (name b)) || negb (truthy (email b)) || negb (truthy (message b))
  then (Responded {| status := 400; json := ErrorJson "Missing fields" |}, [])
  else
    match mailOptions env b with
    | None => (Thrown, [])
    | Some options =>
        if sendMail options
        then (Responded {| status := 200; json := SuccessJson true |},
              [SendMail options])
        else (Responded {| status := 500; json := ErrorJson "Failed to send email" |},
              [SendMail options; ConsoleError])
    end.

(** [req.body] itself: the object parsed from the request, or [undefined]
    when there was no JSON body to parse and the parser leaves the property
    unset. *)
Inductive ReqBody :=
| Undefined
| Parsed (b : Body).

(** Lines 22-41 from the request on: the destructuring of line 23 comes
    before the guard of line 24 and throws on [undefined]. *)
Definition send_email (env : ProcessEnv) (sendMail : MailOptions -> bool)
    (body : ReqBody) : Result * list Effect :=
  match body with
  | Undefined => (Thrown, [])
  | Parsed b => handler env sendMail b
  end.

(** The answer of line 24, with nothing else done. *)
Definition missing_fields : Result * list Effect :=
  (Responded {| status := 400; json := ErrorJson "Missing fields" |}, []).

(** How often the transport was asked to send. *)
Definition is_send (e : Effect) : bool :=
  match e with SendMail _ => true | ConsoleError => false end.
Definition sends (effects : list Effect) : nat :=
  length (List.filter is_send effects).

End Mail.

(** ** Notions used to state the properties *)

Module Quad.
Import Text.

(** One to three decimal digits: what [[0-9]{1,3}] matches. *)
Definition is_group (g : string) : bool :=
  (1 <=? String.length g)%nat && (String.length g <=? 3)%nat && all_chars is_digit g.

(** The four groups written with dots between them. *)
Definition quad (a b c d : string) : string :=
  a +:+ "." +:+ b +:+ "." +:+ c +:+ "." +:+ d.

(** The number a string of digits denotes when read in base ten. *)
Fixpoint decimal_from (s : string) (acc : Z) : Z :=
  match s with
  | EmptyString => acc
  | String c r => decimal_from r (acc * 10 + Sh.digit_value c)%Z
  end.
Definition decimal (s : string) : Z := decimal_from s 0.

(** A group that bash reads in base eight and cannot: it starts with [0] and
    has a digit [8] or [9]. *)
Definition bad_octal (g : string) : bool :=
  starts_with "0" g && (has_char "8" g || has_char "9" g).

(** The ten digits, and every group there is. *)
Definition digits : list ascii :=
  map ascii_of_nat (seq 48 10).
Definition all_groups : list string :=
  flat_map (fun c1 =>
    String c1 EmptyString ::
    flat_map (fun c2 =>
      String c1 (String c2 EmptyString) ::
      map (fun c3 => String c1 (String c2 (String c3 EmptyString))) digits) digits) digits.

(** What [validate_ip] is found to compute on a group. *)
Definition group_ok (g : string) : bool :=
  negb (bad_octal g) && (decimal g <=? 255)%Z.

End Quad.

(** Ways of relating the worlds before and after a piece of the script. *)

Module Frame.
Import Text Sh.

(** [w'] comes after [w]: its trace continues that of [w] with events that
    are all [allowed], and the files at the paths in [kept] are as in [w]. *)
Definition after (allowed : Event -> bool) (kept : string -> Prop) (w w' : World) : Prop :=
  (exists evs : list Event, trace w' = (trace w ++ evs)%list /\ Forall (fun e => allowed e = true) evs) /\
  (forall p, kept p -> files w' !! p = files w !! p).

(** A command relates every world to one that comes after it, however the
    command ends, and when it ends the script it does so with status 1. *)
Definition framed {A} (allowed : Event -> bool) (kept : string -> Prop)
    (m : Script A) : Prop :=
  forall w, after allowed kept w (snd (m w)) /\
            (forall c, fst (m w) = Exited c -> c = 1).

(** A command that does not read from the terminal cannot be left waiting
    for the operator. *)
Definition never_waits {A} (m : Script A) : Prop :=
  forall w, fst (m w) <> Waiting.

(** An event by which the script acts on the host: an external program is
    run or a file is written. *)
Definition touches_host (e : Event) : bool :=
  match e with
  | EvRun _ _ | EvWrite _ | EvAppend _ => true
  | EvLog _ | EvRead _ _ | EvSleep _ => false
  end.

(** A file is written. *)
Definition writes_file (e : Event) : bool :=
  match e with
  | EvWrite _ | EvAppend _ => true
  | _ => false
  end.

Definition any_event (e : Event) : bool := true.
Definition every_path (p : string) : Prop := True.
Definition no_path (p : string) : Prop := False.

(** Lines 103-109 with what comes before them. *)
Definition collection (env : Env) : Script Request :=
  require_root env ;; log env "Starting server configuration..." ;; collect_input env.

(** Lines 111-341, given the answers. *)
Definition application (env : Env) (r : Request) : Script unit :=
  prepare_system env ;; install_packages env ;; backup_files env ;; configure env r ;;
  restart_services env ;; test_configuration env ;; summary env r.

(** The command lines by which a package is looked up and installed. *)
Definition query_argv (package : string) : list string := ["dpkg"; "-l"; package].
Definition install_argv (package : string) : list string :=
  ["apt-get"; "install"; "-y"; package].

(** In [evs] every run of [argv] but the first comes after a sleep of five
    seconds that follows the run before it, and no sleep has another length.
    [rested] tells whether a run may come next. *)
Fixpoint spaced (argv : list string) (rested : bool) (evs : list Event) : bool :=
  match evs with
  | [] => true
  | e :: rest =>
      if is_run_of argv e then rested && spaced argv false rest
      else
        match e with
        | EvSleep n => Nat.eqb n 5 && spaced argv true rest
        | _ => spaced argv rested rest
        end
  end.

(** Events that neither write a file nor look up or install [package]. *)
Definition apart_from (package : string) (e : Event) : bool :=
  negb (writes_file e) && negb (is_run_of (query_argv package) e) &&
  negb (is_run_of (install_argv package) e).

Definition no_write (e : Event) : bool := negb (writes_file e).

(** The script around the package loop of lines 153-160. *)
Definition before_packages (env : Env) : Script Request :=
  r ← collection env; prepare_system env ;; mret r.
Definition after_packages (env : Env) (r : Request) : Script unit :=
  backup_files env ;; configure env r ;;
  restart_services env ;; test_configuration env ;; summary env r.

(** The world [w] with the events [evs] added to its trace. *)
Definition extend (w : World) (evs : list Event) : World :=
  {| files := files w; tty := tty w; trace := trace w ++ evs |}.

(** The runs of external programs among some events. *)
Definition is_run (e : Event) : bool :=
  match e with EvRun _ _ => true | _ => false end.
Definition runs_of (evs : list Event) : list Event := List.filter is_run evs.

(** Command lines that are pairwise different. *)
Fixpoint distinct (cmds : list (list string)) : bool :=
  match cmds with
  | [] => true
  | a :: rest => forallb (fun b => negb (same_argv a b)) rest && distinct rest
  end.

(** A sequence of commands each of which only warns when it fails. *)
Definition warn_all (env : Env) (cmds : list (list string * string)) : Script unit :=
  for_each cmds (fun cmd => or_warn env (fst cmd) (snd cmd)).

(** The exit status the host gives to the next run of [argv] in [w]. *)
Definition next_status (env : Env) (argv : list string) (w : World) : bool :=
  exit_ok env argv (calls argv (trace w)).

(** The commands of the service loop and of the configuration tests, with
    their warnings. *)
Definition restart_argv (service : string) : list string :=
  ["systemctl"; "restart"; service].
Definition enable_argv (service : string) : list string :=
  ["systemctl"; "enable"; service].
Definition service_commands : list (list string * string) :=
  flat_map (fun service =>
    [(restart_argv service, "WARNING: Failed to restart " +:+ service);
     (enable_argv service, "WARNING: Failed to enable " +:+ service)]) services.
Definition test_commands : list (list string * string) :=
  [(["apache2ctl"; "configtest"], "WARNING: Apache config test failed");
   (["named-checkconf"], "WARNING: BIND config test failed")].

(** The commands of the service manager and of the two tests, and a host
    that differs from [env] in what becomes of them only. *)
Definition is_service_command (argv : list string) : bool :=
  match argv with
  | program :: _ =>
      String.eqb program "systemctl" || String.eqb program "apache2ctl" ||
      String.eqb program "named-checkconf"
  | [] => false
  end.
Definition with_services (env : Env) (status : list string -> nat -> bool) : Env :=
  {| id_u := id_u env; hostname := hostname env; clock := clock env;
     exit_ok := fun argv k =>
       if is_service_command argv then status argv k else exit_ok env argv k |}.

(** The files of lines 163-166, the name of a backup, and the script around
    the backup of one of them. *)
Definition backed_up_files : list string :=
  ["/etc/resolv.conf"; "/etc/bind/named.conf.default-zones";
   "/etc/apache2/sites-available/000-default.conf"; "/etc/samba/smb.conf"].
Definition backup_path (file : string) (t : Stamp) : string :=
  file +:+ ".backup." +:+ date_backup t.
Definition is_backup_of (file path : string) : Prop :=
  exists suffix, path = file +:+ ".backup." +:+ suffix.
Definition is_file (file path : string) : Prop := path = file.

Definition before_backup (env : Env) (earlier : list string) : Script Request :=
  r ← before_packages env; install_packages env ;;
  for_each earlier (backup_config env) ;; mret r.
Definition after_backup (env : Env) (later : list string) (r : Request) : Script unit :=
  for_each later (backup_config env) ;; configure env r ;;
  restart_services env ;; test_configuration env ;; summary env r.
Definition around_backup (env : Env) (earlier : list string) (file : string)
    (later : list string) : Script unit :=
  r ← before_backup env earlier; backup_config env file ;; after_backup env later r.

(** The files the script writes with [cat >]. *)
Definition rendered_files : list string :=
  ["/etc/resolv.conf"; "/etc/bind/named.conf.default-zones"; "/etc/bind/smk.db";
   "/etc/bind/smk.ip"; "/etc/apache2/sites-available/000-default.conf";
   "/var/www/index.php"; "/etc/samba/smb.conf"].

(** Two hosts on which it is the same calendar day whenever the script
    asks. *)
Definition same_day (env1 env2 : Env) : Prop :=
  forall n m,
    year (clock env1 n) = year (clock env2 m) /\
    month (clock env1 n) = month (clock env2 m) /\
    day (clock env1 n) = day (clock env2 m).

End Frame.

(** ** Further notions, for the properties beyond the specification *)

Module More.
Import Text Sh Frame.

(** An argument that [echo] takes for options (see [Sh.echo]). *)
Definition is_echo_option (arg : string) : bool :=
  match arg with
  | String "-" (String c r as flags) => all_chars is_echo_flag flags
  | _ => false
  end.

(** The sleeps among some events. *)
Definition is_sleep (e : Event) : bool :=
  match e with EvSleep _ => true | _ => false end.
Definition sleeps (evs : list Event) : nat := length (List.filter is_sleep evs).

(** A trace whose last event is an error message of [handle_error]. *)
Definition ends_with_error (tr : list Event) : Prop :=
  exists before stamp msg,
    tr = (before ++ [EvLog (log_text stamp ("ERROR: " +:+ msg))])%list.

(** A command that ends the script only right after such a message. *)
Definition announces {A} (m : Script A) : Prop :=
  forall w c, fst (m w) = Exited c -> ends_with_error (trace (snd (m w))).

(** A command that always runs to its end. *)
Definition completes {A} (m : Script A) : Prop :=
  forall w, exists a, fst (m w) = Done a.

(** The paths the script writes by redirection, and the line of line 317. *)
Definition written_paths : list string :=
  (rendered_files ++ ["/etc/apache2/apache2.conf"])%list.
Definition include_line : string := "Include /etc/phpmyadmin/apache.conf" +:+ nl.

(** A path that is no backup of a file of lines 163-166. *)
Definition no_backup (path : string) : Prop :=
  forall file, In file backed_up_files -> ~ is_backup_of file path.

(** The steps by which the script itself changes files are in order: a
    redirection goes to one of the written paths, and [cp] copies one of the
    four files of lines 163-166 to a name made of the file's own name and
    [.backup.]. *)
Definition own_change_ok (e : Event) : bool :=
  match e with
  | EvWrite path | EvAppend path => existsb (String.eqb path) written_paths
  | EvRun (program :: args) _ =>
      if String.eqb program "cp" then
        match args with
        | [src; dst] =>
            existsb (String.eqb src) backed_up_files &&
            starts_with (src +:+ ".backup.") dst
        | _ => false
        end
      else true
  | _ => true
  end.

(** The backups that come before the backup of one of the four files. *)
Definition backups_before (env : Env) (r : Request) (earlier : list string)
    : Script Request :=
  for_each earlier (backup_config env) ;; mret r.

(** The script up to the last backup. *)
Definition before_configure (env : Env) : Script Request :=
  r ← before_backup env
        ["/etc/resolv.conf"; "/etc/bind/named.conf.default-zones";
         "/etc/apache2/sites-available/000-default.conf"];
  backup_config env "/etc/samba/smb.conf" ;; mret r.

(** The four commands of lines 111-142 whose failure can end the script,
    and the exit status of the run of [argv] that follows [k] further runs
    of it, counted from the world [w]. *)
Definition dpkg_configure : list string := ["dpkg"; "--configure"; "-a"].
Definition apt_update : list string := ["apt-get"; "update"; "-y"].
Definition apt_upgrade : list string := ["apt-get"; "upgrade"; "-y"].
Definition add_universe : list string := ["add-apt-repository"; "universe"; "-y"].
Definition status_at (env : Env) (w : World) (argv : list string) (k : nat) : bool :=
  exit_ok env argv (calls argv (trace w) + k).

(** The prompts of lines 103-109. *)
Definition prompt_ip : string := "Enter IP address (e.g., 192.168.1.1): ".
Definition prompt_domain : string := "Enter domain name (e.g., example.com): ".
Definition prompt_mysql : string := "Enter password for MySQL root: ".
Definition prompt_phpmyadmin : string := "Enter password for phpMyAdmin: ".
Definition prompt_samba_user : string := "Enter username for Samba (e.g., smbuser): ".
Definition prompt_samba_password : string := "Enter password for Samba: ".

End More.

(** ** Situations used in examples and witnesses *)

(** A host on which every program succeeds and the clock stands still, an
    operator who has yet to type the given lines, and the answers of the
    specification's scenario A. *)
Definition noon : Sh.Stamp :=
  {| Sh.year := "2026"; Sh.month := "11"; Sh.day := "03";
     Sh.hour := "12"; Sh.minute := "00"; Sh.second := "00" |}.
Definition calm : Sh.Env :=
  {| Sh.id_u := "0" +:+ Text.nl; Sh.hostname := "box" +:+ Text.nl;
     Sh.clock := fun _ => noon; Sh.exit_ok := fun _ _ => true |}.
Definition at_prompt (lines : list string) : Sh.World :=
  {| Sh.files := ∅; Sh.tty := lines; Sh.trace := [] |}.
Definition answers_A : list string :=
  ["192.168.1.10"; "example.com"; "rootpw"; "pmapw"; "smbuser"; "smbpw"].
Definition request_A : Sh.Request :=
  {| Sh.user_ip := "192.168.1.10"; Sh.user_domain := "example.com";
     Sh.mysql_root_password := "rootpw"; Sh.phpmyadmin_password := "pmapw";
     Sh.samba_username := "smbuser"; Sh.samba_password := "smbpw" |}.

(** A host on which samba is not installed and cannot be installed. *)
Definition without_samba : Sh.Env :=
  {| Sh.id_u := "0" +:+ Text.nl; Sh.hostname := "box" +:+ Text.nl;
     Sh.clock := fun _ => noon;
     Sh.exit_ok := fun argv _ =>
       negb (Sh.same_argv argv (Frame.query_argv "samba") ||
             Sh.same_argv argv (Frame.install_argv "samba")) |}.

(** The calm host with a service manager and tests that always fail. *)
Definition services_down : Sh.Env := Frame.with_services calm (fun _ _ => false).

(** A host that already has a forward zone file, as after an earlier run of
    the script, and one that already has a resolver configuration. *)
Definition with_old_zone : Sh.World :=
  {| Sh.files := {[ "/etc/bind/smk.db" := "old zone" ]};
     Sh.tty := answers_A; Sh.trace := [] |}.
Definition with_old_resolver : Sh.World :=
  {| Sh.files := {[ "/etc/resolv.conf" := "nameserver 1.1.1.1" ]};
     Sh.tty := answers_A; Sh.trace := [] |}.

(** The calm host under another name. *)
Definition renamed : Sh.Env :=
  {| Sh.id_u := "0" +:+ Text.nl; Sh.hostname := "vault" +:+ Text.nl;
     Sh.clock := fun _ => noon; Sh.exit_ok := fun _ _ => true |}.

(** An environment and bodies for the contact server. *)
Definition mail_env : Mail.ProcessEnv :=
  {| Mail.FROM_EMAIL := None; Mail.SMTP_USER := Some "relay@example.com";
     Mail.TO_EMAIL := None |}.
Definition body_scenario_B : Mail.Body :=
  {| Mail.name := Mail.Str "A"; Mail.email := Mail.Str "a@b.com";
     Mail.message := Mail.Str "hi" |}.
Definition body_without_message : Mail.Body :=
  {| Mail.name := Mail.Str "A"; Mail.email := Mail.Str "a@b.com";
     Mail.message := Mail.Absent |}.
Definition body_empty_name : Mail.Body :=
  {| Mail.name := Mail.Str EmptyString; Mail.email := Mail.Str "a@b.com";
     Mail.message := Mail.Str "hi" |}.

(** Bodies whose message is not a string, and an environment that names a
    recipient. *)
Definition body_numeric_message : Mail.Body :=
  {| Mail.name := Mail.Str "A"; Mail.email := Mail.Str "a@b.com";
     Mail.message := Mail.Other true (Some "5") |}.
Definition mail_env_with_recipient : Mail.ProcessEnv :=
  {| Mail.FROM_EMAIL := Some "site@example.com"; Mail.SMTP_USER := Some "relay@example.com";
     Mail.TO_EMAIL := Some "owner@example.com" |}.

(** What the script keeps of the answers when the first address typed was
    999.1.1.1, and a host on which the script is not run by root. *)
Definition spoiled_request : Sh.Request :=
  {| Sh.user_ip :=
       "[2026-11-03 12:00:00] Invalid input, please try again" +:+ Text.nl +:+
       "192.168.1.10";
     Sh.user_domain := "example.com";
     Sh.mysql_root_password := "rootpw"; Sh.phpmyadmin_password := "pmapw";
     Sh.samba_username := "smbuser"; Sh.samba_password := "smbpw" |}.
(** A host whose web server configuration includes phpMyAdmin's already. *)
Definition with_include_line : Sh.World :=
  {| Sh.files :=
       {[ "/etc/apache2/apache2.conf" := "ServerName box" +:+ Text.nl +:+ More.include_line ]};
     Sh.tty := []; Sh.trace := [] |}.

Definition not_root : Sh.Env :=
  {| Sh.id_u := "1000" +:+ Text.nl; Sh.hostname := "box" +:+ Text.nl;
     Sh.clock := fun _ => noon; Sh.exit_ok := fun _ _ => true |}.

(** ** The provisioning script: [validate_ip] *)

Example validate_ip_ex1 : Sh.validate_ip "192.168.1.10" = true.
Proof. reflexivity. Qed.
Example validate_ip_ex2 : Sh.validate_ip "192.168.1.256" = false.
Proof. reflexivity. Qed.
Example validate_ip_ex3 : Sh.validate_ip "192.168.1.08" = false.
Proof. reflexivity. Qed.
Example validate_ip_ex4 : Sh.validate_ip "1.2.3.4.5" = false.
Proof. reflexivity. Qed.
Example validate_ip_ex5 : Sh.validate_ip "010.077.0.00" = true.
Proof. reflexivity. Qed.

Section ValidateIp.
Import Text Sh Quad.

Lemma is_digit_not_dot c : is_digit c = true -> Ascii.eqb c dot = false.
Proof.
  unfold is_digit. intros H. apply andb_true_iff in H as [H1 H2].
  apply Nat.leb_le in H1. apply Ascii.eqb_neq. intros ->.
  vm_compute in H1. lia.
Qed.

(** The shape of a group, by cases on its length. *)
Lemma is_group_cases g :
  is_group g = true ->
  (exists c1, g = String c1 EmptyString /\ is_digit c1 = true) \/
  (exists c1 c2, g = String c1 (String c2 EmptyString) /\
                 is_digit c1 = true /\ is_digit c2 = true) \/
  (exists c1 c2 c3, g = String c1 (String c2 (String c3 EmptyString)) /\
                    is_digit c1 = true /\ is_digit c2 = true /\ is_digit c3 = true).
Proof.
  unfold is_group. intros H.
  destruct g as [|c1 [|c2 [|c3 [|c4 r]]]]; simpl in H; try discriminate.
  - left. exists c1. rewrite andb_true_r in H. auto.
  - right; left. exists c1, c2. rewrite andb_true_r in H.
    apply andb_true_iff in H. tauto.
  - right; right. exists c1, c2, c3. rewrite andb_true_r in H.
    apply andb_true_iff in H as [H1 H]. apply andb_true_iff in H. tauto.
Qed.

(** A group followed by text on which [k] succeeds is matched. *)
Lemma digits_1_3_group k g r :
  is_group g = true -> k r = true -> digits_1_3 k (g +:+ r) = true.
Proof.
  intros Hg Hk.
  destruct (is_group_cases g Hg) as
    [(c1 & -> & H1) | [(c1 & c2 & -> & H1 & H2) | (c1 & c2 & c3 & -> & H1 & H2 & H3)]];
    simpl; rewrite ?H1, ?H2, ?H3, ?Hk; simpl; rewrite ?orb_true_r; reflexivity.
Qed.

(** What is matched starts with a group, and [k] succeeds on the rest. *)
Lemma digits_1_3_inv k s :
  digits_1_3 k s = true ->
  exists g r, s = g +:+ r /\ is_group g = true /\ k r = true.
Proof.
  unfold digits_1_3. intros H.
  destruct s as [|c1 r1]; [discriminate|].
  apply andb_true_iff in H as [H1 H].
  apply orb_true_iff in H as [H|H].
  { exists (String c1 EmptyString), r1. unfold is_group. simpl. rewrite H1. auto. }
  destruct r1 as [|c2 r2]; [discriminate|].
  apply andb_true_iff in H as [H2 H].
  apply orb_true_iff in H as [H|H].
  { exists (String c1 (String c2 EmptyString)), r2.
    unfold is_group. simpl. rewrite H1, H2. auto. }
  destruct r2 as [|c3 r3]; [discriminate|].
  apply andb_true_iff in H as [H3 H].
  exists (String c1 (String c2 (String c3 EmptyString))), r3.
  unfold is_group. simpl. rewrite H1, H2, H3. auto.
Qed.

Lemma literal_dot_inv k s :
  literal_dot k s = true -> exists r, s = "." +:+ r /\ k r = true.
Proof.
  destruct s as [|c r]; simpl; [discriminate|].
  intros H. apply andb_true_iff in H as [Hc Hk].
  apply Ascii.eqb_eq in Hc as ->. exists r. auto.
Qed.

(** The pattern matches exactly the quads of four groups. *)
Lemma ip_pattern_quad a b c d :
  is_group a = true -> is_group b = true -> is_group c = true -> is_group d = true ->
  ip_pattern (quad a b c d) = true.
Proof.
  intros Ha Hb Hc Hd. unfold ip_pattern, quad.
  apply digits_1_3_group; [assumption|]. simpl.
  apply digits_1_3_group; [assumption|]. simpl.
  apply digits_1_3_group; [assumption|]. simpl.
  replace d with (d +:+ EmptyString).
  - apply digits_1_3_group; [assumption|reflexivity].
  - clear. induction d; simpl; congruence.
Qed.

Lemma ip_pattern_inv s :
  ip_pattern s = true ->
  exists a b c d, s = quad a b c d /\
    is_group a = true /\ is_group b = true /\ is_group c = true /\ is_group d = true.
Proof.
  unfold ip_pattern. intros H.
  apply digits_1_3_inv in H as (a & r1 & -> & Ha & H).
  apply literal_dot_inv in H as (r2 & -> & H).
  apply digits_1_3_inv in H as (b & r3 & -> & Hb & H).
  apply literal_dot_inv in H as (r4 & -> & H).
  apply digits_1_3_inv in H as (c & r5 & -> & Hc & H).
  apply literal_dot_inv in H as (r6 & -> & H).
  apply digits_1_3_inv in H as (d & r7 & -> & Hd & H).
  destruct r7; [|discriminate].
  exists a, b, c, d. split; [|auto].
  unfold quad. f_equal. f_equal. f_equal. f_equal. f_equal. f_equal.
  clear. induction d; simpl; congruence.
Qed.

Lemma is_digit_in c : is_digit c = true -> In c digits.
Proof.
  intros H.
  destruct c as [[] [] [] [] [] [] [] []]; vm_compute in H; try discriminate;
    vm_compute; tauto.
Qed.

Lemma is_group_in g : is_group g = true -> In g all_groups.
Proof.
  intros H. unfold all_groups.
  destruct (is_group_cases g H) as
    [(c1 & -> & H1) | [(c1 & c2 & -> & H1 & H2) | (c1 & c2 & c3 & -> & H1 & H2 & H3)]];
    apply in_flat_map; exists c1; (split; [now apply is_digit_in|]).
  - left; reflexivity.
  - right. apply in_flat_map. exists c2. split; [now apply is_digit_in|].
    left; reflexivity.
  - right. apply in_flat_map. exists c2. split; [now apply is_digit_in|].
    right. apply in_map_iff. exists c3. split; [reflexivity|now apply is_digit_in].
Qed.

(** A property checked on every group holds of every group. *)
Lemma for_all_groups (check : string -> bool) :
  forallb check all_groups = true -> forall g, is_group g = true -> check g = true.
Proof.
  intros H g Hg. rewrite forallb_forall in H. apply H. now apply is_group_in.
Qed.

(** [[[ $g -le 255 ]]] on a group: true when the group is at most 255 read in
    base ten, unless bash cannot read it in base eight. *)
Lemma le_255_group g : is_group g = true -> le_255 g = group_ok g.
Proof.
  intros Hg.
  apply (for_all_groups (fun g => bool_decide (le_255 g = group_ok g))) in Hg.
  - now apply bool_decide_eq_true in Hg.
  - vm_compute. reflexivity.
Qed.

Lemma append_empty_r s : s +:+ EmptyString = s.
Proof. induction s; simpl; congruence. Qed.

Lemma append_assoc s t u : (s +:+ t) +:+ u = s +:+ (t +:+ u).
Proof. induction s; simpl; congruence. Qed.

(** No dot is found inside a run of digits. *)
Lemma pieces_digits g r cur :
  all_chars is_digit g = true ->
  pieces dot (g +:+ r) cur = pieces dot r (cur +:+ g).
Proof.
  revert cur. induction g as [|c g IH]; intros cur H; simpl in *.
  - now rewrite append_empty_r.
  - apply andb_true_iff in H as [Hc Hg].
    rewrite (is_digit_not_dot c Hc), IH by assumption.
    unfold snoc. now rewrite append_assoc.
Qed.

Lemma pieces_digits_end g cur :
  all_chars is_digit g = true -> pieces dot g cur = [cur +:+ g].
Proof.
  intros H. rewrite <- (append_empty_r g) at 1. now rewrite pieces_digits.
Qed.

Lemma is_group_digits g : is_group g = true -> all_chars is_digit g = true.
Proof. unfold is_group. intros H. now apply andb_true_iff in H as [_ H]. Qed.

(** Line 25 recovers the four groups. *)
Lemma split_ifs_dot_quad a b c d :
  is_group a = true -> is_group b = true -> is_group c = true -> is_group d = true ->
  split_ifs_dot (quad a b c d) = [a; b; c; d].
Proof.
  intros Ha Hb Hc Hd. unfold split_ifs_dot, quad.
  rewrite (pieces_digits a) by now apply is_group_digits. simpl.
  rewrite (pieces_digits b) by now apply is_group_digits. simpl.
  rewrite (pieces_digits c) by now apply is_group_digits. simpl.
  rewrite (pieces_digits_end d) by now apply is_group_digits. simpl.
  destruct d; [discriminate|reflexivity].
Qed.

Lemma validate_ip_quad a b c d :
  is_group a = true -> is_group b = true -> is_group c = true -> is_group d = true ->
  validate_ip (quad a b c d) = group_ok a && group_ok b && group_ok c && group_ok d.
Proof.
  intros Ha Hb Hc Hd. unfold validate_ip.
  rewrite ip_pattern_quad, split_ifs_dot_quad by assumption.
  unfold element; simpl. now rewrite !le_255_group by assumption.
Qed.

(** [validate_ip] accepts exactly the quads of four groups each of which is
    at most 255 in base ten and readable by bash. *)
Lemma validate_ip_iff s :
  validate_ip s = true <->
  exists a b c d, s = quad a b c d /\
    is_group a = true /\ is_group b = true /\ is_group c = true /\ is_group d = true /\
    group_ok a = true /\ group_ok b = true /\ group_ok c = true /\ group_ok d = true.
Proof.
  split.
  - intros H.
    assert (ip_pattern s = true) as Hp.
    { unfold validate_ip in H. destruct (ip_pattern s); [reflexivity|discriminate]. }
    destruct (ip_pattern_inv s Hp) as (a & b & c & d & -> & Ha & Hb & Hc & Hd).
    rewrite validate_ip_quad in H by assumption.
    apply andb_true_iff in H as [H H4]. apply andb_true_iff in H as [H H3].
    apply andb_true_iff in H as [H1 H2].
    exists a, b, c, d. tauto.
  - intros (a & b & c & d & -> & Ha & Hb & Hc & Hd & H1 & H2 & H3 & H4).
    rewrite validate_ip_quad by assumption. now rewrite H1, H2, H3, H4.
Qed.

(** A string the pattern does not match is rejected. *)
Lemma validate_ip_malformed s : ip_pattern s = false -> validate_ip s = false.
Proof. unfold validate_ip. now intros ->. Qed.

(** A quad with a group above 255 is rejected. *)
Lemma validate_ip_above_255 a b c d :
  is_group a = true -> is_group b = true -> is_group c = true -> is_group d = true ->
  (255 < decimal a \/ 255 < decimal b \/ 255 < decimal c \/ 255 < decimal d)%Z ->
  validate_ip (quad a b c d) = false.
Proof.
  intros Ha Hb Hc Hd H. rewrite validate_ip_quad by assumption.
  unfold group_ok.
  destruct H as [H | [H | [H | H]]]; apply Z.leb_gt in H; rewrite H;
    rewrite ?andb_false_r; reflexivity.
Qed.

(** The usual way of writing a number up to 255 is a group, denotes that
    number, and is readable by bash. *)
Lemma of_nat_group n :
  n <= 255 ->
  is_group (of_nat n) = true /\ group_ok (of_nat n) = true /\
  decimal (of_nat n) = Z.of_nat n.
Proof.
  intros Hn.
  assert (forallb (fun n => is_group (of_nat n) && group_ok (of_nat n) &&
                            (decimal (of_nat n) =? Z.of_nat n)%Z) (seq 0 256) = true) as H
    by (vm_compute; reflexivity).
  rewrite forallb_forall in H.
  specialize (H n). rewrite in_seq in H.
  assert (0 <= n < 0 + 256) as Hin by lia.
  apply H in Hin. apply andb_true_iff in Hin as [Hin H3].
  apply andb_true_iff in Hin as [H1 H2]. apply Z.eqb_eq in H3. auto.
Qed.

(** Every address written the usual way with numbers up to 255 is accepted. *)
Lemma validate_ip_canonical a b c d :
  a <= 255 -> b <= 255 -> c <= 255 -> d <= 255 ->
  validate_ip (quad (of_nat a) (of_nat b) (of_nat c) (of_nat d)) = true.
Proof.
  intros Ha Hb Hc Hd.
  destruct (of_nat_group a Ha) as (? & ? & _), (of_nat_group b Hb) as (? & ? & _),
    (of_nat_group c Hc) as (? & ? & _), (of_nat_group d Hd) as (? & ? & _).
  apply validate_ip_iff. exists (of_nat a), (of_nat b), (of_nat c), (of_nat d). tauto.
Qed.

End ValidateIp.

(** C2, at the input on which the code departs from it: [192.168.1.08] is
    four groups of one to three digits, each at most 255 as a decimal number;
    the pattern of line 22 matches it, but bash reads [08] in base eight,
    cannot, and line 27 fails: [validate_ip] rejects the address. *)
Theorem leading_zero_octet_is_rejected :
  "192.168.1.08" = Quad.quad "192" "168" "1" "08" /\
  Quad.is_group "192" = true /\ Quad.is_group "168" = true /\
  Quad.is_group "1" = true /\ Quad.is_group "08" = true /\
  (Quad.decimal "192" <= 255)%Z /\ (Quad.decimal "168" <= 255)%Z /\
  (Quad.decimal "1" <= 255)%Z /\ Quad.decimal "08" = 8%Z /\
  Sh.ip_pattern "192.168.1.08" = true /\
  Sh.arith_value "08" = None /\
  Sh.validate_ip "192.168.1.08" = false.
Proof. repeat split; vm_compute; congruence. Qed.

(** ** The provisioning script: how its pieces compose *)

Section Composition.
Import Text Sh Frame.

Lemma bind_run {A B} (m : Script A) (k : A -> Script B) w :
  (m ≫= k) w =
  match m w with
  | (Done a, w') => k a w'
  | (Exited c, w') => (Exited c, w')
  | (Waiting, w') => (Waiting, w')
  end.
Proof. reflexivity. Qed.

Lemma ret_run {A} (a : A) w : (mret a : Script A) w = (Done a, w).
Proof. reflexivity. Qed.

Lemma skip_run w : skip w = (Done tt, w).
Proof. reflexivity. Qed.

Lemma fmap_run {A B} (f : A -> B) (m : Script A) w :
  (f <$> m) w =
  match m w with
  | (Done a, w') => (Done (f a), w')
  | (Exited c, w') => (Exited c, w')
  | (Waiting, w') => (Waiting, w')
  end.
Proof. reflexivity. Qed.

Variable env : Env.
Variable allowed : Event -> bool.
Variable kept : string -> Prop.

Lemma after_refl w : after allowed kept w w.
Proof.
  split; [|auto]. exists []. split; [now rewrite app_nil_r|constructor].
Qed.

Lemma after_trans w1 w2 w3 :
  after allowed kept w1 w2 -> after allowed kept w2 w3 -> after allowed kept w1 w3.
Proof.
  intros [(e1 & T1 & F1) K1] [(e2 & T2 & F2) K2]. split.
  - exists (e1 ++ e2)%list. split.
    + rewrite T2, T1. now rewrite <- app_assoc.
    + apply Forall_app; auto.
  - intros p Hp. rewrite K2, K1; auto.
Qed.

Lemma after_traced e w : allowed e = true -> after allowed kept w (traced e w).
Proof.
  intros He. split; [|auto]. exists [e]. split; [reflexivity|].
  constructor; [assumption|constructor].
Qed.

Lemma framed_done {A} (m : Script A) :
  (forall w, after allowed kept w (snd (m w))) ->
  (forall w, exists a, fst (m w) = Done a) ->
  framed allowed kept m.
Proof.
  intros H1 H2 w. split; [apply H1|].
  intros c Hc. destruct (H2 w) as [a Ha]. congruence.
Qed.

Lemma framed_ret {A} (a : A) : framed allowed kept (mret a : Script A).
Proof. apply framed_done; intros w; [apply after_refl|now exists a]. Qed.

Lemma framed_skip : framed allowed kept skip.
Proof. apply framed_ret. Qed.

Lemma framed_exit {A} : framed allowed kept (exit 1 : Script A).
Proof. intros w. split; [apply after_refl|]. simpl. congruence. Qed.

Lemma framed_bind {A B} (m : Script A) (k : A -> Script B) :
  framed allowed kept m -> (forall a, framed allowed kept (k a)) ->
  framed allowed kept (m ≫= k).
Proof.
  intros Hm Hk w. rewrite bind_run. destruct (Hm w) as [Hw Hc].
  destruct (m w) as [[a|c|] w']; simpl in *.
  - destruct (Hk a w') as [Hw' Hc']. split; [|exact Hc'].
    eapply after_trans; eassumption.
  - split; [assumption|]. intros c0 H0. injection H0 as <-. now apply Hc.
  - split; [assumption|discriminate].
Qed.

Lemma framed_fmap {A B} (f : A -> B) (m : Script A) :
  framed allowed kept m -> framed allowed kept (f <$> m).
Proof.
  intros Hm w. rewrite fmap_run. destruct (Hm w) as [Hw Hc].
  destruct (m w) as [[a|c|] w']; simpl in *; (split; [assumption|]);
    try discriminate.
  intros c0 H0. injection H0 as <-. now apply Hc.
Qed.

Lemma framed_if {A} (b : bool) (m1 m2 : Script A) :
  framed allowed kept m1 -> framed allowed kept m2 ->
  framed allowed kept (if b then m1 else m2).
Proof. destruct b; auto. Qed.

Lemma framed_emit e : allowed e = true -> framed allowed kept (emit e).
Proof.
  intros He. apply framed_done; intros w; [now apply after_traced|now exists tt].
Qed.

Lemma framed_run argv :
  (forall ok, allowed (EvRun argv ok) = true) -> framed allowed kept (run env argv).
Proof.
  intros H. apply framed_done; intros w; [apply after_traced, H|].
  eexists; reflexivity.
Qed.

Lemma framed_date format : framed allowed kept (date env format).
Proof. apply framed_done; intros w; [apply after_refl|eexists; reflexivity]. Qed.

Lemma framed_test_f file : framed allowed kept (test_f file).
Proof. apply framed_done; intros w; [apply after_refl|eexists; reflexivity]. Qed.

Lemma framed_log msg :
  (forall line, allowed (EvLog line) = true) -> framed allowed kept (log env msg).
Proof.
  intros H. apply framed_bind; [apply framed_date|].
  intros stamp. apply framed_emit, H.
Qed.

Lemma framed_handle_error {A} msg :
  (forall line, allowed (EvLog line) = true) ->
  framed allowed kept (handle_error env msg : Script A).
Proof.
  intros H. apply framed_bind; [now apply framed_log|]. intros _. apply framed_exit.
Qed.

Lemma after_tty w rest :
  after allowed kept w {| files := files w; tty := rest; trace := trace w |}.
Proof.
  split; [|auto]. exists []. split; [simpl; now rewrite app_nil_r|constructor].
Qed.

(** [get_input] reads, and never ends the script. *)
Lemma get_input_loop_after prompt default vf lines out w :
  (forall line, allowed (EvRead prompt line) = true) ->
  after allowed kept w (snd (get_input_loop env prompt default vf lines out w)) /\
  (forall c, fst (get_input_loop env prompt default vf lines out w) <> Exited c).
Proof.
  intros H. revert out w. induction lines as [|line rest IH]; intros out w; simpl.
  - split; [apply after_refl|discriminate].
  - assert (after allowed kept w
              (traced (EvRead prompt line)
                 {| files := files w; tty := rest; trace := trace w |})) as Hstep.
    { eapply after_trans; [apply (after_tty w rest)|]. apply after_traced, H. }
    destruct vf as [valid|]; [|split; [exact Hstep|discriminate]].
    destruct (valid _); [split; [exact Hstep|discriminate]|].
    match goal with
    | |- context [get_input_loop env prompt default ?v rest ?o ?w1] =>
        destruct (IH o w1) as [IH1 IH2]
    end.
    split; [|exact IH2]. eapply after_trans; [exact Hstep|exact IH1].
Qed.

Lemma framed_get_input prompt default vf :
  (forall line, allowed (EvRead prompt line) = true) ->
  framed allowed kept (get_input env prompt default vf).
Proof.
  intros H w. unfold get_input.
  destruct (get_input_loop_after prompt default vf (tty w) EmptyString w H) as [H1 H2].
  split; [exact H1|]. intros c Hc. now apply H2 in Hc.
Qed.

Lemma framed_cp src dst :
  (forall ok, allowed (EvRun ["cp"; src; dst] ok) = true) -> ~ kept dst ->
  framed allowed kept (cp env src dst).
Proof.
  intros H Hdst. apply framed_done; intros w; unfold cp; simpl.
  - destruct (exit_ok env _ _) eqn:Hok; [|apply after_traced, H].
    destruct (files w !! src) as [content|]; [|apply after_traced, H].
    eapply after_trans; [apply (after_traced (EvRun ["cp"; src; dst] true) w), H|].
    split.
    + exists []. split; [simpl; now rewrite app_nil_r|constructor].
    + intros p Hp. simpl. apply lookup_insert_ne. now intros ->.
  - destruct (exit_ok env _ _); [|eexists; reflexivity].
    destruct (files w !! src); eexists; reflexivity.
Qed.

Lemma framed_write_file path content :
  allowed (EvWrite path) = true -> ~ kept path ->
  framed allowed kept (write_file path content).
Proof.
  intros H Hpath. apply framed_done; intros w; [|now exists tt].
  unfold write_file. simpl. split.
  - exists [EvWrite path]. split; [reflexivity|]. constructor; [assumption|constructor].
  - intros p Hp. simpl. apply lookup_insert_ne. now intros ->.
Qed.

Lemma framed_append_file path text :
  allowed (EvAppend path) = true -> ~ kept path ->
  framed allowed kept (append_file path text).
Proof.
  intros H Hpath. apply framed_done; intros w; [|now exists tt].
  unfold append_file. simpl. split.
  - exists [EvAppend path]. split; [reflexivity|]. constructor; [assumption|constructor].
  - intros p Hp. simpl. apply lookup_insert_ne. now intros ->.
Qed.

Lemma framed_for_each {A} (xs : list A) (body : A -> Script unit) :
  (forall x, In x xs -> framed allowed kept (body x)) ->
  framed allowed kept (for_each xs body).
Proof.
  induction xs as [|x xs IH]; intros H; simpl.
  - apply framed_skip.
  - apply framed_bind; [apply H; now left|].
    intros _. apply IH. intros y Hy. apply H. now right.
Qed.

Lemma framed_or_die argv msg :
  (forall ok, allowed (EvRun argv ok) = true) ->
  (forall line, allowed (EvLog line) = true) ->
  framed allowed kept (or_die env argv msg).
Proof.
  intros H1 H2. apply framed_bind; [now apply framed_run|].
  intros ok. apply framed_if; [apply framed_skip|now apply framed_handle_error].
Qed.

Lemma framed_or_warn argv msg :
  (forall ok, allowed (EvRun argv ok) = true) ->
  (forall line, allowed (EvLog line) = true) ->
  framed allowed kept (or_warn env argv msg).
Proof.
  intros H1 H2. apply framed_bind; [now apply framed_run|].
  intros ok. apply framed_if; [apply framed_skip|now apply framed_log].
Qed.

Lemma framed_run_ argv :
  (forall ok, allowed (EvRun argv ok) = true) -> framed allowed kept (run_ env argv).
Proof.
  intros H. apply framed_bind; [now apply framed_run|]. intros _. apply framed_skip.
Qed.

Lemma framed_install_loop package max_attempts left :
  (forall line, allowed (EvLog line) = true) ->
  (forall ok, allowed (EvRun ["apt-get"; "install"; "-y"; package] ok) = true) ->
  allowed (EvSleep 5) = true ->
  framed allowed kept (install_loop env package max_attempts left).
Proof.
  intros Hlog Hrun Hsleep. induction left as [|left IH]; simpl.
  - now apply framed_handle_error.
  - apply framed_bind; [now apply framed_log|]. intros _.
    apply framed_bind; [now apply framed_run|]. intros ok.
    apply framed_if; [now apply framed_log|].
    apply framed_bind; [now apply framed_emit|]. intros _. exact IH.
Qed.

(** Commands that never wait. *)
Lemma never_waits_done {A} (m : Script A) :
  (forall w, exists a, fst (m w) = Done a) -> never_waits m.
Proof. intros H w Hw. destruct (H w) as [a Ha]. congruence. Qed.

Lemma never_waits_ret {A} (a : A) : never_waits (mret a : Script A).
Proof. apply never_waits_done. intros w. now exists a. Qed.

Lemma never_waits_skip : never_waits skip.
Proof. apply never_waits_ret. Qed.

Lemma never_waits_exit {A} c : never_waits (exit c : Script A).
Proof. intros w. discriminate. Qed.

Lemma never_waits_bind {A B} (m : Script A) (k : A -> Script B) :
  never_waits m -> (forall a, never_waits (k a)) -> never_waits (m ≫= k).
Proof.
  intros Hm Hk w. rewrite bind_run. specialize (Hm w).
  destruct (m w) as [[a|c|] w']; simpl in *; [apply Hk|discriminate|congruence].
Qed.

Lemma never_waits_if {A} (b : bool) (m1 m2 : Script A) :
  never_waits m1 -> never_waits m2 -> never_waits (if b then m1 else m2).
Proof. destruct b; auto. Qed.

Lemma never_waits_emit e : never_waits (emit e).
Proof. apply never_waits_done. intros w. now exists tt. Qed.

Lemma never_waits_run argv : never_waits (run env argv).
Proof. apply never_waits_done. intros w. eexists. reflexivity. Qed.

Lemma never_waits_date format : never_waits (date env format).
Proof. apply never_waits_done. intros w. eexists. reflexivity. Qed.

Lemma never_waits_test_f file : never_waits (test_f file).
Proof. apply never_waits_done. intros w. eexists. reflexivity. Qed.

Lemma never_waits_log msg : never_waits (log env msg).
Proof. apply never_waits_done. intros w. now exists tt. Qed.

Lemma never_waits_handle_error {A} msg : never_waits (handle_error env msg : Script A).
Proof. intros w. discriminate. Qed.

Lemma never_waits_cp src dst : never_waits (cp env src dst).
Proof.
  apply never_waits_done. intros w. unfold cp. simpl.
  destruct (exit_ok env _ _); [|eexists; reflexivity].
  destruct (files w !! src); eexists; reflexivity.
Qed.

Lemma never_waits_write_file path content : never_waits (write_file path content).
Proof. apply never_waits_done. intros w. now exists tt. Qed.

Lemma never_waits_append_file path text : never_waits (append_file path text).
Proof. apply never_waits_done. intros w. now exists tt. Qed.

Lemma never_waits_for_each {A} (xs : list A) (body : A -> Script unit) :
  (forall x, never_waits (body x)) -> never_waits (for_each xs body).
Proof.
  intros H. induction xs as [|x xs IH]; simpl.
  - apply never_waits_skip.
  - apply never_waits_bind; [apply H|]. intros _. exact IH.
Qed.

Lemma never_waits_install_loop package max_attempts left :
  never_waits (install_loop env package max_attempts left).
Proof.
  induction left as [|left IH]; simpl.
  - apply never_waits_handle_error.
  - apply never_waits_bind; [apply never_waits_log|]. intros _.
    apply never_waits_bind; [apply never_waits_run|]. intros ok.
    apply never_waits_if; [apply never_waits_log|].
    apply never_waits_bind; [apply never_waits_emit|]. intros _. exact IH.
Qed.

End Composition.

(** Decomposes a piece of the script into its commands; [events] proves that
    an event is allowed and [paths] that a written path is not kept. *)
Ltac frame_step events paths :=
  lazymatch goal with
  | |- Frame.framed _ _ Sh.skip => apply framed_skip
  | |- Frame.framed _ _ (Sh.exit 1) => apply framed_exit
  | |- Frame.framed _ _ (Sh.date _ _) => apply framed_date
  | |- Frame.framed _ _ (Sh.test_f _) => apply framed_test_f
  | |- Frame.framed _ _ (Sh.log _ _) => apply framed_log; events
  | |- Frame.framed _ _ (Sh.handle_error _ _) => apply framed_handle_error; events
  | |- Frame.framed _ _ (Sh.or_die _ _ _) => apply framed_or_die; events
  | |- Frame.framed _ _ (Sh.or_warn _ _ _) => apply framed_or_warn; events
  | |- Frame.framed _ _ (Sh.run_ _ _) => apply framed_run_; events
  | |- Frame.framed _ _ (Sh.run _ _) => apply framed_run; events
  | |- Frame.framed _ _ (Sh.emit _) => apply framed_emit; events
  | |- Frame.framed _ _ (Sh.get_input _ _ _ _) => apply framed_get_input; events
  | |- Frame.framed _ _ (Sh.install_loop _ _ _ _) => apply framed_install_loop; events
  | |- Frame.framed _ _ (Sh.cp _ _ _) => apply framed_cp; [events|paths]
  | |- Frame.framed _ _ (Sh.write_file _ _) => apply framed_write_file; [events|paths]
  | |- Frame.framed _ _ (Sh.append_file _ _) => apply framed_append_file; [events|paths]
  | |- Frame.framed _ _ (Sh.for_each _ _) => apply framed_for_each; intros ? ?
  | |- Frame.framed _ _ (Sh.check_package_installed _ _) => unfold Sh.check_package_installed
  | |- Frame.framed _ _ (Sh.install_package _ _) => unfold Sh.install_package
  | |- Frame.framed _ _ (Sh.install_if_missing _ _) => unfold Sh.install_if_missing
  | |- Frame.framed _ _ (Sh.backup_config _ _) => unfold Sh.backup_config
  | |- Frame.framed _ _ (Sh.restart_and_enable _ _) => unfold Sh.restart_and_enable
  | |- Frame.framed _ _ (Sh.command_subst _) => unfold Sh.command_subst
  | |- Frame.framed _ _ (Sh.require_root _) => unfold Sh.require_root
  | |- Frame.framed _ _ (Sh.collect_input _) => unfold Sh.collect_input
  | |- Frame.framed _ _ (Sh.prepare_system _) => unfold Sh.prepare_system
  | |- Frame.framed _ _ (Sh.install_packages _) => unfold Sh.install_packages
  | |- Frame.framed _ _ (Sh.backup_files _) => unfold Sh.backup_files
  | |- Frame.framed _ _ (Sh.configure _ _) => unfold Sh.configure
  | |- Frame.framed _ _ (Sh.restart_services _) => unfold Sh.restart_services
  | |- Frame.framed _ _ (Sh.test_configuration _) => unfold Sh.test_configuration
  | |- Frame.framed _ _ (Sh.summary _ _) => unfold Sh.summary
  | |- Frame.framed _ _ (fmap _ _) => apply framed_fmap
  | |- Frame.framed _ _ (if _ then _ else _) => apply framed_if
  | |- Frame.framed _ _ (mbind _ _) => apply framed_bind; [|intros ?]
  | |- Frame.framed _ _ (mret _) => apply framed_ret
  end.

Ltac frame_with events paths := repeat (frame_step events paths).

Ltac any_event_ok := intros; reflexivity.
Ltac no_path_kept := let H := fresh in intros H; exact H.

Ltac waits_step :=
  lazymatch goal with
  | |- Frame.never_waits Sh.skip => apply never_waits_skip
  | |- Frame.never_waits (Sh.exit _) => apply never_waits_exit
  | |- Frame.never_waits (Sh.date _ _) => apply never_waits_date
  | |- Frame.never_waits (Sh.test_f _) => apply never_waits_test_f
  | |- Frame.never_waits (Sh.log _ _) => apply never_waits_log
  | |- Frame.never_waits (Sh.handle_error _ _) => apply never_waits_handle_error
  | |- Frame.never_waits (Sh.run _ _) => apply never_waits_run
  | |- Frame.never_waits (Sh.emit _) => apply never_waits_emit
  | |- Frame.never_waits (Sh.install_loop _ _ _ _) => apply never_waits_install_loop
  | |- Frame.never_waits (Sh.cp _ _ _) => apply never_waits_cp
  | |- Frame.never_waits (Sh.write_file _ _) => apply never_waits_write_file
  | |- Frame.never_waits (Sh.append_file _ _) => apply never_waits_append_file
  | |- Frame.never_waits (Sh.for_each _ _) => apply never_waits_for_each; intros ?
  | |- Frame.never_waits (Sh.or_die _ _ _) => unfold Sh.or_die
  | |- Frame.never_waits (Sh.or_warn _ _ _) => unfold Sh.or_warn
  | |- Frame.never_waits (Sh.run_ _ _) => unfold Sh.run_
  | |- Frame.never_waits (Sh.check_package_installed _ _) =>
      unfold Sh.check_package_installed
  | |- Frame.never_waits (Sh.install_package _ _) => unfold Sh.install_package
  | |- Frame.never_waits (Sh.install_if_missing _ _) => unfold Sh.install_if_missing
  | |- Frame.never_waits (Sh.backup_config _ _) => unfold Sh.backup_config
  | |- Frame.never_waits (Sh.restart_and_enable _ _) => unfold Sh.restart_and_enable
  | |- Frame.never_waits (Sh.prepare_system _) => unfold Sh.prepare_system
  | |- Frame.never_waits (Sh.install_packages _) => unfold Sh.install_packages
  | |- Frame.never_waits (Sh.backup_files _) => unfold Sh.backup_files
  | |- Frame.never_waits (Sh.configure _ _) => unfold Sh.configure
  | |- Frame.never_waits (Sh.restart_services _) => unfold Sh.restart_services
  | |- Frame.never_waits (Sh.test_configuration _) => unfold Sh.test_configuration
  | |- Frame.never_waits (Sh.summary _ _) => unfold Sh.summary
  | |- Frame.never_waits (if _ then _ else _) => apply never_waits_if
  | |- Frame.never_waits (mbind _ _) => apply never_waits_bind; [|intros ?]
  | |- Frame.never_waits (mret _) => apply never_waits_ret
  end.

Section Phases.
Import Text Sh Frame.
Variable env : Env.

(** Until the six answers are in, the script logs and reads and does nothing
    else. *)
Lemma collection_harmless :
  framed (fun e => negb (touches_host e)) every_path (collection env).
Proof. unfold collection. frame_with any_event_ok fail. Qed.

Lemma framed_install_if_missing allowed kept package :
  (forall line, allowed (EvLog line) = true) ->
  (forall ok, allowed (EvRun ["dpkg"; "-l"; package] ok) = true) ->
  (forall ok, allowed (EvRun ["dpkg"; "--configure"; "-a"] ok) = true) ->
  (forall ok, allowed (EvRun ["apt-get"; "install"; "-y"; package] ok) = true) ->
  allowed (EvSleep 5) = true ->
  framed allowed kept (install_if_missing env package).
Proof.
  intros Hlog Hq Hc Hi Hs. frame_with ltac:(assumption) fail.
Qed.

(** The rest of the script only adds to the trace. *)
Lemma application_extends r : framed any_event no_path (application env r).
Proof. unfold application. frame_with any_event_ok no_path_kept. Qed.

(** Once the answers are in, the script no longer waits for the operator. *)
Lemma application_never_waits r : never_waits (application env r).
Proof. unfold application. repeat waits_step. Qed.

End Phases.

(** Takes the next command of a sequence apart by the way it ends. *)
Ltac same_sides :=
  lazymatch goal with
  | |- ?x = ?y => constr_eq x y; reflexivity
  end.

Ltac next_phase :=
  repeat (progress (rewrite ?bind_run, ?ret_run, ?skip_run; cbv beta iota));
  match goal with
  | |- context [match ?m ?w with _ => _ end] =>
      lazymatch type of w with
      | Sh.World =>
          let o := fresh "o" in
          let w' := fresh "w" in
          destruct (m w) as [[o| |] w']; cbv beta iota; try same_sides
      end
  end.

(** ** The provisioning script: the operator's answers *)

Section Input.
Import Text Sh Frame Quad.
Variable env : Env.

(** The script is the collection of the answers followed by their
    application. *)
Lemma main_phases w : main env w = (collection env ≫= application env) w.
Proof. unfold main, provision, collection, application. repeat next_phase. Qed.

(** The script waits for the operator only while it collects the answers. *)
Lemma main_waiting w :
  fst (main env w) = Waiting -> fst (collection env w) = Waiting.
Proof.
  rewrite main_phases, bind_run.
  destruct (collection env w) as [[r|c|] w1]; simpl; [|discriminate|reflexivity].
  intros H. now apply application_never_waits in H.
Qed.

(** An answer that passes, or that nothing checks, is returned at once. *)
Lemma get_input_loop_accepted prompt vf line rest out w :
  match vf with Some valid => valid line = true | None => True end ->
  get_input_loop env prompt EmptyString vf (line :: rest) out w =
    (Done (out +:+ echo line),
     traced (EvRead prompt line) {| files := files w; tty := rest; trace := trace w |}).
Proof.
  intros H. simpl. rewrite andb_false_r.
  destruct vf as [valid|]; [now rewrite H|reflexivity].
Qed.

(** An answer that fails the check is not returned: the message of line 57
    goes to the function's output and the next line is read. *)
Lemma get_input_loop_rejected prompt valid line rest out w :
  valid line = false ->
  get_input_loop env prompt EmptyString (Some valid) (line :: rest) out w =
    let w1 := traced (EvRead prompt line)
                {| files := files w; tty := rest; trace := trace w |} in
    get_input_loop env prompt EmptyString (Some valid) rest
      (out +:+ log_text (now env w1) "Invalid input, please try again" +:+ nl) w1.
Proof. intros H. simpl. rewrite andb_false_r. now rewrite H. Qed.

(** Whatever [get_input] returns ends with the output of [echo] for a line
    that passed the check, read after lines that all failed it. *)
Lemma get_input_loop_done prompt valid lines out w res w' :
  get_input_loop env prompt EmptyString (Some valid) lines out w = (Done res, w') ->
  exists rejected accepted noise,
    lines = (rejected ++ accepted :: tty w')%list /\
    Forall (fun l => valid l = false) rejected /\
    valid accepted = true /\
    trace w' = (trace w ++ map (EvRead prompt) (rejected ++ [accepted]))%list /\
    res = out +:+ noise +:+ echo accepted /\
    (rejected = [] -> noise = EmptyString).
Proof.
  revert out w. induction lines as [|line rest IH]; intros out w H.
  - discriminate.
  - destruct (valid line) eqn:Hv.
    + rewrite get_input_loop_accepted in H by exact Hv.
      injection H as <- <-.
      exists [], line, EmptyString. simpl. repeat split; auto.
    + rewrite get_input_loop_rejected in H by exact Hv. cbv zeta in H.
      apply IH in H as (rejected & accepted & noise & -> & Hr & Ha & Ht & -> & _).
      exists (line :: rejected), accepted,
        (log_text
           (now env (traced (EvRead prompt line)
                       {| files := files w; tty := rejected ++ accepted :: tty w';
                          trace := trace w |}))
           "Invalid input, please try again" +:+ nl +:+ noise).
      repeat split; auto.
      * rewrite Ht. simpl. now rewrite <- app_assoc.
      * now rewrite !append_assoc.
      * discriminate.
Qed.

(** Command substitution gives back a valid address as it was typed. *)
Lemma all_chars_append P a b :
  all_chars P (a +:+ b) = all_chars P a && all_chars P b.
Proof. induction a as [|c a IH]; simpl; [reflexivity|]. now rewrite IH, andb_assoc. Qed.

Lemma all_chars_impl (P Q : ascii -> bool) s :
  (forall c, P c = true -> Q c = true) -> all_chars P s = true -> all_chars Q s = true.
Proof.
  intros HPQ. induction s as [|c s IH]; simpl; [reflexivity|].
  intros H. apply andb_true_iff in H as [H1 H2]. now rewrite HPQ, IH.
Qed.

Lemma strip_line s :
  all_chars not_newline s = true -> strip_trailing_newlines (s +:+ nl) = s.
Proof.
  induction s as [|c s IH]; simpl; [reflexivity|].
  intros H. apply andb_true_iff in H as [Hc Hs]. rewrite IH by exact Hs.
  unfold not_newline in Hc. apply negb_true_iff in Hc. now rewrite Hc.
Qed.

Lemma digit_or_dot_not_newline c :
  is_digit c || Ascii.eqb c dot = true -> not_newline c = true.
Proof.
  intros H. unfold not_newline. apply negb_true_iff. apply Ascii.eqb_neq. intros ->.
  vm_compute in H. discriminate.
Qed.

Lemma valid_ip_chars ip :
  validate_ip ip = true ->
  all_chars (fun c => is_digit c || Ascii.eqb c dot) ip = true /\
  exists c r, ip = String c r /\ is_digit c = true.
Proof.
  intros H. apply validate_ip_iff in H
    as (a & b & c & d & -> & Ha & Hb & Hc & Hd & _).
  split.
  - unfold quad. rewrite !all_chars_append. simpl.
    assert (forall g, is_group g = true ->
              all_chars (fun c => is_digit c || Ascii.eqb c dot) g = true) as Hg.
    { intros g Hgr. apply is_group_digits in Hgr.
      revert Hgr. apply all_chars_impl. intros ch ->. reflexivity. }
    now rewrite !Hg by assumption.
  - destruct a as [|c1 a']; [discriminate|].
    exists c1, (a' +:+ "." +:+ b +:+ "." +:+ c +:+ "." +:+ d). split; [reflexivity|].
    apply is_group_digits in Ha. simpl in Ha. now apply andb_true_iff in Ha as [Ha _].
Qed.

Lemma echo_digit_first c r : is_digit c = true -> echo (String c r) = String c r +:+ nl.
Proof.
  intros H. apply is_digit_in in H. vm_compute in H.
  decompose [or] H; subst; try reflexivity; contradiction.
Qed.

Lemma valid_ip_captured ip :
  validate_ip ip = true -> strip_trailing_newlines (echo ip) = ip.
Proof.
  intros H. destruct (valid_ip_chars ip H) as (Hall & c & r & -> & Hc).
  rewrite echo_digit_first by exact Hc. apply strip_line.
  revert Hall. apply all_chars_impl. apply digit_or_dot_not_newline.
Qed.

(** Nothing touches the host before the answers are in: the trace of a run
    is a stretch of messages and reads, followed, only when the collection
    of lines 103-109 has completed, by everything else. *)
Lemma answers_before_host_steps w :
  exists pre post,
    trace (snd (main env w)) = (trace w ++ pre ++ post)%list /\
    Forall (fun e => touches_host e = false) pre /\
    (post = [] \/
     exists r w1, collection env w = (Done r, w1) /\ trace w1 = (trace w ++ pre)%list).
Proof.
  rewrite main_phases, bind_run.
  destruct (collection_harmless env w) as [[(pre & Hpre & Hall) _] _].
  assert (Forall (fun e => touches_host e = false) pre) as Hquiet.
  { eapply Forall_impl; [exact Hall|]. intros e He. now apply negb_true_iff in He. }
  destruct (collection env w) as [[r|c|] w1] eqn:Hc; simpl in Hpre.
  - destruct (application_extends env r w1) as [[(post & Hpost & _) _] _].
    exists pre, post. split; [|split; [exact Hquiet|]].
    + rewrite Hpost, Hpre. now rewrite <- app_assoc.
    + right. exists r, w1. auto.
  - exists pre, []. rewrite app_nil_r. auto.
  - exists pre, []. rewrite app_nil_r. auto.
Qed.

End Input.

(** C8, at the input on which the code departs from it: the operator first
    types an address that fails the check and then a valid one.  The six
    answers are collected before anything else is done, but the address kept
    in the record is the rejection message followed by the second answer: it
    does not pass [validate_ip], and the run goes on to change the host with
    it. *)
Theorem rejected_answer_stays_in_the_address :
  exists r w1,
    Frame.collection calm (at_prompt ("999.1.1.1" :: answers_A)) = (Sh.Done r, w1) /\
    Sh.user_ip r =
      "[2026-11-03 12:00:00] Invalid input, please try again" +:+ Text.nl +:+
      "192.168.1.10" /\
    Sh.validate_ip (Sh.user_ip r) = false /\
    fst (Sh.main calm (at_prompt ("999.1.1.1" :: answers_A))) = Sh.Done tt /\
    In (Sh.EvRun ["dpkg"; "--configure"; "-a"] true)
       (Sh.trace (snd (Sh.main calm (at_prompt ("999.1.1.1" :: answers_A))))) /\
    Sh.files (snd (Sh.main calm (at_prompt ("999.1.1.1" :: answers_A))))
      !! "/etc/resolv.conf" =
      Some (Text.unlines
              ["nameserver [2026-11-03 12:00:00] Invalid input, please try again";
               "192.168.1.10";
               "nameserver 8.8.8.8";
               "search example.com";
               "options edns0 trust-ad"]).
Proof.
  eexists. eexists. split; [vm_compute; reflexivity|].
  split; [vm_compute; reflexivity|].
  split; [vm_compute; reflexivity|].
  split; [vm_compute; reflexivity|].
  split; [vm_compute; tauto|].
  vm_compute. reflexivity.
Qed.

(** C10: a prompt without check and without default takes an empty line as
    the answer at once, with no second prompt; so after a valid address five
    empty lines give a record whose domain, passwords and user name are all
    empty. *)
Theorem empty_answers_are_accepted env ip rest fs tr :
  Sh.validate_ip ip = true ->
  (forall prompt,
      Sh.command_subst (Sh.get_input env prompt EmptyString None)
        {| Sh.files := fs; Sh.tty := EmptyString :: rest; Sh.trace := tr |} =
      (Sh.Done EmptyString,
       {| Sh.files := fs; Sh.tty := rest;
          Sh.trace := tr ++ [Sh.EvRead prompt EmptyString] |})) /\
  Sh.collect_input env
    {| Sh.files := fs;
       Sh.tty := ip :: EmptyString :: EmptyString :: EmptyString :: EmptyString ::
                 EmptyString :: rest;
       Sh.trace := tr |} =
    (Sh.Done {| Sh.user_ip := ip; Sh.user_domain := EmptyString;
                Sh.mysql_root_password := EmptyString;
                Sh.phpmyadmin_password := EmptyString;
                Sh.samba_username := EmptyString; Sh.samba_password := EmptyString |},
     {| Sh.files := fs; Sh.tty := rest;
        Sh.trace :=
          tr ++ [Sh.EvRead "Enter IP address (e.g., 192.168.1.1): " ip;
                 Sh.EvRead "Enter domain name (e.g., example.com): " EmptyString;
                 Sh.EvRead "Enter password for MySQL root: " EmptyString;
                 Sh.EvRead "Enter password for phpMyAdmin: " EmptyString;
                 Sh.EvRead "Enter username for Samba (e.g., smbuser): " EmptyString;
                 Sh.EvRead "Enter password for Samba: " EmptyString] |}).
Proof.
  intros Hip.
  assert (forall prompt rest' tr',
      Sh.command_subst (Sh.get_input env prompt EmptyString None)
        {| Sh.files := fs; Sh.tty := EmptyString :: rest'; Sh.trace := tr' |} =
      (Sh.Done EmptyString,
       {| Sh.files := fs; Sh.tty := rest';
          Sh.trace := tr' ++ [Sh.EvRead prompt EmptyString] |})) as Hempty
    by reflexivity.
  split; [intros prompt; apply Hempty|].
  unfold Sh.collect_input.
  rewrite bind_run. unfold Sh.command_subst at 1. rewrite fmap_run.
  unfold Sh.get_input at 1. cbn [Sh.tty].
  rewrite get_input_loop_accepted by exact Hip.
  cbn [String.append]. rewrite (valid_ip_captured ip Hip).
  unfold Sh.traced. cbn [Sh.files Sh.tty Sh.trace].
  do 5 (rewrite bind_run, Hempty).
  rewrite ret_run. rewrite <- !app_assoc. reflexivity.
Qed.

Lemma empty_answers_are_accepted_witness :
  fst (Sh.collect_input calm
         (at_prompt ["10.0.0.1"; EmptyString; EmptyString; EmptyString; EmptyString;
                     EmptyString])) =
  Sh.Done {| Sh.user_ip := "10.0.0.1"; Sh.user_domain := EmptyString;
             Sh.mysql_root_password := EmptyString;
             Sh.phpmyadmin_password := EmptyString;
             Sh.samba_username := EmptyString; Sh.samba_password := EmptyString |}.
Proof.
  destruct (empty_answers_are_accepted calm "10.0.0.1" [] ∅ [] eq_refl) as [_ H].
  unfold at_prompt. rewrite H. reflexivity.
Defined.

(** ** The provisioning script: packages *)

Section Packages.
Import Text Sh Frame.
Variable env : Env.

Lemma log_run msg w :
  log env msg w = (Done tt, traced (EvLog (log_text (now env w) msg)) w).
Proof. reflexivity. Qed.

Lemma run_run argv w :
  run env argv w =
    (Done (exit_ok env argv (calls argv (trace w))),
     traced (EvRun argv (exit_ok env argv (calls argv (trace w)))) w).
Proof. reflexivity. Qed.

Lemma emit_run e w : emit e w = (Done tt, traced e w).
Proof. reflexivity. Qed.

Lemma handle_error_run {A} msg w :
  (handle_error env msg : Script A) w =
    (Exited 1, traced (EvLog (log_text (now env w) ("ERROR: " +:+ msg))) w).
Proof. reflexivity. Qed.

Lemma same_argv_refl a : same_argv a a = true.
Proof. induction a as [|x a IH]; simpl; [reflexivity|]. now rewrite String.eqb_refl. Qed.

Lemma calls_app a t1 t2 : calls a (t1 ++ t2) = calls a t1 + calls a t2.
Proof. unfold calls. now rewrite List.filter_app, length_app. Qed.

Lemma calls_run a ok : calls a [EvRun a ok] = 1.
Proof. unfold calls. simpl. now rewrite same_argv_refl. Qed.

(** Events that are not runs of [a] do not count. *)
Lemma calls_none a evs :
  Forall (fun e => is_run_of a e = false) evs -> calls a evs = 0.
Proof.
  unfold calls. induction 1 as [|e evs He _ IH]; simpl; [reflexivity|].
  now rewrite He.
Qed.

(** The events of one attempt. *)
Lemma install_loop_step package max_attempts left w :
  install_loop env package max_attempts (S left) w =
    let attempt := max_attempts + 1 - S left in
    let w1 := traced (EvLog (log_text (now env w)
                 ("Attempting to install " +:+ package +:+ " (Attempt " +:+
                  of_nat attempt +:+ " of " +:+ of_nat max_attempts +:+ ")"))) w in
    let ok := exit_ok env (install_argv package) (calls (install_argv package) (trace w1)) in
    let w2 := traced (EvRun (install_argv package) ok) w1 in
    if ok then log env ("Successfully installed " +:+ package) w2
    else install_loop env package max_attempts left (traced (EvSleep 5) w2).
Proof.
  cbn [install_loop]. rewrite bind_run, log_run. cbv beta iota zeta.
  rewrite bind_run, run_run. cbv beta iota.
  fold (install_argv package).
  destruct (exit_ok env (install_argv package) _); [reflexivity|].
  now rewrite bind_run, emit_run.
Qed.

(** However the loop ends it has made at most [left] attempts, and a sleep of
    five seconds separates each attempt from the next. *)
Lemma install_loop_attempts package max_attempts left w :
  exists evs,
    trace (snd (install_loop env package max_attempts left w)) = (trace w ++ evs)%list /\
    calls (install_argv package) evs <= left /\
    spaced (install_argv package) true evs = true.
Proof.
  revert w. induction left as [|left IH]; intros w.
  - cbn [install_loop]. rewrite (handle_error_run (A:=unit)). simpl.
    eexists. split; [reflexivity|].
    split; [apply Nat.le_refl|reflexivity].
  - rewrite install_loop_step. cbv zeta.
    destruct (exit_ok env (install_argv package) _) eqn:Hok.
    + rewrite log_run. simpl. rewrite <- !app_assoc. simpl.
      eexists. split; [reflexivity|]. unfold calls. simpl.
      rewrite String.eqb_refl. simpl. split; [lia|reflexivity].
    + match goal with
      | |- context [install_loop env package max_attempts left ?w3] =>
          destruct (IH w3) as (evs & Ht & Hc & Hs); rewrite Ht
      end.
      simpl. rewrite <- !app_assoc. simpl.
      eexists. split; [reflexivity|].
      split.
      * unfold calls in *. simpl. rewrite String.eqb_refl. simpl. lia.
      * simpl. rewrite String.eqb_refl. simpl. exact Hs.
Qed.

(** When every one of the [left] attempts fails the loop ends the script
    with status 1. *)
Lemma install_loop_exhausted package max_attempts left w :
  (forall k, k < left ->
     exit_ok env (install_argv package) (calls (install_argv package) (trace w) + k) = false) ->
  fst (install_loop env package max_attempts left w) = Exited 1.
Proof.
  revert w. induction left as [|left IH]; intros w H.
  - reflexivity.
  - rewrite install_loop_step. cbv zeta.
    assert (calls (install_argv package)
              (trace (traced (EvLog (log_text (now env w)
                 ("Attempting to install " +:+ package +:+ " (Attempt " +:+
                  of_nat (max_attempts + 1 - S left) +:+ " of " +:+
                  of_nat max_attempts +:+ ")"))) w))
            = calls (install_argv package) (trace w)) as Hsame.
    { simpl. rewrite calls_app. unfold calls at 2. simpl. lia. }
    rewrite Hsame. pose proof (H 0 ltac:(lia)) as H0. rewrite Nat.add_0_r in H0.
    rewrite H0. apply IH. intros k Hk.
    simpl. rewrite !calls_app. rewrite calls_run.
    unfold calls at 2 3. simpl.
    replace (calls (install_argv package) (trace w) + 0 + 1 + 0 + k)
      with (calls (install_argv package) (trace w) + S k) by lia.
    apply H. lia.
Qed.

(** A package the database reports installed is looked up and nothing more. *)
Lemma install_if_missing_installed package w :
  exit_ok env (query_argv package) (calls (query_argv package) (trace w)) = true ->
  install_if_missing env package w =
    (Done tt, traced (EvRun (query_argv package) true) w).
Proof.
  intros H. unfold install_if_missing, check_package_installed.
  rewrite bind_run, run_run. fold (query_argv package). now rewrite H.
Qed.

Lemma main_around_packages w :
  main env w =
    (r ← before_packages env; install_packages env ;; after_packages env r) w.
Proof.
  unfold main, provision, before_packages, after_packages, collection.
  repeat next_phase.
Qed.

Lemma main_framed : framed any_event no_path (main env).
Proof.
  intros w. rewrite main_phases. revert w. apply framed_bind.
  - unfold collection. frame_with any_event_ok no_path_kept.
  - apply application_extends.
Qed.

Lemma after_weaken (allowed allowed' : Event -> bool) kept w w' :
  (forall e, allowed e = true -> allowed' e = true) ->
  after allowed kept w w' -> after allowed' kept w w'.
Proof.
  intros Himp [(evs & Ht & Hall) Hk]. split; [|exact Hk].
  exists evs. split; [exact Ht|]. eapply Forall_impl; [exact Hall|exact Himp].
Qed.

Lemma apart_from_no_write package e : apart_from package e = true -> no_write e = true.
Proof.
  unfold apart_from, no_write. intros H.
  apply andb_true_iff in H as [H _]. now apply andb_true_iff in H as [H _].
Qed.

(** Worlds related by events apart from the package have the same counts of
    its look-ups and installations. *)
Lemma apart_from_calls package kept w w' :
  after (apart_from package) kept w w' ->
  calls (query_argv package) (trace w') = calls (query_argv package) (trace w) /\
  calls (install_argv package) (trace w') = calls (install_argv package) (trace w).
Proof.
  intros [(evs & -> & Hall) _]. rewrite !calls_app.
  rewrite (calls_none (query_argv package) evs), (calls_none (install_argv package) evs).
  - lia.
  - eapply Forall_impl; [exact Hall|]. unfold apart_from. intros e He.
    apply andb_true_iff in He as [_ He]. now apply negb_true_iff in He.
  - eapply Forall_impl; [exact Hall|]. unfold apart_from. intros e He.
    apply andb_true_iff in He as [He _]. apply andb_true_iff in He as [_ He].
    now apply negb_true_iff in He.
Qed.

Lemma before_packages_apart package :
  framed (apart_from package) every_path (before_packages env).
Proof.
  unfold before_packages, collection. frame_with any_event_ok fail.
Qed.

Lemma install_other_apart package other :
  other <> package ->
  framed (apart_from package) every_path (install_if_missing env other).
Proof.
  intros Hne. apply String.eqb_neq in Hne.
  apply framed_install_if_missing; intros; try reflexivity;
    unfold apart_from; simpl; rewrite Hne; reflexivity.
Qed.

Lemma install_no_write package :
  framed no_write every_path (install_if_missing env package).
Proof. apply framed_install_if_missing; intros; reflexivity. Qed.

Lemma for_each_app {A} (xs ys : list A) (body : A -> Script unit) w :
  for_each (xs ++ ys) body w = (for_each xs body ;; for_each ys body) w.
Proof.
  revert w. induction xs as [|x xs IH]; intros w; simpl.
  - reflexivity.
  - rewrite !bind_run. destruct (body x w) as [[[]|c|] w1]; try reflexivity.
    rewrite IH. reflexivity.
Qed.

(** A package that is missing and whose three attempts fail ends the script
    there. *)
Lemma install_if_missing_exhausted package w :
  exit_ok env (query_argv package) (calls (query_argv package) (trace w)) = false ->
  (forall k, k < 3 ->
     exit_ok env (install_argv package) (calls (install_argv package) (trace w) + k)
     = false) ->
  fst (install_if_missing env package w) = Exited 1.
Proof.
  intros Hq Hi. unfold install_if_missing, check_package_installed.
  rewrite bind_run, run_run. fold (query_argv package). rewrite Hq.
  unfold run_. rewrite !bind_run, run_run. cbv beta iota.
  unfold install_package. apply install_loop_exhausted. intros k Hk.
  simpl. rewrite !calls_app. unfold calls at 2 3. simpl.
  replace (calls (install_argv package) (trace w) + 0 + 0 + k)
    with (calls (install_argv package) (trace w) + k) by lia.
  now apply Hi.
Qed.

Lemma install_packages_exhausted package w :
  In package packages ->
  exit_ok env (query_argv package) (calls (query_argv package) (trace w)) = false ->
  (forall k, k < 3 ->
     exit_ok env (install_argv package) (calls (install_argv package) (trace w) + k)
     = false) ->
  (forall a, fst (install_packages env w) <> Done a) /\
  after no_write every_path w (snd (install_packages env w)).
Proof.
  intros Hin Hq Hi.
  assert (NoDup packages) as Hnd.
  { unfold packages. apply (bool_decide_unpack (NoDup _)). vm_compute. exact I. }
  apply in_split in Hin as (xs1 & xs2 & Hsplit).
  assert (~ In package xs1) as Hnot.
  { rewrite Hsplit in Hnd. apply NoDup_app in Hnd as (_ & Hnd & _).
    intros Hx. apply (Hnd package); [now apply list_elem_of_In|left]. }
  unfold install_packages. rewrite Hsplit, for_each_app, bind_run.
  assert (framed (apart_from package) every_path (for_each xs1 (install_if_missing env)))
    as Hxs1.
  { apply framed_for_each. intros other Hother. apply install_other_apart.
    intros ->. contradiction. }
  destruct (Hxs1 w) as [Hafter _].
  destruct (for_each xs1 (install_if_missing env) w) as [[[]|c|] w1]; simpl in Hafter.
  - destruct (apart_from_calls _ _ _ _ Hafter) as [Hcq Hci].
    cbn [for_each]. rewrite bind_run.
    pose proof (install_if_missing_exhausted package w1) as Hex.
    rewrite Hcq, Hci in Hex. specialize (Hex Hq Hi).
    destruct (install_no_write package w1) as [Hstep _].
    destruct (install_if_missing env package w1) as [[[]|c|] w2]; simpl in *;
      try discriminate.
    split; [discriminate|].
    eapply after_trans; [|exact Hstep].
    eapply after_weaken; [apply apart_from_no_write|exact Hafter].
  - split; [discriminate|]. simpl.
    eapply after_weaken; [apply apart_from_no_write|exact Hafter].
  - split; [discriminate|]. simpl.
    eapply after_weaken; [apply apart_from_no_write|exact Hafter].
Qed.

(** If a missing package cannot be installed the script does not complete,
    and it has written no file when it stops. *)
Lemma main_exhausted package w :
  In package packages ->
  exit_ok env (query_argv package) (calls (query_argv package) (trace w)) = false ->
  (forall k, k < 3 ->
     exit_ok env (install_argv package) (calls (install_argv package) (trace w) + k)
     = false) ->
  (fst (main env w) = Exited 1 \/
   fst (main env w) = Waiting /\ fst (collection env w) = Waiting) /\
  after no_write every_path w (snd (main env w)).
Proof.
  intros Hin Hq Hi.
  assert ((forall a, fst (main env w) <> Done a) /\
          after no_write every_path w (snd (main env w))) as [Hnot Hafter].
  { rewrite main_around_packages, bind_run.
    destruct (before_packages_apart package w) as [Hbefore _].
    destruct (before_packages env w) as [[r|c|] w1]; simpl in Hbefore.
    - destruct (apart_from_calls _ _ _ _ Hbefore) as [Hcq Hci].
      rewrite <- Hcq in Hq. rewrite <- Hci in Hi.
      destruct (install_packages_exhausted package w1 Hin Hq Hi) as [Hnd Hstep].
      rewrite bind_run.
      destruct (install_packages env w1) as [[[]|c|] w2]; simpl in *.
      + now destruct (Hnd tt).
      + split; [discriminate|].
        eapply after_trans; [|exact Hstep].
        eapply after_weaken; [apply apart_from_no_write|exact Hbefore].
      + split; [discriminate|].
        eapply after_trans; [|exact Hstep].
        eapply after_weaken; [apply apart_from_no_write|exact Hbefore].
    - split; [discriminate|]. simpl.
      eapply after_weaken; [apply apart_from_no_write|exact Hbefore].
    - split; [discriminate|]. simpl.
      eapply after_weaken; [apply apart_from_no_write|exact Hbefore]. }
  split; [|exact Hafter].
  destruct (main_framed w) as [_ Hcode].
  destruct (fst (main env w)) as [[]|c|] eqn:Hout.
  - now destruct (Hnot tt).
  - left. f_equal. now apply Hcode.
  - right. split; [reflexivity|]. now apply main_waiting.
Qed.

End Packages.

(** On the host where samba is missing and cannot be installed the run ends
    with status 1 after the three attempts. *)
Lemma without_samba_run :
  fst (Sh.main without_samba (at_prompt answers_A)) = Sh.Exited 1 /\
  Sh.calls (Frame.install_argv "samba")
    (Sh.trace (snd (Sh.main without_samba (at_prompt answers_A)))) = 3.
Proof. split; vm_compute; reflexivity. Qed.

(** ** The provisioning script: services *)

Section Services.
Import Text Sh Frame.
Variable env : Env.

Lemma extend_extend w evs1 evs2 : extend (extend w evs1) evs2 = extend w (evs1 ++ evs2).
Proof. unfold extend. simpl. now rewrite <- app_assoc. Qed.

Lemma runs_of_app evs1 evs2 : runs_of (evs1 ++ evs2) = (runs_of evs1 ++ runs_of evs2)%list.
Proof. apply List.filter_app. Qed.

(** A command that only warns never ends the script. *)
Lemma or_warn_run argv msg w :
  exists evs,
    or_warn env argv msg w = (Done tt, extend w evs) /\
    runs_of evs = [EvRun argv (next_status env argv w)] /\
    (next_status env argv w = false ->
     exists stamp, In (EvLog (log_text stamp msg)) evs) /\
    (forall other, same_argv argv other = false -> calls other evs = 0).
Proof.
  unfold or_warn. rewrite bind_run, run_run. fold (next_status env argv w).
  destruct (next_status env argv w) eqn:Hok.
  - exists [EvRun argv true]. split; [reflexivity|]. split; [reflexivity|]. split.
    + discriminate.
    + intros other Hother. unfold calls. simpl. now rewrite Hother.
  - rewrite log_run.
    exists [EvRun argv false;
            EvLog (log_text (now env (traced (EvRun argv false) w)) msg)].
    split; [unfold extend, traced; simpl; now rewrite <- app_assoc|].
    split; [reflexivity|]. split.
    + intros _. eexists. right. left. reflexivity.
    + intros other Hother. unfold calls. simpl. now rewrite Hother.
Qed.

(** Every command of the sequence is run, in order, each with the exit
    status the host has for it, whatever became of the commands before it;
    each failure leaves its warning; and the sequence completes. *)
Lemma warn_all_run cmds w :
  distinct (map fst cmds) = true ->
  exists evs,
    warn_all env cmds w = (Done tt, extend w evs) /\
    runs_of evs = map (fun cmd => EvRun (fst cmd) (next_status env (fst cmd) w)) cmds /\
    (forall cmd, In cmd cmds -> next_status env (fst cmd) w = false ->
       exists stamp, In (EvLog (log_text stamp (snd cmd))) evs) /\
    (forall other, forallb (fun a => negb (same_argv a other)) (map fst cmds) = true ->
       calls other evs = 0).
Proof.
  revert w. induction cmds as [|[argv msg] cmds IH]; intros w Hd.
  - exists []. unfold warn_all, extend. simpl. rewrite app_nil_r.
    destruct w. split; [reflexivity|]. split; [reflexivity|]. split.
    + intros cmd [].
    + intros other _. reflexivity.
  - simpl in Hd. apply andb_true_iff in Hd as [Hfirst Hrest].
    unfold warn_all. cbn [for_each fst snd]. rewrite bind_run.
    destruct (or_warn_run argv msg w) as (evs1 & -> & Hruns1 & Hwarn1 & Hcalls1).
    destruct (IH (extend w evs1) Hrest) as (evs2 & Hrun2 & Hruns2 & Hwarn2 & Hcalls2).
    fold (warn_all env cmds). rewrite Hrun2, extend_extend.
    assert (forall cmd, In cmd cmds ->
              next_status env (fst cmd) (extend w evs1) = next_status env (fst cmd) w)
      as Hsame.
    { intros cmd Hin. unfold next_status, extend. simpl. rewrite calls_app.
      rewrite Hcalls1; [now rewrite Nat.add_0_r|].
      rewrite forallb_forall in Hfirst. apply negb_true_iff. apply Hfirst.
      apply in_map_iff. now exists cmd. }
    exists (evs1 ++ evs2)%list. split; [reflexivity|]. split; [|split].
    + rewrite runs_of_app, Hruns1, Hruns2. simpl. f_equal.
      apply map_ext_in. intros cmd Hin. now rewrite Hsame.
    + intros cmd Hin Hfail. destruct Hin as [Heq|Hin]; [subst cmd|].
      * destruct (Hwarn1 Hfail) as [stamp Hs]. exists stamp.
        apply in_or_app. now left.
      * rewrite <- Hsame in Hfail by exact Hin.
        destruct (Hwarn2 cmd Hin Hfail) as [stamp Hs]. exists stamp.
        apply in_or_app. now right.
    + intros other Hother. simpl in Hother. apply andb_true_iff in Hother as [H1 H2].
      rewrite calls_app, Hcalls1, Hcalls2; auto. now apply negb_true_iff.
Qed.

Lemma restart_services_warn_all w :
  restart_services env w = warn_all env service_commands w.
Proof.
  unfold restart_services, warn_all, service_commands, services, restart_and_enable,
    restart_argv, enable_argv.
  cbn [flat_map app for_each fst snd]. repeat next_phase.
Qed.

Lemma test_configuration_warn_all w :
  test_configuration env w =
    (log env "Testing configuration..." ;; warn_all env test_commands) w.
Proof.
  unfold test_configuration, warn_all, test_commands.
  cbn [for_each fst snd]. repeat next_phase.
  unfold skip. rewrite ret_run.
  repeat match goal with o : unit |- _ => destruct o end. reflexivity.
Qed.

(** The summary is six messages. *)
Lemma summary_done r w : fst (summary env r w) = Done tt.
Proof. reflexivity. Qed.

(** Once the answers are applied up to the service loop, the script runs to
    its end. *)
Lemma reconciliation_done r w :
  fst ((restart_services env ;; test_configuration env ;; summary env r) w) = Done tt.
Proof.
  rewrite bind_run, restart_services_warn_all.
  destruct (warn_all_run service_commands w eq_refl) as (evs1 & -> & _).
  rewrite bind_run, test_configuration_warn_all, bind_run, log_run.
  match goal with
  | |- context [warn_all env test_commands ?w1] =>
      destruct (warn_all_run test_commands w1 eq_refl) as (evs2 & -> & _)
  end.
  apply summary_done.
Qed.

(** The exit status of the script is decided before the service loop. *)
Lemma exit_status_provision w :
  exit_status env w =
    match fst (provision env w) with
    | Done _ => Some 0
    | Exited code => Some code
    | Waiting => None
    end.
Proof.
  unfold exit_status, main. rewrite bind_run.
  destruct (provision env w) as [[r|c|] w1]; try reflexivity.
  pose proof (reconciliation_done r w1) as H. simpl.
  destruct ((restart_services env ;; test_configuration env ;; summary env r) w1)
    as [[[]|c|] w2]; simpl in H; try discriminate. reflexivity.
Qed.

(** Nothing before the service loop asks the host about the service
    manager or the two tests. *)
Lemma bind_ext {A B} (m m' : Script A) (k k' : A -> Script B) w :
  m w = m' w -> (forall a w1, k a w1 = k' a w1) -> (m ≫= k) w = (m' ≫= k') w.
Proof.
  intros Hm Hk. rewrite !bind_run, Hm.
  destruct (m' w) as [[a|c|] w1]; [apply Hk|reflexivity..].
Qed.

Lemma fmap_ext {A B} (f : A -> B) (m m' : Script A) w :
  m w = m' w -> (f <$> m) w = (f <$> m') w.
Proof. intros Hm. now rewrite !fmap_run, Hm. Qed.

Lemma provision_with_services status w :
  provision (with_services env status) w = provision env w.
Proof.
  unfold provision.
  repeat
    lazymatch goal with
    | |- mbind _ _ _ = mbind _ _ _ => apply bind_ext; [|intros ? ?]
    | |- fmap _ _ _ = fmap _ _ _ => apply fmap_ext
    | |- collect_input _ _ = _ => unfold collect_input, command_subst
    | |- prepare_system _ _ = _ => unfold prepare_system
    | |- install_packages _ _ = _ => unfold install_packages, packages; cbn [for_each]
    | |- install_if_missing _ _ _ = _ => unfold install_if_missing
    | |- backup_files _ _ = _ => unfold backup_files
    | |- backup_config _ _ _ = _ => unfold backup_config
    | |- configure _ _ _ = _ => unfold configure
    | |- (if ?b then _ else _) _ = (if ?b then _ else _) _ => destruct b
    | |- _ => reflexivity
    end.
Qed.

Lemma test_configuration_run w :
  exists evs,
    test_configuration env w = (Done tt, extend w evs) /\
    runs_of evs =
      map (fun cmd => EvRun (fst cmd) (next_status env (fst cmd) w)) test_commands /\
    (forall cmd, In cmd test_commands -> next_status env (fst cmd) w = false ->
       exists stamp, In (EvLog (log_text stamp (snd cmd))) evs).
Proof.
  rewrite test_configuration_warn_all, bind_run, log_run.
  set (line := EvLog (log_text (now env w) "Testing configuration...")).
  destruct (warn_all_run test_commands (traced line w) eq_refl)
    as (evs & -> & Hruns & Hwarn & _).
  assert (forall argv, next_status env argv (traced line w) = next_status env argv w)
    as Hsame.
  { intros argv. unfold next_status. simpl. rewrite calls_app.
    unfold calls at 2. simpl. now rewrite Nat.add_0_r. }
  exists (line :: evs). split; [|split].
  - unfold extend, traced. simpl. now rewrite <- app_assoc.
  - change (runs_of (line :: evs)) with (runs_of evs). rewrite Hruns.
    apply map_ext. intros cmd. now rewrite Hsame.
  - intros cmd Hin Hfail. rewrite <- Hsame in Hfail.
    destruct (Hwarn cmd Hin Hfail) as [stamp Hs]. exists stamp. now right.
Qed.

End Services.

(** C7: the service loop runs [systemctl restart] and [systemctl enable] for
    bind9, apache2, mysql and smbd, in this order, each with whatever exit
    status the host has for it and whatever became of the others; a failure
    leaves its warning and nothing else; the two configuration tests
    likewise; both always complete; and the exit status of the script is the
    same on a host that differs only in the exit statuses of the service
    manager and of the tests, namely 0 once the steps before the loop have
    completed. *)
Theorem service_failures_only_warn :
  (forall env w,
      exists evs,
        Sh.restart_services env w = (Sh.Done tt, Frame.extend w evs) /\
        Frame.runs_of evs =
          map (fun cmd => Sh.EvRun (fst cmd) (Frame.next_status env (fst cmd) w))
            Frame.service_commands /\
        (forall cmd, In cmd Frame.service_commands ->
           Frame.next_status env (fst cmd) w = false ->
           exists stamp, In (Sh.EvLog (Sh.log_text stamp (snd cmd))) evs))
  /\
  (forall env w,
      exists evs,
        Sh.test_configuration env w = (Sh.Done tt, Frame.extend w evs) /\
        Frame.runs_of evs =
          map (fun cmd => Sh.EvRun (fst cmd) (Frame.next_status env (fst cmd) w))
            Frame.test_commands /\
        (forall cmd, In cmd Frame.test_commands ->
           Frame.next_status env (fst cmd) w = false ->
           exists stamp, In (Sh.EvLog (Sh.log_text stamp (snd cmd))) evs))
  /\
  (forall env status w,
      Sh.exit_status (Frame.with_services env status) w = Sh.exit_status env w)
  /\
  (forall env w r w1,
      Sh.provision env w = (Sh.Done r, w1) -> Sh.exit_status env w = Some 0).
Proof.
  split; [|split; [|split]].
  - intros env w. rewrite restart_services_warn_all.
    destruct (warn_all_run env Frame.service_commands w eq_refl)
      as (evs & Hrun & Hruns & Hwarn & _).
    exists evs. auto.
  - intros env w. apply test_configuration_run.
  - intros env status w.
    now rewrite !exit_status_provision, provision_with_services.
  - intros env w r w1 H. now rewrite exit_status_provision, H.
Qed.

Lemma service_failures_only_warn_witness :
  Sh.exit_status services_down (at_prompt answers_A) = Some 0 /\
  Sh.exit_status services_down (at_prompt answers_A) =
    Sh.exit_status calm (at_prompt answers_A).
Proof.
  destruct service_failures_only_warn as (_ & _ & Hsame & Hzero).
  split; [|apply Hsame].
  eapply Hzero. vm_compute. reflexivity.
Defined.

(** With the service manager and the tests down, all ten commands are still
    run, and the script ends with status 0. *)
Lemma services_down_run :
  List.filter
    (fun e => match e with
              | Sh.EvRun argv _ => Frame.is_service_command argv
              | _ => false
              end)
    (Sh.trace (snd (Sh.main services_down (at_prompt answers_A)))) =
    [Sh.EvRun ["systemctl"; "restart"; "bind9"] false;
     Sh.EvRun ["systemctl"; "enable"; "bind9"] false;
     Sh.EvRun ["systemctl"; "restart"; "apache2"] false;
     Sh.EvRun ["systemctl"; "enable"; "apache2"] false;
     Sh.EvRun ["systemctl"; "restart"; "mysql"] false;
     Sh.EvRun ["systemctl"; "enable"; "mysql"] false;
     Sh.EvRun ["systemctl"; "restart"; "smbd"] false;
     Sh.EvRun ["systemctl"; "enable"; "smbd"] false;
     Sh.EvRun ["apache2ctl"; "configtest"] false;
     Sh.EvRun ["named-checkconf"] false] /\
  fst (Sh.main services_down (at_prompt answers_A)) = Sh.Done tt.
Proof. split; vm_compute; reflexivity. Qed.


(** ** The provisioning script: backups *)

Ltac not_the_file :=
  let H := fresh in unfold Frame.is_file; intros H; simpl in H; discriminate H.
Ltac not_a_backup :=
  let H := fresh in
  let suffix := fresh in
  unfold Frame.is_backup_of; intros [suffix H]; simpl in H; discriminate H.

Section Backups.
Import Text Sh Frame.
Variable env : Env.

(** What [backup_config] does to a file that exists. *)
Lemma backup_config_present file content w :
  files w !! file = Some content ->
  (exists w',
      backup_config env file w = (Done tt, w') /\
      files w' = <[backup_path file (now env w) := content]> (files w)) \/
  (exists w', backup_config env file w = (Exited 1, w') /\ files w' = files w).
Proof.
  intros Hfile.
  assert (backup_config env file w =
          (ok ← cp env file (backup_path file (now env w));
           if (ok : bool) then skip
           else handle_error env ("Failed to backup file " +:+ file)) w) as ->.
  { unfold backup_config. rewrite bind_run. unfold test_f. rewrite Hfile.
    rewrite bool_decide_eq_true_2 by (now exists content). reflexivity. }
  rewrite bind_run. unfold cp. rewrite run_run.
  destruct (exit_ok env _ _).
  - left. simpl. rewrite Hfile. eexists. split; reflexivity.
  - right. rewrite (handle_error_run env). eexists. split; reflexivity.
Qed.

(** The pattern of every proof below: before the backup of [file] nothing
    changes the file, and after it nothing changes a backup of it. *)
Lemma backup_then (before : Script Request) (later : Request -> Script unit)
    file content w :
  framed any_event (is_file file) before ->
  (forall r, framed any_event (is_backup_of file) (later r)) ->
  files w !! file = Some content ->
  let result := (r ← before; backup_config env file ;; later r) w in
  (fst result = Done tt ->
   exists t, files (snd result) !! backup_path file t = Some content) /\
  (files (snd result) !! file = Some content \/
   exists t, files (snd result) !! backup_path file t = Some content).
Proof.
  intros Hbefore Hlater Hfile. cbv zeta. rewrite bind_run.
  destruct (Hbefore w) as [[_ Hkept] _].
  destruct (before w) as [[r|c|] w1]; simpl in Hkept.
  - assert (files w1 !! file = Some content) as Hfile1
      by (rewrite Hkept; [exact Hfile|reflexivity]).
    rewrite bind_run.
    destruct (backup_config_present file content w1 Hfile1)
      as [(w2 & -> & Hfiles2) | (w2 & -> & Hfiles2)].
    + destruct (Hlater r w2) as [[_ Hkept2] _].
      assert (files (snd (later r w2)) !! backup_path file (now env w1) = Some content)
        as Hbackup.
      { rewrite Hkept2 by (eexists; reflexivity).
        rewrite Hfiles2. apply lookup_insert_eq. }
      split; [intros _|right]; exists (now env w1); exact Hbackup.
    + simpl. split; [discriminate|]. left. now rewrite Hfiles2.
  - simpl. split; [discriminate|]. left. now rewrite Hkept.
  - simpl. split; [discriminate|]. left. now rewrite Hkept.
Qed.

(** The script is the backup of the last of the four files with the rest of
    the script around it. *)
Lemma main_around_smb_conf w :
  main env w =
    around_backup env
      ["/etc/resolv.conf"; "/etc/bind/named.conf.default-zones";
       "/etc/apache2/sites-available/000-default.conf"] "/etc/samba/smb.conf" [] w.
Proof.
  unfold main, provision, around_backup, before_backup, after_backup,
    before_packages, collection, backup_files.
  cbn [for_each]. repeat next_phase.
Qed.

End Backups.

Ltac frame_after_backup :=
  unfold Frame.after_backup; cbn [Sh.for_each]; frame_with any_event_ok not_a_backup.

(** C1 as stated fails: the forward zone file is one of the files the script
    writes; when it exists before the run, the run completes, the file has
    new content, and no file holds the old content any more. *)
Lemma zone_file_overwritten_without_backup :
  In "/etc/bind/smk.db" Frame.rendered_files /\
  Sh.files with_old_zone !! "/etc/bind/smk.db" = Some "old zone" /\
  fst (Sh.main calm with_old_zone) = Sh.Done tt /\
  Sh.files (snd (Sh.main calm with_old_zone)) !! "/etc/bind/smk.db" =
    Some (Sh.smk_db request_A "20261103") /\
  map_Forall (fun _ content => content <> "old zone")
    (Sh.files (snd (Sh.main calm with_old_zone))).
Proof.
  split; [simpl; tauto|].
  split; [vm_compute; reflexivity|].
  split; [vm_compute; reflexivity|].
  split; [vm_compute; reflexivity|].
  apply (bool_decide_unpack (map_Forall _ _)). vm_compute. exact I.
Qed.


(** ** The provisioning script: the rendered files *)

(** C5: for the address 192.168.1.10 and the domain example.com the key of
    the PTR record in the reverse zone file is the last octet, 10, and the
    reverse zone of the zone definitions is named after the first three
    octets in reverse order, 1.168.192.in-addr.arpa. *)
Theorem scenario_A_reverse_zone r serial :
  Sh.user_ip r = "192.168.1.10" -> Sh.user_domain r = "example.com" ->
  Sh.octet (Sh.user_ip r) = "10" /\
  Sh.reversed_ip (Sh.user_ip r) = "1.168.192" /\
  Sh.smk_ip r serial =
    Text.unlines
      ["@       IN      SOA     ns.example.com. root.example.com. (";
       "                        " +:+ serial +:+ "01 ; Serial";
       "                        604800    ; Refresh";
       "                        86400     ; Retry";
       "                        2419200   ; Expire";
       "                        604800 )  ; Negative Cache TTL";
       ";";
       "@       IN      NS      ns.example.com.";
       "10  IN      PTR     ns.example.com."] /\
  Text.contains
    ("zone " +:+ Text.dq +:+ "1.168.192.in-addr.arpa" +:+ Text.dq +:+ " {" +:+ Text.nl)
    (Sh.named_conf_default_zones r) = true.
Proof.
  intros Hip Hdomain. unfold Sh.smk_ip, Sh.named_conf_default_zones.
  rewrite Hip, Hdomain.
  split; [vm_compute; reflexivity|].
  split; [vm_compute; reflexivity|].
  split; [|vm_compute; reflexivity].
  replace (Sh.octet "192.168.1.10") with "10" by (vm_compute; reflexivity).
  reflexivity.
Qed.

Lemma scenario_A_reverse_zone_witness :
  Sh.octet (Sh.user_ip request_A) = "10" /\
  Sh.reversed_ip (Sh.user_ip request_A) = "1.168.192".
Proof.
  destruct (scenario_A_reverse_zone request_A "20261103" eq_refl eq_refl)
    as (Hoctet & Hreversed & _).
  split; [exact Hoctet|exact Hreversed].
Defined.

(** Scenario A from the prompt to the disk, on a host where every program
    succeeds. *)
Lemma scenario_A_end_to_end :
  fst (Frame.collection calm (at_prompt answers_A)) = Sh.Done request_A /\
  fst (Sh.main calm (at_prompt answers_A)) = Sh.Done tt /\
  Sh.files (snd (Sh.main calm (at_prompt answers_A))) !! "/etc/bind/smk.ip" =
    Some (Sh.smk_ip request_A "20261103") /\
  Sh.files (snd (Sh.main calm (at_prompt answers_A)))
    !! "/etc/bind/named.conf.default-zones" =
    Some (Sh.named_conf_default_zones request_A).
Proof.
  split; [vm_compute; reflexivity|].
  split; [vm_compute; reflexivity|].
  split; vm_compute; reflexivity.
Qed.

Section Rendering.
Import Text Sh Frame.

(** Single commands, with the world they lead to left abstract. *)
Lemma write_file_files path content w :
  exists w', write_file path content w = (Done tt, w') /\
             files w' = <[path := content]> (files w).
Proof. eexists. split; reflexivity. Qed.

Lemma run__files env argv w :
  exists w', run_ env argv w = (Done tt, w') /\ files w' = files w.
Proof. eexists. split; reflexivity. Qed.

Lemma append_file_files path text w :
  exists w', append_file path text w = (Done tt, w') /\
             exists content, files w' = <[path := content]> (files w).
Proof. eexists. split; [reflexivity|]. eexists. reflexivity. Qed.

Lemma date_serial_run env w :
  exists n, date env date_serial w = (Done (date_serial (clock env n)), w).
Proof. eexists. reflexivity. Qed.

(** What lines 169-322 leave in the seven files. *)
Lemma configure_renders env r w :
  match configure env r w with
  | (Done _, w') =>
      exists n1 n2,
        files w' !! "/etc/resolv.conf" = Some (resolv_conf r) /\
        files w' !! "/etc/bind/named.conf.default-zones"
          = Some (named_conf_default_zones r) /\
        files w' !! "/etc/bind/smk.db" = Some (smk_db r (date_serial (clock env n1))) /\
        files w' !! "/etc/bind/smk.ip" = Some (smk_ip r (date_serial (clock env n2))) /\
        files w' !! "/etc/apache2/sites-available/000-default.conf"
          = Some (default_site_conf r) /\
        files w' !! "/var/www/index.php" = Some (index_php r) /\
        files w' !! "/etc/samba/smb.conf"
          = Some (smb_conf r (strip_trailing_newlines (hostname env)))
  | _ => False
  end.
Proof.
  unfold configure.
  repeat
    (rewrite ?bind_run;
     lazymatch goal with
     | |- context [write_file ?path ?content ?w0] =>
         let w' := fresh "w" in
         let Hf := fresh "Hfiles" in
         destruct (write_file_files path content w0) as (w' & -> & Hf)
     | |- context [run_ ?e ?argv ?w0] =>
         let w' := fresh "w" in
         let Hf := fresh "Hfiles" in
         destruct (run__files e argv w0) as (w' & -> & Hf)
     | |- context [append_file ?path ?text ?w0] =>
         let w' := fresh "w" in
         let Hf := fresh "Hfiles" in
         let c := fresh "appended" in
         destruct (append_file_files path text w0) as (w' & -> & c & Hf)
     | |- context [date ?e date_serial ?w0] =>
         let n := fresh "n" in
         destruct (date_serial_run e w0) as (n & ->)
     end;
     cbv beta iota).
  exists n, n0.
  repeat match goal with H : files _ = _ |- _ => rewrite H; clear H end.
  repeat split;
    repeat first [rewrite lookup_insert_eq; reflexivity
                 | rewrite lookup_insert_ne by discriminate].
Qed.

End Rendering.

(** C4, as the code has it: for the same answers, two runs of lines 169-322
    on the same calendar day and under the same host name leave the same
    content in every file the script writes, whatever else differs between
    the hosts and the runs. *)
Theorem same_day_same_files env1 env2 r w1 w2 path :
  Frame.same_day env1 env2 ->
  Text.strip_trailing_newlines (Sh.hostname env1) =
    Text.strip_trailing_newlines (Sh.hostname env2) ->
  In path Frame.rendered_files ->
  is_Some (Sh.files (snd (Sh.configure env1 r w1)) !! path) /\
  Sh.files (snd (Sh.configure env1 r w1)) !! path =
    Sh.files (snd (Sh.configure env2 r w2)) !! path.
Proof.
  intros Hday Hhost Hin.
  assert (forall n m, Sh.date_serial (Sh.clock env1 n) = Sh.date_serial (Sh.clock env2 m))
    as Hserial.
  { intros n m. destruct (Hday n m) as (Hy & Hm & Hd).
    unfold Sh.date_serial. now rewrite Hy, Hm, Hd. }
  pose proof (configure_renders env1 r w1) as H1.
  pose proof (configure_renders env2 r w2) as H2.
  remember (Sh.configure env1 r w1) as result1 eqn:E1. clear E1.
  remember (Sh.configure env2 r w2) as result2 eqn:E2. clear E2.
  destruct result1 as [[[]|c1|] w1']; [|destruct H1..].
  destruct result2 as [[[]|c2|] w2']; [|destruct H2..].
  destruct H1 as (n1 & n2 & A1 & A2 & A3 & A4 & A5 & A6 & A7).
  destruct H2 as (m1 & m2 & B1 & B2 & B3 & B4 & B5 & B6 & B7).
  cbn [snd]. unfold Frame.rendered_files in Hin. simpl in Hin.
  destruct Hin as [<-|[<-|[<-|[<-|[<-|[<-|[<-|[]]]]]]]].
  - rewrite A1, B1. eauto.
  - rewrite A2, B2. eauto.
  - rewrite A3, B3, (Hserial n1 m1). eauto.
  - rewrite A4, B4, (Hserial n2 m2). eauto.
  - rewrite A5, B5. eauto.
  - rewrite A6, B6. eauto.
  - rewrite A7, B7, Hhost. eauto.
Qed.

Lemma same_day_same_files_witness :
  Sh.files (snd (Sh.configure calm request_A (at_prompt []))) !! "/etc/bind/smk.db" =
  Sh.files (snd (Sh.configure services_down request_A with_old_zone)) !! "/etc/bind/smk.db".
Proof.
  apply (same_day_same_files calm services_down request_A (at_prompt []) with_old_zone
           "/etc/bind/smk.db").
  - intros n m. repeat split.
  - reflexivity.
  - simpl. tauto.
Defined.

(** C4 as stated fails: the same answers on the same day give another file
    share configuration on a host with another name. *)
Lemma other_host_name_other_share_config :
  Frame.same_day calm renamed /\
  In "/etc/samba/smb.conf" Frame.rendered_files /\
  Sh.files (snd (Sh.configure calm request_A (at_prompt []))) !! "/etc/samba/smb.conf" <>
  Sh.files (snd (Sh.configure renamed request_A (at_prompt []))) !! "/etc/samba/smb.conf".
Proof.
  split; [intros n m; repeat split|].
  split; [simpl; tauto|].
  intros H.
  assert (Text.contains "netbios name = box"
            (default EmptyString
               (Sh.files (snd (Sh.configure calm request_A (at_prompt [])))
                  !! "/etc/samba/smb.conf")) = true) as Hbox
    by (vm_compute; reflexivity).
  rewrite H in Hbox. vm_compute in Hbox. discriminate Hbox.
Qed.

(** ** The contact server *)

Section MailProperties.
Import Text Mail.

(** A request with a falsy field is refused before anything else happens. *)
Lemma handler_falsy env sendMail b :
  truthy (name b) && truthy (email b) && truthy (message b) = false ->
  handler env sendMail b = missing_fields.
Proof.
  intros H. unfold handler.
  destruct (truthy (name b)), (truthy (email b)), (truthy (message b));
    simpl in *; try reflexivity; discriminate.
Qed.

(** Three strings that are not empty always make a message. *)
Lemma mailOptions_strings env n e m :
  exists options,
    mailOptions env {| name := Str n; email := Str e; message := Str m |} = Some options.
Proof. unfold mailOptions; simpl; eauto. Qed.

Lemma handler_strings env sendMail n e m options :
  is_empty n = false -> is_empty e = false -> is_empty m = false ->
  mailOptions env {| name := Str n; email := Str e; message := Str m |} = Some options ->
  handler env sendMail {| name := Str n; email := Str e; message := Str m |} =
    if sendMail options
    then (Responded {| status := 200; json := SuccessJson true |}, [SendMail options])
    else (Responded {| status := 500; json := ErrorJson "Failed to send email" |},
          [SendMail options; ConsoleError]).
Proof.
  intros Hn He Hm Ho. unfold handler. simpl truthy.
  rewrite Hn, He, Hm. simpl. unfold mailOptions in *. simpl in *.
  injection Ho as <-. reflexivity.
Qed.

End MailProperties.

(** C6, as the code has it: a request whose parsed body has one of name,
    email, message absent or falsy (null, false, 0, the empty string) is
    answered 400 [{error: "Missing fields"}] and the transport is not used;
    when the three are strings that are not empty, the transport is asked
    exactly once, and the answer is 200 [{success: true}] if it succeeds and
    500 [{error: "Failed to send email"}] if it fails; and a request that
    leaves [req.body] undefined makes the handler throw at line 23, before
    the guard, so that it answers nothing itself and sends nothing. *)
Theorem send_email_responses :
  (forall env sendMail b,
      Mail.truthy (Mail.name b) && Mail.truthy (Mail.email b) &&
        Mail.truthy (Mail.message b) = false ->
      Mail.send_email env sendMail (Mail.Parsed b) =
        (Mail.Responded {| Mail.status := 400; Mail.json := Mail.ErrorJson "Missing fields" |}, []))
  /\
  (forall env sendMail n e m,
      Text.is_empty n = false -> Text.is_empty e = false -> Text.is_empty m = false ->
      exists options,
        Mail.mailOptions env
          {| Mail.name := Mail.Str n; Mail.email := Mail.Str e; Mail.message := Mail.Str m |}
          = Some options /\
        (sendMail options = true ->
         Mail.send_email env sendMail
           (Mail.Parsed
              {| Mail.name := Mail.Str n; Mail.email := Mail.Str e;
                 Mail.message := Mail.Str m |})
           = (Mail.Responded {| Mail.status := 200; Mail.json := Mail.SuccessJson true |},
              [Mail.SendMail options])) /\
        (sendMail options = false ->
         Mail.send_email env sendMail
           (Mail.Parsed
              {| Mail.name := Mail.Str n; Mail.email := Mail.Str e;
                 Mail.message := Mail.Str m |})
           = (Mail.Responded
                {| Mail.status := 500; Mail.json := Mail.ErrorJson "Failed to send email" |},
              [Mail.SendMail options; Mail.ConsoleError]) /\
         Mail.sends
           (snd (Mail.send_email env sendMail
              (Mail.Parsed
                 {| Mail.name := Mail.Str n; Mail.email := Mail.Str e;
                    Mail.message := Mail.Str m |})))
           = 1))
  /\
  (forall env sendMail,
      Mail.send_email env sendMail Mail.Undefined = (Mail.Thrown, [])).
Proof.
  split; [|split].
  - intros env sendMail b H. cbn [Mail.send_email]. now apply handler_falsy.
  - intros env sendMail n e m Hn He Hm. cbn [Mail.send_email].
    destruct (mailOptions_strings env n e m) as [options Ho].
    exists options. split; [exact Ho|].
    pose proof (handler_strings env sendMail n e m options Hn He Hm Ho) as H.
    split; intros Hs; rewrite Hs in H; rewrite H; auto.
  - reflexivity.
Qed.

Lemma send_email_responses_witness :
  Mail.send_email mail_env (fun _ => true) (Mail.Parsed body_without_message) =
    (Mail.Responded {| Mail.status := 400; Mail.json := Mail.ErrorJson "Missing fields" |}, [])
  /\ fst (Mail.send_email mail_env (fun _ => true) (Mail.Parsed body_scenario_B)) =
       Mail.Responded {| Mail.status := 200; Mail.json := Mail.SuccessJson true |}
  /\ fst (Mail.send_email mail_env (fun _ => false) (Mail.Parsed body_scenario_B)) =
       Mail.Responded {| Mail.status := 500; Mail.json := Mail.ErrorJson "Failed to send email" |}.
Proof.
  destruct send_email_responses as (Hmissing & Hstrings & _).
  split; [apply Hmissing; reflexivity|].
  split.
  - destruct (Hstrings mail_env (fun _ => true) "A" "a@b.com" "hi"
                eq_refl eq_refl eq_refl) as (options & _ & Hok & _).
    unfold body_scenario_B. rewrite (Hok eq_refl). reflexivity.
  - destruct (Hstrings mail_env (fun _ => false) "A" "a@b.com" "hi"
                eq_refl eq_refl eq_refl) as (options & _ & _ & Hfail).
    unfold body_scenario_B. destruct (Hfail eq_refl) as [-> _]. reflexivity.
Defined.

(** C6 as stated fails: with name present as the empty string, email and
    message present and a transport that would succeed, the answer is 400 and
    not 200. *)
Lemma present_but_empty_name_is_refused :
  Mail.name body_empty_name <> Mail.Absent /\
  Mail.email body_empty_name <> Mail.Absent /\
  Mail.message body_empty_name <> Mail.Absent /\
  Mail.handler mail_env (fun _ => true) body_empty_name =
    (Mail.Responded {| Mail.status := 400; Mail.json := Mail.ErrorJson "Missing fields" |}, [])
  /\ fst (Mail.handler mail_env (fun _ => true) body_empty_name) <>
       Mail.Responded {| Mail.status := 200; Mail.json := Mail.SuccessJson true |}.
Proof. repeat split; discriminate. Qed.

(** C9: when name, email and message are all present as strings and at least
    one of them is the empty string, the answer is 400
    [{error: "Missing fields"}] and the transport is not used. *)
Theorem empty_string_field_is_missing env sendMail (n e m : string) :
  n = EmptyString \/ e = EmptyString \/ m = EmptyString ->
  Mail.handler env sendMail
    {| Mail.name := Mail.Str n; Mail.email := Mail.Str e; Mail.message := Mail.Str m |}
    = (Mail.Responded {| Mail.status := 400; Mail.json := Mail.ErrorJson "Missing fields" |}, [])
  /\ Mail.sends (snd (Mail.handler env sendMail
       {| Mail.name := Mail.Str n; Mail.email := Mail.Str e; Mail.message := Mail.Str m |})) = 0.
Proof.
  intros H.
  assert (Mail.handler env sendMail
            {| Mail.name := Mail.Str n; Mail.email := Mail.Str e; Mail.message := Mail.Str m |}
          = Mail.missing_fields) as ->.
  { apply handler_falsy. simpl.
    destruct H as [-> | [-> | ->]]; simpl;
      rewrite ?andb_false_r; reflexivity. }
  split; reflexivity.
Qed.

Lemma empty_string_field_is_missing_witness :
  Mail.handler mail_env (fun _ => true) body_empty_name =
    (Mail.Responded {| Mail.status := 400; Mail.json := Mail.ErrorJson "Missing fields" |}, []).
Proof.
  apply (empty_string_field_is_missing mail_env (fun _ => true) EmptyString "a@b.com" "hi").
  left; reflexivity.
Defined.

(** ** The contact server: further properties *)

Section MailFurther.
Import Text Mail.

Lemma or_else_default a :
  exists address,
    or_else a (Some default_recipient) = Some address /\ is_empty address = false.
Proof.
  destruct a as [s|]; simpl.
  - destruct (is_empty s) eqn:Hs; eauto.
  - eauto.
Qed.

(** Whatever is sent was built from the body by [mailOptions]. *)
Lemma handler_sent env sendMail b options :
  In (SendMail options) (snd (handler env sendMail b)) ->
  mailOptions env b = Some options.
Proof.
  unfold handler.
  destruct (negb (truthy (name b)) || negb (truthy (email b)) || negb (truthy (message b)));
    [intros []|].
  destruct (mailOptions env b) as [o|]; [|intros []].
  destruct (sendMail o); simpl; intros [H|H]; try (now injection H as ->);
    try contradiction.
  destruct H as [H|[]]. discriminate H.
Qed.

Lemma has_char_append c a b : has_char c (a +:+ b) = has_char c a || has_char c b.
Proof.
  induction a as [|d a IH]; simpl; [reflexivity|].
  destruct (Ascii.eqb c d); [reflexivity|exact IH].
Qed.

Lemma has_char_cons c d r :
  has_char c (String d r) = if Ascii.eqb c d then true else has_char c r.
Proof. reflexivity. Qed.

End MailFurther.

(** X1: the handler asks the transport at most once per request, and only
    when it goes on to answer 200 or 500: an answer of 400 and a handler that
    throws have sent nothing, an answer of 200 comes after exactly one send
    that succeeded, an answer of 500 after exactly one send that failed and
    one line on the error console. *)
Theorem handler_outcomes env sendMail b :
  Mail.sends (snd (Mail.handler env sendMail b)) <= 1 /\
  ((fst (Mail.handler env sendMail b) =
      Mail.Responded {| Mail.status := 400; Mail.json := Mail.ErrorJson "Missing fields" |} /\
    snd (Mail.handler env sendMail b) = []) \/
   (fst (Mail.handler env sendMail b) = Mail.Thrown /\
    snd (Mail.handler env sendMail b) = []) \/
   (exists options,
      fst (Mail.handler env sendMail b) =
        Mail.Responded {| Mail.status := 200; Mail.json := Mail.SuccessJson true |} /\
      snd (Mail.handler env sendMail b) = [Mail.SendMail options] /\
      sendMail options = true) \/
   (exists options,
      fst (Mail.handler env sendMail b) =
        Mail.Responded
          {| Mail.status := 500; Mail.json := Mail.ErrorJson "Failed to send email" |} /\
      snd (Mail.handler env sendMail b) = [Mail.SendMail options; Mail.ConsoleError] /\
      sendMail options = false)).
Proof.
  unfold Mail.handler.
  destruct (negb (Mail.truthy (Mail.name b)) || negb (Mail.truthy (Mail.email b)) ||
            negb (Mail.truthy (Mail.message b))).
  { split; [unfold Mail.sends; simpl; lia|]. left. auto. }
  destruct (Mail.mailOptions env b) as [options|].
  - destruct (sendMail options) eqn:Hsend; (split; [unfold Mail.sends; simpl; lia|]).
    + right; right; left. exists options. auto.
    + right; right; right. exists options. auto.
  - split; [unfold Mail.sends; simpl; lia|]. right; left. auto.
Qed.

(** X2: the addresses of a message never come from the request: whatever the
    body, a message handed to the transport goes to [TO_EMAIL], or to the
    address written in the source when that variable is unset or empty, and
    so always has a recipient; its sender is [FROM_EMAIL] or else
    [SMTP_USER]. *)
Theorem addresses_come_from_the_environment env sendMail b options :
  In (Mail.SendMail options) (snd (Mail.handler env sendMail b)) ->
  Mail.to options = Mail.or_else (Mail.TO_EMAIL env) (Some Mail.default_recipient) /\
  (exists address, Mail.to options = Some address /\ Text.is_empty address = false) /\
  Mail.from options = Mail.or_else (Mail.FROM_EMAIL env) (Mail.SMTP_USER env).
Proof.
  intros Hsent. apply handler_sent in Hsent.
  unfold Mail.mailOptions in Hsent.
  destruct (Mail.interpolate (Mail.name b)) as [n|]; [|discriminate].
  destruct (Mail.interpolate (Mail.email b)) as [e|]; [|discriminate].
  destruct (Mail.message b) as [|m|]; try discriminate.
  injection Hsent as <-. simpl.
  split; [reflexivity|]. split; [apply or_else_default|reflexivity].
Qed.

Lemma addresses_come_from_the_environment_witness :
  exists options,
    snd (Mail.handler mail_env_with_recipient (fun _ => true) body_scenario_B) =
      [Mail.SendMail options] /\
    Mail.to options = Some "owner@example.com" /\
    Mail.from options = Some "site@example.com".
Proof.
  eexists. split; [reflexivity|].
  destruct (addresses_come_from_the_environment mail_env_with_recipient (fun _ => true)
              body_scenario_B _ (or_introl eq_refl)) as (Hto & _ & Hfrom).
  split; [exact Hto|exact Hfrom].
Defined.

(** X3: when name and email are truthy and message is a truthy value that is
    not a string (a number, [true], an array, an object), the handler throws
    while it builds the message: it sends nothing and gives no answer of its
    own. *)
Theorem message_that_is_no_string_throws env sendMail n e text :
  Mail.truthy n = true -> Mail.truthy e = true ->
  Mail.handler env sendMail
    {| Mail.name := n; Mail.email := e; Mail.message := Mail.Other true text |}
  = (Mail.Thrown, []).
Proof.
  intros Hn He. unfold Mail.handler, Mail.mailOptions. simpl. rewrite Hn, He. simpl.
  destruct (Mail.interpolate n); [destruct (Mail.interpolate e)|]; reflexivity.
Qed.

Lemma message_that_is_no_string_throws_witness :
  Mail.handler mail_env (fun _ => true) body_numeric_message = (Mail.Thrown, []).
Proof.
  apply (message_that_is_no_string_throws mail_env (fun _ => true)
           (Mail.Str "A") (Mail.Str "a@b.com") (Some "5")); reflexivity.
Defined.

(** X4: what line 31 puts into the HTML body for the message has no line
    feed left in it, and is the message itself when that has none. *)
Theorem replace_newlines_leaves_no_line_feed m :
  Text.has_char Text.nl_char (Mail.replace_newlines m) = false /\
  (Text.has_char Text.nl_char m = false -> Mail.replace_newlines m = m).
Proof.
  split.
  - induction m as [|c m IH]; [reflexivity|]. cbn [Mail.replace_newlines].
    destruct (Ascii.eqb c Text.nl_char) eqn:Hc.
    + rewrite has_char_append, IH. reflexivity.
    + rewrite has_char_cons, Ascii.eqb_sym, Hc. exact IH.
  - induction m as [|c m IH]; [reflexivity|].
    rewrite has_char_cons, (Ascii.eqb_sym Text.nl_char c). cbn [Mail.replace_newlines].
    destruct (Ascii.eqb c Text.nl_char); [discriminate|].
    intros H. now rewrite IH.
Qed.

Lemma replace_newlines_leaves_no_line_feed_witness :
  Mail.replace_newlines "one line" = "one line".
Proof.
  apply (replace_newlines_leaves_no_line_feed "one line"). reflexivity.
Defined.

(** ** The provisioning script: further properties of the address *)

Section AddressFurther.
Import Text Sh Quad.

Lemma group_ok_iff g :
  group_ok g = true <-> (decimal g <= 255)%Z /\ bad_octal g = false.
Proof.
  unfold group_ok. rewrite andb_true_iff, negb_true_iff, Z.leb_le. tauto.
Qed.

(** A separator is not found inside a run of other characters. *)
Lemma pieces_run sep s r cur :
  all_chars (fun c => negb (Ascii.eqb c sep)) s = true ->
  pieces sep (s +:+ r) cur = pieces sep r (cur +:+ s).
Proof.
  revert cur. induction s as [|c s IH]; intros cur H; simpl in *.
  - now rewrite append_empty_r.
  - apply andb_true_iff in H as [Hc Hs]. apply negb_true_iff in Hc.
    rewrite Hc, IH by assumption. unfold snoc. now rewrite append_assoc.
Qed.

(** A line without line feed, once echoed, is one record for awk. *)
Lemma awk_records_line s :
  all_chars not_newline s = true -> awk_records (s +:+ nl) = [s].
Proof.
  intros H. unfold awk_records.
  rewrite (pieces_run nl_char s nl EmptyString) by exact H.
  reflexivity.
Qed.

Lemma pieces_quad a b c d :
  is_group a = true -> is_group b = true -> is_group c = true -> is_group d = true ->
  pieces dot (quad a b c d) EmptyString = [a; b; c; d].
Proof.
  intros Ha Hb Hc Hd. unfold quad.
  rewrite (pieces_digits a) by now apply is_group_digits. simpl.
  rewrite (pieces_digits b) by now apply is_group_digits. simpl.
  rewrite (pieces_digits c) by now apply is_group_digits. simpl.
  now rewrite (pieces_digits_end d) by now apply is_group_digits.
Qed.

Lemma group_no_line_feed g : is_group g = true -> all_chars not_newline g = true.
Proof.
  intros H. apply is_group_digits in H. revert H. apply all_chars_impl.
  intros c Hc. apply digit_or_dot_not_newline. now rewrite Hc.
Qed.

Lemma quad_no_line_feed a b c d :
  is_group a = true -> is_group b = true -> is_group c = true -> is_group d = true ->
  all_chars not_newline (quad a b c d) = true.
Proof.
  intros Ha Hb Hc Hd. unfold quad. rewrite !all_chars_append. simpl.
  now rewrite !group_no_line_feed by assumption.
Qed.

Lemma echo_quad a b c d :
  is_group a = true -> echo (quad a b c d) = quad a b c d +:+ nl.
Proof.
  intros Ha. destruct a as [|c1 a']; [discriminate|].
  apply is_group_digits in Ha. simpl in Ha. apply andb_true_iff in Ha as [Hc1 _].
  unfold quad. simpl. now apply echo_digit_first.
Qed.

End AddressFurther.

(** X5: [validate_ip] accepts exactly the strings made of four groups of one
    to three digits with dots between them, in which every group is at most
    255 read in base ten and none starts with 0 while containing an 8 or a
    9.  So a group with leading zeros is accepted as long as bash can read
    it in base eight ([010], [077]), and every other string is rejected. *)
Theorem validate_ip_accepts_exactly s :
  Sh.validate_ip s = true <->
  exists a b c d,
    s = Quad.quad a b c d /\
    Forall (fun g => Quad.is_group g = true /\ (Quad.decimal g <= 255)%Z /\
                     Quad.bad_octal g = false) [a; b; c; d].
Proof.
  rewrite validate_ip_iff. split.
  - intros (a & b & c & d & -> & Ha & Hb & Hc & Hd & H1 & H2 & H3 & H4).
    exists a, b, c, d. split; [reflexivity|].
    apply group_ok_iff in H1, H2, H3, H4.
    repeat (constructor; [tauto|]). constructor.
  - intros (a & b & c & d & -> & H).
    inversion_clear H as [|? ? (Ha & Ha') H0].
    inversion_clear H0 as [|? ? (Hb & Hb') H].
    inversion_clear H as [|? ? (Hc & Hc') H0].
    inversion_clear H0 as [|? ? (Hd & Hd') _].
    apply group_ok_iff in Ha', Hb', Hc', Hd'.
    exists a, b, c, d. tauto.
Qed.

(** X6: an address written the usual way, as four numbers up to 255 without
    leading zeros, is accepted; four groups of digits of which one is above
    255 are rejected. *)
Theorem usual_addresses :
  (forall a b c d,
      a <= 255 -> b <= 255 -> c <= 255 -> d <= 255 ->
      Sh.validate_ip
        (Quad.quad (Text.of_nat a) (Text.of_nat b) (Text.of_nat c) (Text.of_nat d)) = true)
  /\
  (forall a b c d,
      Quad.is_group a = true -> Quad.is_group b = true ->
      Quad.is_group c = true -> Quad.is_group d = true ->
      (255 < Quad.decimal a \/ 255 < Quad.decimal b \/
       255 < Quad.decimal c \/ 255 < Quad.decimal d)%Z ->
      Sh.validate_ip (Quad.quad a b c d) = false).
Proof.
  split.
  - intros a b c d Ha Hb Hc Hd. now apply validate_ip_canonical.
  - intros a b c d Ha Hb Hc Hd H. now apply validate_ip_above_255.
Qed.

Lemma usual_addresses_witness :
  Sh.validate_ip
    (Quad.quad (Text.of_nat 10) (Text.of_nat 0) (Text.of_nat 0) (Text.of_nat 255)) = true /\
  Sh.validate_ip (Quad.quad "10" "0" "0" "256") = false.
Proof.
  destruct usual_addresses as [Haccept Hreject].
  split.
  - apply Haccept; lia.
  - apply Hreject; try reflexivity. right; right; right. reflexivity.
Defined.

(** X7: for every address of four groups of digits, and so for every address
    that passes [validate_ip], line 177 gives the first three groups in
    reverse order and line 235 the fourth group. *)
Theorem reverse_zone_of_address a b c d :
  Quad.is_group a = true -> Quad.is_group b = true ->
  Quad.is_group c = true -> Quad.is_group d = true ->
  Sh.reversed_ip (Quad.quad a b c d) = c +:+ "." +:+ b +:+ "." +:+ a /\
  Sh.octet (Quad.quad a b c d) = d.
Proof.
  intros Ha Hb Hc Hd.
  unfold Sh.reversed_ip, Sh.octet, Sh.awk_print, Sh.awk_field.
  rewrite echo_quad by assumption.
  rewrite awk_records_line by now apply quad_no_line_feed.
  cbn [map Text.concat_all fold_right]. rewrite !append_empty_r.
  rewrite pieces_quad by assumption. cbn [nth Nat.sub].
  split.
  - apply strip_line. rewrite !all_chars_append. simpl.
    now rewrite !group_no_line_feed by assumption.
  - apply strip_line. now apply group_no_line_feed.
Qed.

Lemma reverse_zone_of_address_witness :
  Sh.reversed_ip (Quad.quad "10" "20" "30" "40") = "30.20.10" /\
  Sh.octet (Quad.quad "10" "20" "30" "40") = "40".
Proof.
  apply (reverse_zone_of_address "10" "20" "30" "40"); reflexivity.
Defined.

(** ** The provisioning script: further properties of the prompts *)

Section PromptsFurther.
Import Text Sh Frame More.
Variable env : Env.

(** What [get_input] returns starts with what it had written before. *)
Lemma get_input_loop_prefix prompt default vf lines out w res w' :
  get_input_loop env prompt default vf lines out w = (Done res, w') ->
  exists suffix, res = out +:+ suffix.
Proof.
  revert out w. induction lines as [|line rest IH]; intros out w H; [discriminate|].
  simpl in H. destruct vf as [valid|].
  - destruct (valid _).
    + injection H as <- _. eauto.
    + apply IH in H as [suffix ->]. rewrite !append_assoc. eauto.
  - injection H as <- _. eauto.
Qed.

(** [echo] on an argument it does not take for options. *)
Lemma echo_plain arg : is_echo_option arg = false -> echo arg = arg +:+ nl.
Proof.
  destruct arg as [|a [|c r]]; try reflexivity;
    destruct a as [[] [] [] [] [] [] [] []]; try reflexivity.
  cbv beta iota delta [is_echo_option echo]. now intros ->.
Qed.

Lemma echo_option arg :
  is_echo_option arg = true -> strip_trailing_newlines (echo arg) = EmptyString.
Proof.
  destruct arg as [|a [|c r]]; try discriminate;
    destruct a as [[] [] [] [] [] [] [] []]; try discriminate.
  cbv beta iota delta [is_echo_option echo]. intros ->.
  now destruct (has_char "n" (String c r)).
Qed.

(** A prompt without check, once answered. *)
Lemma unchecked_answer prompt w v w1 :
  command_subst (get_input env prompt EmptyString None) w = (Done v, w1) ->
  exists line,
    tty w = line :: tty w1 /\
    v = strip_trailing_newlines (echo line) /\
    trace w1 = (trace w ++ [EvRead prompt line])%list /\
    files w1 = files w.
Proof.
  unfold command_subst. rewrite fmap_run. unfold get_input.
  destruct (tty w) as [|line rest] eqn:Htty; [discriminate|].
  rewrite get_input_loop_accepted by exact I.
  intros H. injection H as <- <-. exists line. auto.
Qed.

(** The six calls of lines 103-109, one after the other. *)
Lemma collect_input_steps w r w' :
  collect_input env w = (Done r, w') ->
  exists w1 w2 w3 w4 w5,
    command_subst
      (get_input env "Enter IP address (e.g., 192.168.1.1): " EmptyString
         (Some validate_ip)) w = (Done (user_ip r), w1) /\
    command_subst
      (get_input env "Enter domain name (e.g., example.com): " EmptyString None) w1
      = (Done (user_domain r), w2) /\
    command_subst (get_input env "Enter password for MySQL root: " EmptyString None) w2
      = (Done (mysql_root_password r), w3) /\
    command_subst (get_input env "Enter password for phpMyAdmin: " EmptyString None) w3
      = (Done (phpmyadmin_password r), w4) /\
    command_subst
      (get_input env "Enter username for Samba (e.g., smbuser): " EmptyString None) w4
      = (Done (samba_username r), w5) /\
    command_subst (get_input env "Enter password for Samba: " EmptyString None) w5
      = (Done (samba_password r), w').
Proof.
  unfold collect_input. intros H.
  rewrite bind_run in H.
  destruct (command_subst (get_input env "Enter IP address (e.g., 192.168.1.1): " _ _) w)
    as [[ip|c|] w1] eqn:E1; try discriminate.
  rewrite bind_run in H.
  destruct (command_subst (get_input env "Enter domain name (e.g., example.com): " _ _) w1)
    as [[domain|c|] w2] eqn:E2; try discriminate.
  rewrite bind_run in H.
  destruct (command_subst (get_input env "Enter password for MySQL root: " _ _) w2)
    as [[mysql|c|] w3] eqn:E3; try discriminate.
  rewrite bind_run in H.
  destruct (command_subst (get_input env "Enter password for phpMyAdmin: " _ _) w3)
    as [[pma|c|] w4] eqn:E4; try discriminate.
  rewrite bind_run in H.
  destruct (command_subst
              (get_input env "Enter username for Samba (e.g., smbuser): " _ _) w4)
    as [[smbuser|c|] w5] eqn:E5; try discriminate.
  rewrite bind_run in H.
  destruct (command_subst (get_input env "Enter password for Samba: " _ _) w5)
    as [[smbpass|c|] w6] eqn:E6; try discriminate.
  rewrite ret_run in H. injection H as <- <-.
  exists w1, w2, w3, w4, w5. cbn [user_ip user_domain mysql_root_password
    phpmyadmin_password samba_username samba_password].
  rewrite E2, E3, E4, E5, E6. repeat (split; [reflexivity|]). reflexivity.
Qed.

Lemma strip_keeps_first c r :
  Ascii.eqb c nl_char = false ->
  exists r', strip_trailing_newlines (String c r) = String c r'.
Proof. intros H. simpl. rewrite H. simpl. eauto. Qed.

(** A string that does not start with a digit is no address. *)
Lemma validate_ip_first_digit c r : is_digit c = false -> validate_ip (String c r) = false.
Proof.
  intros H. apply validate_ip_malformed. unfold ip_pattern, digits_1_3. now rewrite H.
Qed.

End PromptsFurther.

(** X8: whenever the first address the operator types fails the check and the
    answers are collected all the same, the address kept in the record
    starts with the message of line 57 and is not an address that passes
    [validate_ip], whatever the operator typed afterwards. *)
Theorem rejected_answer_spoils_the_address env w bad rest r w' :
  Sh.tty w = bad :: rest ->
  Sh.validate_ip bad = false ->
  Sh.collect_input env w = (Sh.Done r, w') ->
  (exists stamp suffix,
     Sh.user_ip r =
       Text.strip_trailing_newlines
         (Sh.log_text stamp "Invalid input, please try again" +:+ Text.nl +:+ suffix)) /\
  Sh.validate_ip (Sh.user_ip r) = false.
Proof.
  intros Htty Hbad Hdone.
  apply collect_input_steps in Hdone as (w1 & _ & _ & _ & _ & Hip & _).
  unfold Sh.command_subst in Hip. rewrite fmap_run in Hip.
  unfold Sh.get_input in Hip. rewrite Htty in Hip.
  rewrite get_input_loop_rejected in Hip by exact Hbad. cbv zeta in Hip.
  match type of Hip with
  | context [Sh.get_input_loop ?e ?p ?d ?v ?l ?o ?w0] =>
      destruct (Sh.get_input_loop e p d v l o w0) as [[res|c|] w2] eqn:Hloop;
      try discriminate
  end.
  apply get_input_loop_prefix in Hloop as [suffix ->].
  injection Hip as Hip _. rewrite <- Hip. clear Hip.
  set (stamp := Sh.now env _).
  assert (Text.strip_trailing_newlines
            (((EmptyString +:+ Sh.log_text stamp "Invalid input, please try again")
                +:+ Text.nl) +:+ suffix)
          = Text.strip_trailing_newlines
              (Sh.log_text stamp "Invalid input, please try again" +:+ Text.nl +:+ suffix))
    as Hshape.
  { f_equal. cbn [String.append]. now rewrite !append_assoc. }
  split.
  - exists stamp, suffix. exact Hshape.
  - change (Sh.validate_ip
              (Text.strip_trailing_newlines
                 (((EmptyString +:+ Sh.log_text stamp "Invalid input, please try again")
                     +:+ Text.nl) +:+ suffix)) = false).
    unfold Sh.log_text. cbn [String.append].
    match goal with
    | |- context [Text.strip_trailing_newlines (String ?c ?r)] =>
        destruct (strip_keeps_first c r eq_refl) as [r' ->]
    end.
    now apply validate_ip_first_digit.
Qed.

Lemma rejected_answer_spoils_the_address_witness :
  Sh.validate_ip (Sh.user_ip spoiled_request) = false.
Proof.
  assert (Sh.collect_input calm (at_prompt ("999.1.1.1" :: answers_A)) =
          (Sh.Done spoiled_request,
           snd (Sh.collect_input calm (at_prompt ("999.1.1.1" :: answers_A))))) as H
    by (vm_compute; reflexivity).
  apply (rejected_answer_spoils_the_address calm
           (at_prompt ("999.1.1.1" :: answers_A)) "999.1.1.1" answers_A _ _
           eq_refl eq_refl H).
Defined.

(** X9: an answer that [echo] takes for options, a dash followed by letters
    among n, e and E, is lost: at a prompt without check the script keeps
    the empty string in its place. *)
Theorem option_like_answer_is_lost env prompt line rest fs tr :
  More.is_echo_option line = true ->
  Sh.command_subst (Sh.get_input env prompt EmptyString None)
    {| Sh.files := fs; Sh.tty := line :: rest; Sh.trace := tr |} =
  (Sh.Done EmptyString,
   {| Sh.files := fs; Sh.tty := rest; Sh.trace := tr ++ [Sh.EvRead prompt line] |}).
Proof.
  intros H. unfold Sh.command_subst. rewrite fmap_run. unfold Sh.get_input.
  cbn [Sh.tty]. rewrite get_input_loop_accepted by exact I.
  cbn [String.append]. now rewrite echo_option.
Qed.

Lemma option_like_answer_is_lost_witness :
  fst (Sh.command_subst (Sh.get_input calm "Enter password for Samba: " EmptyString None)
         (at_prompt ["-n"])) = Sh.Done EmptyString.
Proof.
  unfold at_prompt.
  rewrite (option_like_answer_is_lost calm "Enter password for Samba: " "-n" [] ∅ []).
  - reflexivity.
  - reflexivity.
Defined.

(** X10: every other value that [read] has assigned to the variable and
    that has no line feed in it comes back from a prompt without check
    unchanged, after a single read: [echo] and the command substitution add
    nothing to it and drop nothing from it.  (What [read] itself makes of
    the keys typed is not part of this.) *)
Theorem plain_answer_is_kept env prompt line rest fs tr :
  More.is_echo_option line = false ->
  Text.all_chars Text.not_newline line = true ->
  Sh.command_subst (Sh.get_input env prompt EmptyString None)
    {| Sh.files := fs; Sh.tty := line :: rest; Sh.trace := tr |} =
  (Sh.Done line,
   {| Sh.files := fs; Sh.tty := rest; Sh.trace := tr ++ [Sh.EvRead prompt line] |}).
Proof.
  intros Hplain Hline. unfold Sh.command_subst. rewrite fmap_run. unfold Sh.get_input.
  cbn [Sh.tty]. rewrite get_input_loop_accepted by exact I.
  cbn [String.append]. now rewrite echo_plain, strip_line.
Qed.

Lemma plain_answer_is_kept_witness :
  fst (Sh.command_subst (Sh.get_input calm "Enter password for Samba: " EmptyString None)
         (at_prompt ["s3cret -x"])) = Sh.Done "s3cret -x".
Proof.
  unfold at_prompt.
  rewrite (plain_answer_is_kept calm "Enter password for Samba: " "s3cret -x" [] ∅ []).
  - reflexivity.
  - reflexivity.
  - reflexivity.
Defined.

(** X11: a default given to [get_input] matters for empty lines only: lines
    that are not empty are handled as if there were no default; an empty
    line stands for the default, which is returned when it passes the check
    or there is none, and rejected like any other answer when it fails. *)
Theorem default_stands_for_empty_lines env prompt default vf :
  (forall lines out w,
      Forall (fun l => Text.is_empty l = false) lines ->
      Sh.get_input_loop env prompt default vf lines out w =
        Sh.get_input_loop env prompt EmptyString vf lines out w)
  /\
  (forall rest out w,
      Text.is_empty default = false ->
      match vf with Some valid => valid default = true | None => True end ->
      Sh.get_input_loop env prompt default vf (EmptyString :: rest) out w =
        (Sh.Done (out +:+ Sh.echo default),
         Sh.traced (Sh.EvRead prompt EmptyString)
           {| Sh.files := Sh.files w; Sh.tty := rest; Sh.trace := Sh.trace w |}))
  /\
  (forall valid rest out w,
      vf = Some valid ->
      Text.is_empty default = false -> valid default = false ->
      exists stamp,
        Sh.get_input_loop env prompt default vf (EmptyString :: rest) out w =
          Sh.get_input_loop env prompt default vf rest
            (out +:+ Sh.log_text stamp "Invalid input, please try again" +:+ Text.nl)
            (Sh.traced (Sh.EvRead prompt EmptyString)
               {| Sh.files := Sh.files w; Sh.tty := rest; Sh.trace := Sh.trace w |})).
Proof.
  split; [|split].
  - intros lines. induction lines as [|line rest IH]; intros out w H; [reflexivity|].
    inversion_clear H as [|? ? Hline Hrest]. simpl. rewrite Hline. simpl.
    destruct vf as [valid|]; [|reflexivity].
    destruct (valid line); [reflexivity|]. now apply IH.
  - intros rest out w Hd Hv. simpl. rewrite Hd. simpl.
    destruct vf as [valid|]; [now rewrite Hv|reflexivity].
  - intros valid rest out w -> Hd Hv. simpl. rewrite Hd. simpl. rewrite Hv.
    eexists. reflexivity.
Qed.

Lemma default_stands_for_empty_lines_witness :
  fst (Sh.get_input calm "Address: " "10.0.0.1" (Some Sh.validate_ip)
         (at_prompt [EmptyString])) = Sh.Done ("10.0.0.1" +:+ Text.nl) /\
  Sh.get_input calm "Address: " "10.0.0.1" (Some Sh.validate_ip) (at_prompt ["10.0.0.2"]) =
    Sh.get_input calm "Address: " EmptyString (Some Sh.validate_ip) (at_prompt ["10.0.0.2"]).
Proof.
  destruct (default_stands_for_empty_lines calm "Address: " "10.0.0.1"
              (Some Sh.validate_ip)) as (Hother & Hempty & _).
  split.
  - unfold Sh.get_input, at_prompt. cbn [Sh.tty].
    rewrite Hempty; reflexivity.
  - unfold Sh.get_input, at_prompt. cbn [Sh.tty].
    apply Hother. constructor; [reflexivity|constructor].
Defined.

Section CollectorFurther.
Import Text Sh Frame More.
Variable env : Env.

Lemma collect_input_framed : framed any_event every_path (collect_input env).
Proof. frame_with any_event_ok fail. Qed.

End CollectorFurther.

(** X12: when the answers have been collected, the operator's lines were
    used up in this way: some addresses that failed the check, one that
    passed, and one line for each of the other five prompts, each asked
    once and in the order of the script; the five other fields are what
    [echo] and the command substitution make of their lines, the address is
    the line that passed when none was rejected, and no file has changed. *)
Theorem collected_answers env w r w' :
  Sh.collect_input env w = (Sh.Done r, w') ->
  exists rejected accepted d m p u s,
    Sh.tty w = (rejected ++ accepted :: d :: m :: p :: u :: s :: Sh.tty w')%list /\
    Forall (fun l => Sh.validate_ip l = false) rejected /\
    Sh.validate_ip accepted = true /\
    Sh.trace w' =
      (Sh.trace w ++ map (Sh.EvRead More.prompt_ip) (rejected ++ [accepted]) ++
       [Sh.EvRead More.prompt_domain d; Sh.EvRead More.prompt_mysql m;
        Sh.EvRead More.prompt_phpmyadmin p; Sh.EvRead More.prompt_samba_user u;
        Sh.EvRead More.prompt_samba_password s])%list /\
    Sh.user_domain r = Text.strip_trailing_newlines (Sh.echo d) /\
    Sh.mysql_root_password r = Text.strip_trailing_newlines (Sh.echo m) /\
    Sh.phpmyadmin_password r = Text.strip_trailing_newlines (Sh.echo p) /\
    Sh.samba_username r = Text.strip_trailing_newlines (Sh.echo u) /\
    Sh.samba_password r = Text.strip_trailing_newlines (Sh.echo s) /\
    (rejected = [] -> Sh.user_ip r = accepted) /\
    Sh.files w' = Sh.files w.
Proof.
  intros Hdone.
  assert (Sh.files w' = Sh.files w) as Hfiles.
  { destruct (collect_input_framed env w) as [[_ Hkept] _]. rewrite Hdone in Hkept.
    apply map_eq. intros path. now apply Hkept. }
  apply collect_input_steps in Hdone
    as (w1 & w2 & w3 & w4 & w5 & Hip & Hd & Hm & Hp & Hu & Hs).
  unfold Sh.command_subst in Hip. rewrite fmap_run in Hip. unfold Sh.get_input in Hip.
  destruct (Sh.get_input_loop env _ _ _ (Sh.tty w) EmptyString w)
    as [[res|c|] w0] eqn:Hloop; try discriminate.
  injection Hip as Hres <-.
  apply get_input_loop_done in Hloop
    as (rejected & accepted & noise & Htty & Hrej & Hacc & Htrace & -> & Hnoise).
  apply unchecked_answer in Hd as (d & Htty1 & Hrd & Htr1 & _).
  apply unchecked_answer in Hm as (m & Htty2 & Hrm & Htr2 & _).
  apply unchecked_answer in Hp as (p & Htty3 & Hrp & Htr3 & _).
  apply unchecked_answer in Hu as (u & Htty4 & Hru & Htr4 & _).
  apply unchecked_answer in Hs as (s & Htty5 & Hrs & Htr5 & _).
  exists rejected, accepted, d, m, p, u, s.
  split; [now rewrite Htty, Htty1, Htty2, Htty3, Htty4, Htty5|].
  split; [exact Hrej|]. split; [exact Hacc|].
  split.
  { rewrite Htr5, Htr4, Htr3, Htr2, Htr1, Htrace. unfold More.prompt_ip.
    rewrite <- !app_assoc. reflexivity. }
  repeat (split; [assumption|]).
  split; [|exact Hfiles].
  intros Hnone. rewrite <- Hres, (Hnoise Hnone). cbn [String.append].
  now apply valid_ip_captured.
Qed.

Lemma collected_answers_witness :
  exists rejected accepted d m p u s,
    Sh.tty (at_prompt ("999.1.1.1" :: answers_A)) =
      (rejected ++ accepted :: d :: m :: p :: u :: s :: [])%list /\
    Sh.validate_ip accepted = true.
Proof.
  assert (Sh.collect_input calm (at_prompt ("999.1.1.1" :: answers_A)) =
          (Sh.Done spoiled_request,
           snd (Sh.collect_input calm (at_prompt ("999.1.1.1" :: answers_A))))) as H
    by (vm_compute; reflexivity).
  destruct (collected_answers calm _ _ _ H)
    as (rejected & accepted & d & m & p & u & s & Htty & _ & Hacc & _).
  exists rejected, accepted, d, m, p, u, s. split; [exact Htty|exact Hacc].
Defined.

(** ** The provisioning script: how a run ends *)

Section Endings.
Import Text Sh Frame More.
Variable env : Env.

Lemma completes_ret {A} (a : A) : completes (mret a : Script A).
Proof. intros w. now exists a. Qed.

Lemma completes_skip : completes skip.
Proof. apply completes_ret. Qed.

Lemma completes_bind {A B} (m : Script A) (k : A -> Script B) :
  completes m -> (forall a, completes (k a)) -> completes (m ≫= k).
Proof.
  intros Hm Hk w. rewrite bind_run. destruct (Hm w) as [a Ha].
  destruct (m w) as [[a'|c|] w']; simpl in Ha; try discriminate. apply Hk.
Qed.

Lemma completes_if {A} (b : bool) (m1 m2 : Script A) :
  completes m1 -> completes m2 -> completes (if b then m1 else m2).
Proof. destruct b; auto. Qed.

Lemma completes_emit e : completes (emit e).
Proof. intros w. now exists tt. Qed.

Lemma completes_run argv : completes (run env argv).
Proof. intros w. eexists. reflexivity. Qed.

Lemma completes_date format : completes (date env format).
Proof. intros w. eexists. reflexivity. Qed.

Lemma completes_test_f file : completes (test_f file).
Proof. intros w. eexists. reflexivity. Qed.

Lemma completes_log msg : completes (log env msg).
Proof. intros w. now exists tt. Qed.

Lemma completes_cp src dst : completes (cp env src dst).
Proof.
  intros w. unfold cp. simpl.
  destruct (exit_ok env _ _); [|eexists; reflexivity].
  destruct (files w !! src); eexists; reflexivity.
Qed.

Lemma completes_write_file path content : completes (write_file path content).
Proof. intros w. now exists tt. Qed.

Lemma completes_append_file path text : completes (append_file path text).
Proof. intros w. now exists tt. Qed.

Lemma completes_for_each {A} (xs : list A) (body : A -> Script unit) :
  (forall x, completes (body x)) -> completes (for_each xs body).
Proof.
  intros H. induction xs as [|x xs IH]; simpl.
  - apply completes_skip.
  - apply completes_bind; [apply H|]. intros _. exact IH.
Qed.

Lemma completes_or_warn argv msg : completes (or_warn env argv msg).
Proof.
  unfold or_warn. apply completes_bind; [apply completes_run|]. intros ok.
  apply completes_if; [apply completes_skip|apply completes_log].
Qed.

Lemma completes_run_ argv : completes (run_ env argv).
Proof.
  unfold run_. apply completes_bind; [apply completes_run|]. intros _.
  apply completes_skip.
Qed.

(** Commands that end the script only after an error message. *)
Lemma announces_completes {A} (m : Script A) : completes m -> announces m.
Proof. intros H w c Hc. destruct (H w) as [a Ha]. congruence. Qed.

Lemma announces_bind {A B} (m : Script A) (k : A -> Script B) :
  announces m -> (forall a, announces (k a)) -> announces (m ≫= k).
Proof.
  intros Hm Hk w c. rewrite bind_run. specialize (Hm w).
  destruct (m w) as [[a|c'|] w']; simpl in *.
  - apply Hk.
  - intros _. now apply (Hm c').
  - discriminate.
Qed.

Lemma announces_fmap {A B} (f : A -> B) (m : Script A) :
  announces m -> announces (f <$> m).
Proof.
  intros Hm w c. rewrite fmap_run. specialize (Hm w).
  destruct (m w) as [[a|c'|] w']; simpl in *.
  - discriminate.
  - intros _. now apply (Hm c').
  - discriminate.
Qed.

Lemma announces_if {A} (b : bool) (m1 m2 : Script A) :
  announces m1 -> announces m2 -> announces (if b then m1 else m2).
Proof. destruct b; auto. Qed.

Lemma announces_handle_error {A} msg : announces (handle_error env msg : Script A).
Proof.
  intros w c _. rewrite (handle_error_run env (A:=A)). simpl.
  exists (trace w), (now env w), msg. reflexivity.
Qed.

Lemma announces_get_input prompt default vf :
  announces (get_input env prompt default vf).
Proof.
  intros w c Hc. unfold get_input in Hc.
  destruct (get_input_loop_after env any_event every_path prompt default vf
              (tty w) EmptyString w (fun _ => eq_refl)) as [_ H].
  now apply H in Hc.
Qed.

Lemma announces_for_each {A} (xs : list A) (body : A -> Script unit) :
  (forall x, announces (body x)) -> announces (for_each xs body).
Proof.
  intros H. induction xs as [|x xs IH]; simpl.
  - apply announces_completes, completes_skip.
  - apply announces_bind; [apply H|]. intros _. exact IH.
Qed.

Lemma announces_install_loop package max_attempts left :
  announces (install_loop env package max_attempts left).
Proof.
  induction left as [|left IH]; simpl.
  - apply announces_handle_error.
  - apply announces_bind; [apply announces_completes, completes_log|]. intros _.
    apply announces_bind; [apply announces_completes, completes_run|]. intros ok.
    apply announces_if; [apply announces_completes, completes_log|].
    apply announces_bind; [apply announces_completes, completes_emit|].
    intros _. exact IH.
Qed.

End Endings.

Ltac completes_step :=
  lazymatch goal with
  | |- More.completes Sh.skip => apply completes_skip
  | |- More.completes (Sh.date _ _) => apply completes_date
  | |- More.completes (Sh.test_f _) => apply completes_test_f
  | |- More.completes (Sh.log _ _) => apply completes_log
  | |- More.completes (Sh.run _ _) => apply completes_run
  | |- More.completes (Sh.run_ _ _) => apply completes_run_
  | |- More.completes (Sh.or_warn _ _ _) => apply completes_or_warn
  | |- More.completes (Sh.emit _) => apply completes_emit
  | |- More.completes (Sh.cp _ _ _) => apply completes_cp
  | |- More.completes (Sh.write_file _ _) => apply completes_write_file
  | |- More.completes (Sh.append_file _ _) => apply completes_append_file
  | |- More.completes (Sh.for_each _ _) => apply completes_for_each; intros ?
  | |- More.completes (Sh.check_package_installed _ _) =>
      unfold Sh.check_package_installed
  | |- More.completes (Sh.restart_and_enable _ _) => unfold Sh.restart_and_enable
  | |- More.completes (Sh.configure _ _) => unfold Sh.configure
  | |- More.completes (Sh.restart_services _) => unfold Sh.restart_services
  | |- More.completes (Sh.test_configuration _) => unfold Sh.test_configuration
  | |- More.completes (Sh.summary _ _) => unfold Sh.summary
  | |- More.completes (if _ then _ else _) => apply completes_if
  | |- More.completes (mbind _ _) => apply completes_bind; [|intros ?]
  | |- More.completes (mret _) => apply completes_ret
  end.

Ltac announce_step :=
  lazymatch goal with
  | |- More.announces (Sh.handle_error _ _) => apply announces_handle_error
  | |- More.announces (Sh.get_input _ _ _ _) => apply announces_get_input
  | |- More.announces (Sh.install_loop _ _ _ _) => apply announces_install_loop
  | |- More.announces (Sh.for_each _ _) => apply announces_for_each; intros ?
  | |- More.announces (Sh.or_die _ _ _) => unfold Sh.or_die
  | |- More.announces (Sh.install_package _ _) => unfold Sh.install_package
  | |- More.announces (Sh.install_if_missing _ _) => unfold Sh.install_if_missing
  | |- More.announces (Sh.backup_config _ _) => unfold Sh.backup_config
  | |- More.announces (Sh.command_subst _) => unfold Sh.command_subst
  | |- More.announces (Sh.require_root _) => unfold Sh.require_root
  | |- More.announces (Sh.collect_input _) => unfold Sh.collect_input
  | |- More.announces (Sh.prepare_system _) => unfold Sh.prepare_system
  | |- More.announces (Sh.install_packages _) => unfold Sh.install_packages
  | |- More.announces (Sh.backup_files _) => unfold Sh.backup_files
  | |- More.announces (Sh.provision _) => unfold Sh.provision
  | |- More.announces (Sh.main _) => unfold Sh.main
  | |- More.announces (fmap _ _) => apply announces_fmap
  | |- More.announces (if _ then _ else _) => apply announces_if
  | |- More.announces (mbind _ _) => apply announces_bind; [|intros ?]
  | |- More.announces _ => apply announces_completes; repeat completes_step
  end.

Section EndingsOfMain.
Import Text Sh Frame More.
Variable env : Env.

Lemma main_announces : announces (main env).
Proof. repeat announce_step. Qed.

(** The part of a list before an event that touches the host contains every
    prefix of events that do not. *)
Lemma quiet_prefix (pre post before after : list Event) e :
  (pre ++ post = before ++ e :: after)%list ->
  Forall (fun e => touches_host e = false) pre ->
  touches_host e = true ->
  exists more, before = (pre ++ more)%list.
Proof.
  revert before. induction pre as [|x pre IH]; intros before Heq Hall He.
  - now exists before.
  - inversion_clear Hall as [|? ? Hx Hpre].
    destruct before as [|y before]; simpl in Heq.
    + injection Heq as -> _. congruence.
    + injection Heq as -> Heq. destruct (IH before Heq Hpre He) as [more ->].
      now exists more.
Qed.

Lemma calls_traced_log a line w :
  calls a (trace (traced (EvLog line) w)) = calls a (trace w).
Proof. simpl. rewrite calls_app. unfold calls at 2. simpl. lia. Qed.

Lemma sleeps_app t1 t2 : sleeps (t1 ++ t2) = sleeps t1 + sleeps t2.
Proof. unfold sleeps. now rewrite List.filter_app, length_app. Qed.

(** [k] failures and then a success: [k + 1] attempts, [k] sleeps. *)
Lemma install_loop_first_success package max_attempts left k w :
  k < left ->
  (forall j, j < k ->
     exit_ok env (install_argv package) (calls (install_argv package) (trace w) + j) = false) ->
  exit_ok env (install_argv package) (calls (install_argv package) (trace w) + k) = true ->
  fst (install_loop env package max_attempts left w) = Done tt /\
  exists evs,
    trace (snd (install_loop env package max_attempts left w)) = (trace w ++ evs)%list /\
    calls (install_argv package) evs = S k /\ sleeps evs = k.
Proof.
  revert k w. induction left as [|left IH]; intros k w Hk Hfail Hok; [lia|].
  rewrite install_loop_step. cbv zeta. rewrite calls_traced_log.
  destruct k as [|k].
  - rewrite Nat.add_0_r in Hok. rewrite Hok, log_run. simpl.
    split; [reflexivity|]. rewrite <- !app_assoc. simpl.
    eexists. split; [reflexivity|]. unfold calls, sleeps. simpl.
    rewrite String.eqb_refl. simpl. split; reflexivity.
  - pose proof (Hfail 0 ltac:(lia)) as H0. rewrite Nat.add_0_r in H0. rewrite H0.
    match goal with
    | |- context [install_loop env package max_attempts left ?w3] =>
        destruct (IH k w3) as (Hdone & evs & Ht & Hc & Hs); [lia| | |]
    end.
    + intros j Hj. simpl. rewrite !calls_app, calls_run.
      unfold calls at 2 3. simpl.
      replace (calls (install_argv package) (trace w) + 0 + 1 + 0 + j)
        with (calls (install_argv package) (trace w) + S j) by lia.
      apply Hfail. lia.
    + simpl. rewrite !calls_app, calls_run.
      unfold calls at 2 3. simpl.
      replace (calls (install_argv package) (trace w) + 0 + 1 + 0 + k)
        with (calls (install_argv package) (trace w) + S k) by lia.
      exact Hok.
    + split; [exact Hdone|]. rewrite Ht. simpl. rewrite <- !app_assoc. simpl.
      eexists. split; [reflexivity|].
      change (?a :: ?b :: ?c :: evs) with ([a; b; c] ++ evs)%list.
      rewrite calls_app, sleeps_app, Hc, Hs. unfold calls, sleeps. simpl.
      rewrite String.eqb_refl. simpl. split; reflexivity.
Qed.

(** Only failures: [left] attempts and as many sleeps, the last of them
    before the error message. *)
Lemma install_loop_only_failures package max_attempts left w :
  (forall j, j < left ->
     exit_ok env (install_argv package) (calls (install_argv package) (trace w) + j) = false) ->
  fst (install_loop env package max_attempts left w) = Exited 1 /\
  exists evs,
    trace (snd (install_loop env package max_attempts left w)) = (trace w ++ evs)%list /\
    calls (install_argv package) evs = left /\ sleeps evs = left.
Proof.
  revert w. induction left as [|left IH]; intros w Hfail.
  - cbn [install_loop]. rewrite (handle_error_run env (A:=unit)). simpl.
    split; [reflexivity|]. eexists. split; [reflexivity|]. split; reflexivity.
  - rewrite install_loop_step. cbv zeta. rewrite calls_traced_log.
    pose proof (Hfail 0 ltac:(lia)) as H0. rewrite Nat.add_0_r in H0. rewrite H0.
    match goal with
    | |- context [install_loop env package max_attempts left ?w3] =>
        destruct (IH w3) as (Hexit & evs & Ht & Hc & Hs)
    end.
    + intros j Hj. simpl. rewrite !calls_app, calls_run.
      unfold calls at 2 3. simpl.
      replace (calls (install_argv package) (trace w) + 0 + 1 + 0 + j)
        with (calls (install_argv package) (trace w) + S j) by lia.
      apply Hfail. lia.
    + split; [exact Hexit|]. rewrite Ht. simpl. rewrite <- !app_assoc. simpl.
      eexists. split; [reflexivity|].
      change (?a :: ?b :: ?c :: evs) with ([a; b; c] ++ evs)%list.
      rewrite calls_app, sleeps_app, Hc, Hs. unfold calls, sleeps. simpl.
      rewrite String.eqb_refl. simpl. split; reflexivity.
Qed.

End EndingsOfMain.

(** X13: nothing acts on the host before the six answers are in: whenever a
    run has traced an event that runs a program or writes a file, the
    collection of the answers had completed, and all its events come before
    that event. *)
Theorem host_is_touched_after_the_answers env w before e after :
  Sh.trace (snd (Sh.main env w)) = (Sh.trace w ++ before ++ e :: after)%list ->
  Frame.touches_host e = true ->
  exists r w1 more,
    Frame.collection env w = (Sh.Done r, w1) /\
    (Sh.trace w ++ before)%list = (Sh.trace w1 ++ more)%list.
Proof.
  intros Htrace He.
  destruct (answers_before_host_steps env w) as (pre & post & Ht & Hquiet & Hpost).
  rewrite Ht in Htrace. apply app_inv_head in Htrace.
  destruct (quiet_prefix _ _ _ _ _ Htrace Hquiet He) as [more ->].
  destruct Hpost as [->|(r & w1 & Hc & Hw1)].
  - rewrite app_nil_r, <- app_assoc in Htrace.
    rewrite <- (app_nil_r pre) in Htrace at 1.
    apply app_inv_head in Htrace. destruct more; discriminate Htrace.
  - exists r, w1, more. split; [exact Hc|]. now rewrite Hw1, app_assoc.
Qed.

Lemma host_is_touched_after_the_answers_witness :
  exists r w1 more,
    Frame.collection calm (at_prompt answers_A) = (Sh.Done r, w1) /\
    ([] ++ firstn 8 (Sh.trace (snd (Sh.main calm (at_prompt answers_A)))))%list =
      (Sh.trace w1 ++ more)%list.
Proof.
  apply (host_is_touched_after_the_answers calm (at_prompt answers_A)
           (firstn 8 (Sh.trace (snd (Sh.main calm (at_prompt answers_A)))))
           (Sh.EvRun ["dpkg"; "--configure"; "-a"] true)
           (skipn 9 (Sh.trace (snd (Sh.main calm (at_prompt answers_A)))))).
  - vm_compute. reflexivity.
  - reflexivity.
Defined.

(** X14: the script ends with status 0 or with status 1, unless it waits
    for the operator, which it does only while it collects the answers. *)
Theorem exit_status_is_0_or_1 env w :
  Sh.exit_status env w = Some 0 \/
  Sh.exit_status env w = Some 1 \/
  (Sh.exit_status env w = None /\ fst (Frame.collection env w) = Sh.Waiting).
Proof.
  pose proof (main_waiting env w) as Hwait.
  destruct (main_framed env w) as [_ Hexit].
  unfold Sh.exit_status.
  destruct (Sh.main env w) as [[[]|c|] w']; simpl in *.
  - now left.
  - right; left. now rewrite (Hexit c).
  - right; right. auto.
Qed.

(** X15: the script never ends with an error status silently: when a run
    ends with [exit], the last thing it has done is to log a message that
    starts with [ERROR: ]. *)
Theorem fatal_exit_is_announced env w c :
  fst (Sh.main env w) = Sh.Exited c ->
  exists before stamp msg,
    Sh.trace (snd (Sh.main env w)) =
      (before ++ [Sh.EvLog (Sh.log_text stamp ("ERROR: " +:+ msg))])%list.
Proof. intros H. exact (main_announces env w c H). Qed.

Lemma fatal_exit_is_announced_witness :
  exists before stamp msg,
    Sh.trace (snd (Sh.main without_samba (at_prompt answers_A))) =
      (before ++ [Sh.EvLog (Sh.log_text stamp ("ERROR: " +:+ msg))])%list.
Proof.
  apply (fatal_exit_is_announced without_samba (at_prompt answers_A) 1).
  vm_compute. reflexivity.
Defined.

(** X16: started by anyone but root (the output of [id -u] is not [0]) the
    script logs one error message and exits with status 1: it reads no
    answer, runs no program and writes no file. *)
Theorem not_root_stops_at_once env w :
  Text.strip_trailing_newlines (Sh.id_u env) <> "0" ->
  Sh.main env w =
    (Sh.Exited 1,
     Sh.traced (Sh.EvLog (Sh.log_text (Sh.now env w)
                            "ERROR: Script must be run with sudo")) w).
Proof.
  intros H. unfold Sh.main, Sh.provision. rewrite !bind_run.
  unfold Sh.require_root. rewrite bool_decide_eq_false_2 by exact H.
  reflexivity.
Qed.

Lemma not_root_stops_at_once_witness :
  Sh.exit_status not_root (at_prompt answers_A) = Some 1 /\
  Sh.tty (snd (Sh.main not_root (at_prompt answers_A))) = answers_A.
Proof.
  unfold Sh.exit_status.
  rewrite (not_root_stops_at_once not_root (at_prompt answers_A));
    [split; reflexivity|].
  vm_compute. discriminate.
Defined.

(** X17: [install_package] tries a package three times at most and stops at
    the first attempt that succeeds.  With [k] failures before the first
    success ([k = 3]: no attempt succeeds) it runs [apt-get install] as
    often as [min (k + 1) 3] times, sleeps after every failure, the last one
    included, and completes when an attempt succeeded and ends the script
    with status 1 otherwise. *)
Theorem install_package_attempts env package w k :
  k <= 3 ->
  (forall j, j < k ->
     Sh.exit_ok env (Frame.install_argv package)
       (Sh.calls (Frame.install_argv package) (Sh.trace w) + j) = false) ->
  (k < 3 ->
     Sh.exit_ok env (Frame.install_argv package)
       (Sh.calls (Frame.install_argv package) (Sh.trace w) + k) = true) ->
  fst (Sh.install_package env package w) =
    (if Nat.ltb k 3 then Sh.Done tt else Sh.Exited 1) /\
  exists evs,
    Sh.trace (snd (Sh.install_package env package w)) = (Sh.trace w ++ evs)%list /\
    Sh.calls (Frame.install_argv package) evs = Nat.min (S k) 3 /\
    More.sleeps evs = k.
Proof.
  intros Hk Hfail Hok. unfold Sh.install_package.
  destruct (Nat.ltb_spec k 3) as [Hlt|Hge].
  - destruct (install_loop_first_success env package 3 3 k w Hlt Hfail (Hok Hlt))
      as (Hdone & evs & Ht & Hc & Hs).
    split; [exact Hdone|]. exists evs. split; [exact Ht|]. split; [lia|exact Hs].
  - assert (k = 3) as -> by lia.
    destruct (install_loop_only_failures env package 3 3 w Hfail)
      as (Hexit & evs & Ht & Hc & Hs).
    split; [exact Hexit|]. exists evs. split; [exact Ht|]. split; [exact Hc|exact Hs].
Qed.

Lemma install_package_attempts_witness :
  fst (Sh.install_package without_samba "samba" (at_prompt [])) = Sh.Exited 1 /\
  exists evs,
    Sh.trace (snd (Sh.install_package without_samba "samba" (at_prompt []))) =
      ([] ++ evs)%list /\
    Sh.calls (Frame.install_argv "samba") evs = 3 /\ More.sleeps evs = 3.
Proof.
  apply (install_package_attempts without_samba "samba" (at_prompt []) 3).
  - lia.
  - intros j _. reflexivity.
  - lia.
Defined.

(** ** The provisioning script: the files of a run *)

Ltac listed :=
  unfold More.written_paths, Frame.rendered_files, Frame.backed_up_files;
  simpl; repeat (first [left; reflexivity | right]).
Ltac not_no_backup :=
  idtac;
  lazymatch goal with
  | |- ~ More.no_backup (String.append ?file _) =>
      let H := fresh in
      intros H; apply (H file); [listed | eexists; reflexivity]
  end.
Section FilesOfARun.
Import Text Sh Frame More.
Variable env : Env.

Lemma bind_then_ret {A B C} (m : Script A) (n : Script B) (k : A -> Script C) w :
  (a ← m; n ;; k a) w = (a ← (a ← m; n ;; mret a); k a) w.
Proof.
  rewrite !bind_run. destruct (m w) as [[a|c|] w1]; [|reflexivity..].
  rewrite !bind_run. destruct (n w1) as [[b|c|] w2]; reflexivity.
Qed.

(** When what follows a command always completes, an exit comes from the
    command itself. *)
Lemma exits_before {A B} (m : Script A) (k : A -> Script B) w c :
  (forall a, completes (k a)) ->
  fst ((m ≫= k) w) = Exited c ->
  snd ((m ≫= k) w) = snd (m w) /\ fst (m w) = Exited c.
Proof.
  intros Hk. rewrite bind_run.
  destruct (m w) as [[a|c'|] w1]; simpl.
  - intros Hexit. destruct (Hk a w1) as [b Hb]. congruence.
  - intros Hexit. split; [reflexivity|]. congruence.
  - discriminate.
Qed.

Lemma main_before_configure w :
  main env w = (r ← before_configure env; after_backup env [] r) w.
Proof.
  rewrite main_around_smb_conf. unfold around_backup, before_configure.
  apply bind_then_ret.
Qed.

Lemma after_backup_completes r : completes (after_backup env [] r).
Proof. unfold after_backup. cbn [for_each]. repeat completes_step. Qed.

Lemma before_configure_writes_nothing :
  framed no_write no_backup (before_configure env).
Proof.
  unfold before_configure, before_backup, before_packages, collection.
  cbn [for_each]. frame_with any_event_ok not_no_backup.
Qed.

Lemma main_own_changes : framed own_change_ok no_path (main env).
Proof.
  intros w. rewrite main_phases. revert w. apply framed_bind.
  - unfold collection. frame_with any_event_ok no_path_kept.
  - intros r. unfold application. frame_with any_event_ok no_path_kept.
Qed.

Lemma append_file_exact path text w :
  exists w', append_file path text w = (Done tt, w') /\
             files w' =
               <[path := default EmptyString (files w !! path) +:+ text]> (files w).
Proof. eexists. split; reflexivity. Qed.

(** Lines 169-322 add the line of line 317 to what the web server's
    configuration holds already. *)
Lemma configure_appends r w :
  match configure env r w with
  | (Done _, w') =>
      files w' !! "/etc/apache2/apache2.conf" =
        Some (default EmptyString (files w !! "/etc/apache2/apache2.conf") +:+
              include_line)
  | _ => False
  end.
Proof.
  unfold configure.
  repeat
    (rewrite ?bind_run;
     lazymatch goal with
     | |- context [write_file ?path ?content ?w0] =>
         let w' := fresh "w" in
         let Hf := fresh "Hfiles" in
         destruct (write_file_files path content w0) as (w' & -> & Hf)
     | |- context [run_ ?e ?argv ?w0] =>
         let w' := fresh "w" in
         let Hf := fresh "Hfiles" in
         destruct (run__files e argv w0) as (w' & -> & Hf)
     | |- context [append_file ?path ?text ?w0] =>
         let w' := fresh "w" in
         let Hf := fresh "Hfiles" in
         destruct (append_file_exact path text w0) as (w' & -> & Hf)
     | |- context [date ?e date_serial ?w0] =>
         let n := fresh "n" in
         destruct (date_serial_run e w0) as (n & ->)
     end;
     cbv beta iota).
  repeat match goal with H : files _ = _ |- _ => rewrite H; clear H end.
  rewrite lookup_insert_eq.
  rewrite !lookup_insert_ne by discriminate. reflexivity.
Qed.

Lemma after_packages_appends r w :
  fst (after_packages env r w) = Done tt ->
  files (snd (after_packages env r w)) !! "/etc/apache2/apache2.conf" =
    Some (default EmptyString (files w !! "/etc/apache2/apache2.conf") +:+ include_line).
Proof.
  unfold after_packages. rewrite bind_run.
  assert (framed any_event (is_file "/etc/apache2/apache2.conf") (backup_files env))
    as Hbackups by (unfold backup_files; frame_with any_event_ok not_the_file).
  destruct (Hbackups w) as [[_ Hkept] _].
  destruct (backup_files env w) as [[[]|c|] w1]; simpl in Hkept; [|discriminate..].
  rewrite bind_run.
  pose proof (configure_appends r w1) as Hc.
  destruct (configure env r w1) as [[[]|c|] w2]; [|destruct Hc..].
  match goal with
  | |- fst (?m w2) = _ -> _ =>
      assert (framed any_event every_path m) as Hrest
        by frame_with any_event_ok fail
  end.
  destruct (Hrest w2) as [[_ Hkept2] _].
  intros _. rewrite Hkept2 by exact I. rewrite Hc, Hkept; reflexivity.
Qed.

End FilesOfARun.


(** X19: the line that includes phpMyAdmin's configuration is appended
    without looking whether it is there: when the script, having reached
    line 163, runs to its end, the web server's main configuration holds
    what it held at line 163 and the line after it, so the line twice when
    it ended with that line already. *)
Theorem include_line_is_always_appended env r w :
  fst (Frame.after_packages env r w) = Sh.Done tt ->
  Sh.files (snd (Frame.after_packages env r w)) !! "/etc/apache2/apache2.conf" =
    Some (default EmptyString (Sh.files w !! "/etc/apache2/apache2.conf") +:+
          More.include_line) /\
  (forall old,
      Sh.files w !! "/etc/apache2/apache2.conf" = Some (old +:+ More.include_line) ->
      Sh.files (snd (Frame.after_packages env r w)) !! "/etc/apache2/apache2.conf" =
        Some ((old +:+ More.include_line) +:+ More.include_line)).
Proof.
  intros Hdone. pose proof (after_packages_appends env r w Hdone) as H.
  split; [exact H|]. intros old Hold. rewrite H, Hold. reflexivity.
Qed.

Lemma include_line_is_always_appended_witness :
  Sh.files (snd (Frame.after_packages calm request_A with_include_line))
    !! "/etc/apache2/apache2.conf" =
    Some ((("ServerName box" +:+ Text.nl) +:+ More.include_line) +:+ More.include_line).
Proof.
  apply (include_line_is_always_appended calm request_A with_include_line).
  - vm_compute. reflexivity.
  - vm_compute. reflexivity.
Defined.

(** X20: a run that ends with an error has rendered nothing: its status is
    1, it stopped before line 169 (in the answers' collection, the
    preparation, the installation or the backups are the only exits), and
    none of its steps is a write or an append to a file. *)
Theorem failed_run_has_written_no_file env w c :
  fst (Sh.main env w) = Sh.Exited c ->
  c = 1 /\
  fst (More.before_configure env w) = Sh.Exited 1 /\
  snd (Sh.main env w) = snd (More.before_configure env w) /\
  exists evs,
    Sh.trace (snd (Sh.main env w)) = (Sh.trace w ++ evs)%list /\
    Forall (fun e => Frame.writes_file e = false) evs.
Proof.
  intros Hexit.
  destruct (main_framed env w) as [_ Hcode]. pose proof (Hcode c Hexit) as ->.
  rewrite main_before_configure in Hexit |- *.
  destruct (exits_before (More.before_configure env)
              (fun r => Frame.after_backup env [] r) w 1
              (after_backup_completes env) Hexit) as [-> Hbefore].
  destruct (before_configure_writes_nothing env w) as [[(evs & Ht & Hall) _] _].
  split; [reflexivity|]. split; [exact Hbefore|]. split; [reflexivity|].
  exists evs. split; [exact Ht|].
  eapply Forall_impl; [exact Hall|]. intros e He.
  now apply negb_true_iff in He.
Qed.

Lemma failed_run_has_written_no_file_witness :
  1 = 1 /\
  fst (More.before_configure without_samba with_old_zone) = Sh.Exited 1 /\
  snd (Sh.main without_samba with_old_zone) =
    snd (More.before_configure without_samba with_old_zone) /\
  exists evs,
    Sh.trace (snd (Sh.main without_samba with_old_zone)) =
      (Sh.trace with_old_zone ++ evs)%list /\
    Forall (fun e => Frame.writes_file e = false) evs.
Proof.
  apply (failed_run_has_written_no_file without_samba with_old_zone 1).
  vm_compute. reflexivity.
Defined.

Section AfterTheBackups.
Import Sh.

(** X21: once the four backups are made nothing stops the script: whatever
    the exit status of any program of lines 169-334 (the account and share
    commands, the web server's site and modules, the services, the tests),
    the script runs on to its last line. *)
Theorem nothing_stops_the_script_after_the_backups env r w :
  fst ((Sh.configure env r ;; Sh.restart_services env ;;
        Sh.test_configuration env ;; Sh.summary env r) w) = Sh.Done tt.
Proof.
  assert (More.completes (Sh.configure env r ;; Sh.restart_services env ;;
                          Sh.test_configuration env ;; Sh.summary env r)) as H
    by repeat completes_step.
  destruct (H w) as [[] Ha]. exact Ha.
Qed.

End AfterTheBackups.

(** ** The provisioning script: preparation and backups *)

Section Preparation.
Import Text Sh Frame More.
Variable env : Env.

Lemma calls_traced a e w :
  calls a (trace (traced e w)) =
    calls a (trace w) + (if is_run_of a e then 1 else 0).
Proof.
  simpl. rewrite calls_app. unfold calls at 2. simpl.
  destruct (is_run_of a e); reflexivity.
Qed.

Lemma run__run argv w :
  run_ env argv w = (Done tt, traced (EvRun argv (next_status env argv w)) w).
Proof. reflexivity. Qed.

(** A file is not its own backup. *)
Lemma append_not_same (s suffix : string) : s = s +:+ suffix -> suffix = EmptyString.
Proof.
  induction s as [|c s IH]; simpl; intros H; [now symmetry|].
  injection H as H. now apply IH.
Qed.

End Preparation.

Ltac prepare_step env :=
  first
    [ rewrite bind_run
    | rewrite skip_run
    | rewrite log_run;
      match goal with
      | |- context [Sh.now env ?w] =>
          let stamp := fresh "stamp" in generalize (Sh.now env w); intros stamp
      end
    | rewrite run__run;
      match goal with
      | |- context [Frame.next_status env ?a ?w] =>
          let ok := fresh "ok" in generalize (Frame.next_status env a w); intros ok
      end
    | rewrite (handle_error_run env (A:=unit))
    | rewrite run_run; cbv beta iota;
      rewrite ?calls_traced;
      repeat match goal with
             | |- context [Sh.is_run_of ?a ?e] =>
                 let b := eval lazy in (Sh.is_run_of a e) in
                 change (Sh.is_run_of a e) with b
             end;
      cbv iota; rewrite ?Nat.add_0_r;
      match goal with
      | |- context [if Sh.exit_ok env ?a ?i then _ else _] =>
          let H := fresh "Hstatus" in
          destruct (Sh.exit_ok env a i) eqn:H
      end ];
  cbv beta iota.

(** X22: the preparation of lines 111-150 ends the script in four cases
    only: the first [dpkg --configure -a] fails, [apt-get update] fails
    twice, [apt-get upgrade] fails twice, or the universe repository cannot
    be added.  A first failure of update or upgrade is retried once, and
    the exit status of every other command is ignored. *)
Theorem prepare_system_outcome env w :
  fst (Sh.prepare_system env w) =
    if More.status_at env w More.dpkg_configure 0 &&
       (More.status_at env w More.apt_update 0 ||
        More.status_at env w More.apt_update 1) &&
       (More.status_at env w More.apt_upgrade 0 ||
        More.status_at env w More.apt_upgrade 1) &&
       More.status_at env w More.add_universe 0
    then Sh.Done tt else Sh.Exited 1.
Proof.
  unfold More.status_at, More.dpkg_configure, More.apt_update, More.apt_upgrade,
    More.add_universe.
  rewrite ?Nat.add_0_r.
  unfold Sh.prepare_system, Sh.or_die.
  repeat (prepare_step env); reflexivity.
Qed.

Section BackupCases.
Import Sh.


End BackupCases.


(** ** The provisioning script: the package loop *)

Section PackageLoop.
Import Text Sh Frame More.
Variable env : Env.

Lemma install_loop_no_write package max_attempts left :
  framed no_write every_path (install_loop env package max_attempts left).
Proof. apply framed_install_loop; intros; reflexivity. Qed.

(** What lines 154-159 do with a package the database does not report
    installed, by the number [k] of failures before the first success. *)
Lemma install_if_missing_attempts package w k :
  exit_ok env (query_argv package) (calls (query_argv package) (trace w)) = false ->
  k <= 3 ->
  (forall j, j < k ->
     exit_ok env (install_argv package) (calls (install_argv package) (trace w) + j) = false) ->
  (k < 3 ->
     exit_ok env (install_argv package) (calls (install_argv package) (trace w) + k) = true) ->
  fst (install_if_missing env package w) = (if Nat.ltb k 3 then Done tt else Exited 1) /\
  exists evs,
    trace (snd (install_if_missing env package w)) = (trace w ++ evs)%list /\
    calls (install_argv package) evs = Nat.min (S k) 3 /\
    sleeps evs = k /\
    spaced (install_argv package) true evs = true /\
    Forall (fun e => writes_file e = false) evs.
Proof.
  intros Hq Hk Hfail Hok.
  unfold install_if_missing, check_package_installed.
  rewrite bind_run, run_run. fold (query_argv package). rewrite Hq.
  unfold run_. rewrite !bind_run, run_run. cbv beta iota.
  unfold install_package, skip, mret, script_ret. cbv beta iota zeta.
  match goal with
  | |- context [install_loop env package 3 3 ?w2] => set (world := w2)
  end.
  assert (calls (install_argv package) (trace world) =
          calls (install_argv package) (trace w)) as Hcalls.
  { subst world. simpl. rewrite !calls_app. unfold calls at 2 3. simpl. lia. }
  assert (exists ok,
             trace world =
               (trace w ++ [EvRun (query_argv package) false;
                            EvRun ["dpkg"; "--configure"; "-a"] ok])%list)
    as [ok Hworld].
  { subst world. simpl. rewrite <- app_assoc. eexists. reflexivity. }
  clearbody world.
  destruct (install_loop_attempts env package 3 3 world) as (evs & Ht & _ & Hspaced).
  destruct (install_loop_no_write package 3 3 world) as [[(evs' & Ht' & Hquiet) _] _].
  rewrite Ht in Ht'. apply app_inv_head in Ht'. subst evs'.
  assert (fst (install_loop env package 3 3 world) =
            (if Nat.ltb k 3 then Done tt else Exited 1) /\
          calls (install_argv package) evs = Nat.min (S k) 3 /\ sleeps evs = k)
    as (Hout & Hc & Hs).
  { destruct (Nat.ltb_spec k 3) as [Hlt|Hge].
    - destruct (install_loop_first_success env package 3 3 k world)
        as (Hd & evs2 & Ht2 & Hc2 & Hs2).
      + exact Hlt.
      + intros j Hj. rewrite Hcalls. now apply Hfail.
      + rewrite Hcalls. now apply Hok.
      + rewrite Ht in Ht2. apply app_inv_head in Ht2. subst evs2.
        split; [exact Hd|]. split; [lia|exact Hs2].
    - assert (k = 3) as -> by lia.
      destruct (install_loop_only_failures env package 3 3 world)
        as (Hd & evs2 & Ht2 & Hc2 & Hs2).
      + intros j Hj. rewrite Hcalls. now apply Hfail.
      + rewrite Ht in Ht2. apply app_inv_head in Ht2. subst evs2.
        split; [exact Hd|]. split; [exact Hc2|exact Hs2]. }
  split; [exact Hout|].
  exists ([EvRun (query_argv package) false; EvRun ["dpkg"; "--configure"; "-a"] ok]
          ++ evs)%list.
  split; [rewrite Ht, Hworld, <- app_assoc; reflexivity|].
  split; [rewrite calls_app, Hc; unfold calls; simpl; reflexivity|].
  split; [rewrite sleeps_app, Hs; unfold sleeps; simpl; reflexivity|].
  split; [simpl; exact Hspaced|].
  apply Forall_app. split.
  - repeat constructor.
  - eapply Forall_impl; [exact Hquiet|]. intros e He. now apply negb_true_iff in He.
Qed.

End PackageLoop.



(** ** The provisioning script: backups, from line 163 on *)

Section SavedBeforeOverwritten.
Import Text Sh Frame More.
Variable env : Env.

Lemma after_packages_never_waits r : never_waits (after_packages env r).
Proof. unfold after_packages. repeat waits_step. Qed.

(** From line 163 on the script is the backup of each of the four files
    with the other backups before it and the rest of the script after it. *)
Lemma after_packages_around_resolv_conf r w :
  after_packages env r w =
    (r' ← backups_before env r [];
     backup_config env "/etc/resolv.conf" ;;
     after_backup env
       ["/etc/bind/named.conf.default-zones";
        "/etc/apache2/sites-available/000-default.conf"; "/etc/samba/smb.conf"] r') w.
Proof.
  unfold after_packages, backups_before, after_backup, backup_files.
  cbn [for_each]. repeat next_phase.
Qed.

Lemma after_packages_around_named_conf r w :
  after_packages env r w =
    (r' ← backups_before env r ["/etc/resolv.conf"];
     backup_config env "/etc/bind/named.conf.default-zones" ;;
     after_backup env
       ["/etc/apache2/sites-available/000-default.conf"; "/etc/samba/smb.conf"] r') w.
Proof.
  unfold after_packages, backups_before, after_backup, backup_files.
  cbn [for_each]. repeat next_phase.
Qed.

Lemma after_packages_around_default_site r w :
  after_packages env r w =
    (r' ← backups_before env r
            ["/etc/resolv.conf"; "/etc/bind/named.conf.default-zones"];
     backup_config env "/etc/apache2/sites-available/000-default.conf" ;;
     after_backup env ["/etc/samba/smb.conf"] r') w.
Proof.
  unfold after_packages, backups_before, after_backup, backup_files.
  cbn [for_each]. repeat next_phase.
Qed.

Lemma after_packages_around_smb_conf r w :
  after_packages env r w =
    (r' ← backups_before env r
            ["/etc/resolv.conf"; "/etc/bind/named.conf.default-zones";
             "/etc/apache2/sites-available/000-default.conf"];
     backup_config env "/etc/samba/smb.conf" ;;
     after_backup env [] r') w.
Proof.
  unfold after_packages, backups_before, after_backup, backup_files.
  cbn [for_each]. repeat next_phase.
Qed.

(** A run from line 163 on that completes has saved the file. *)
Lemma saved_when_done r w file content :
  In file backed_up_files ->
  files w !! file = Some content ->
  fst (after_packages env r w) = Done tt ->
  exists t, files (snd (after_packages env r w)) !! backup_path file t = Some content.
Proof.
  intros Hin Hfile.
  unfold backed_up_files in Hin. simpl in Hin.
  destruct Hin as [<-|[<-|[<-|[<-|[]]]]].
  - rewrite after_packages_around_resolv_conf.
    apply (backup_then env (backups_before env r [])); [| |exact Hfile].
    + unfold backups_before. cbn [for_each]. frame_with any_event_ok not_the_file.
    + intros r'. frame_after_backup.
  - rewrite after_packages_around_named_conf.
    apply (backup_then env (backups_before env r ["/etc/resolv.conf"]));
      [| |exact Hfile].
    + unfold backups_before. cbn [for_each]. frame_with any_event_ok not_the_file.
    + intros r'. frame_after_backup.
  - rewrite after_packages_around_default_site.
    apply (backup_then env
             (backups_before env r
                ["/etc/resolv.conf"; "/etc/bind/named.conf.default-zones"]));
      [| |exact Hfile].
    + unfold backups_before. cbn [for_each]. frame_with any_event_ok not_the_file.
    + intros r'. frame_after_backup.
  - rewrite after_packages_around_smb_conf.
    apply (backup_then env
             (backups_before env r
                ["/etc/resolv.conf"; "/etc/bind/named.conf.default-zones";
                 "/etc/apache2/sites-available/000-default.conf"]));
      [| |exact Hfile].
    + unfold backups_before. cbn [for_each]. frame_with any_event_ok not_the_file.
    + intros r'. frame_after_backup.
Qed.

(** A run from line 163 on that ends the script does so in the backups:
    the file is as it was and nothing has been written. *)
Lemma kept_when_exited r w file c :
  In file backed_up_files ->
  fst (after_packages env r w) = Exited c ->
  c = 1 /\
  files (snd (after_packages env r w)) !! file = files w !! file /\
  exists evs,
    trace (snd (after_packages env r w)) = (trace w ++ evs)%list /\
    Forall (fun e => writes_file e = false) evs.
Proof.
  intros Hin Hexit.
  assert (framed no_write (is_file file) (backup_files env)) as Hbackups.
  { unfold backed_up_files in Hin. simpl in Hin.
    destruct Hin as [<-|[<-|[<-|[<-|[]]]]];
      unfold backup_files; frame_with any_event_ok not_the_file. }
  unfold after_packages in Hexit |- *.
  match type of Hexit with
  | fst ((?m ≫= ?k) w) = Exited c =>
      assert (forall a, completes (k a)) as Hrest
        by (intros ?; cbv beta; repeat completes_step);
      destruct (exits_before m k w c Hrest Hexit) as [Hsnd Hfst]
  end.
  rewrite Hsnd.
  destruct (Hbackups w) as [[(evs & Ht & Hall) Hkept] Hcode].
  split; [now apply Hcode|]. split; [now apply Hkept|].
  exists evs. split; [exact Ht|].
  eapply Forall_impl; [exact Hall|]. intros e He. now apply negb_true_iff in He.
Qed.

(** A copy that fails ends the script, with every file as it was. *)
Lemma backup_config_copy_fails file content w :
  files w !! file = Some content ->
  exit_ok env ["cp"; file; backup_path file (now env w)]
    (calls ["cp"; file; backup_path file (now env w)] (trace w)) = false ->
  fst (backup_config env file w) = Exited 1 /\
  files (snd (backup_config env file w)) = files w.
Proof.
  intros Hfile Hfail.
  assert (backup_config env file w =
          (ok ← cp env file (backup_path file (now env w));
           if (ok : bool) then skip
           else handle_error env ("Failed to backup file " +:+ file)) w) as ->.
  { unfold backup_config. rewrite bind_run. unfold test_f. rewrite Hfile.
    rewrite bool_decide_eq_true_2 by (now exists content). reflexivity. }
  rewrite bind_run. unfold cp. rewrite run_run, Hfail.
  rewrite (handle_error_run env). split; reflexivity.
Qed.

End SavedBeforeOverwritten.

Section TheBackups.
Import Sh.

(** C1, as the code has it.  The script is lines 14-160 and then lines
    163-341, which begin with the four backups and go on to the rendering.
    For the four files of lines 163-166 (resolver configuration, zone
    definitions, virtual host, file share): in whatever state the script
    comes to line 163, a file that exists then is not overwritten without a
    backup.  When the run completes, a copy named
    [<file>.backup.<YYYYMMDD_HHMMSS>] holds the content the file had; the
    only other end is an exit with status 1 in the backups, and then the
    file still has that content and nothing has been written; a copy that
    fails is such an exit.  For the other files the script writes (the two
    zone data files and the landing page) these lines create and change no
    backup. *)
Theorem backup_before_overwrite :
  (forall env w,
      Sh.main env w =
        (r ← Frame.before_packages env;
         Sh.install_packages env ;; Frame.after_packages env r) w)
  /\
  (forall env r w file content,
      In file Frame.backed_up_files ->
      Sh.files w !! file = Some content ->
      (fst (Frame.after_packages env r w) = Sh.Done tt ->
       exists t,
         Sh.files (snd (Frame.after_packages env r w)) !! Frame.backup_path file t =
           Some content) /\
      (forall c,
          fst (Frame.after_packages env r w) = Sh.Exited c ->
          c = 1 /\
          Sh.files (snd (Frame.after_packages env r w)) !! file = Some content /\
          exists evs,
            Sh.trace (snd (Frame.after_packages env r w)) = (Sh.trace w ++ evs)%list /\
            Forall (fun e => Frame.writes_file e = false) evs) /\
      fst (Frame.after_packages env r w) <> Sh.Waiting)
  /\
  (forall env file content w,
      Sh.files w !! file = Some content ->
      Sh.exit_ok env ["cp"; file; Frame.backup_path file (Sh.now env w)]
        (Sh.calls ["cp"; file; Frame.backup_path file (Sh.now env w)] (Sh.trace w))
        = false ->
      fst (Sh.backup_config env file w) = Sh.Exited 1 /\
      Sh.files (snd (Sh.backup_config env file w)) = Sh.files w)
  /\
  (forall env r w file suffix,
      In file Frame.rendered_files -> ~ In file Frame.backed_up_files ->
      Sh.files (snd (Frame.after_packages env r w)) !! (file +:+ ".backup." +:+ suffix) =
        Sh.files w !! (file +:+ ".backup." +:+ suffix)).
Proof.
  split; [|split; [|split]].
  - intros env w. apply main_around_packages.
  - intros env r w file content Hin Hfile. split; [|split].
    + now apply saved_when_done.
    + intros c Hexit.
      destruct (kept_when_exited env r w file c Hin Hexit) as (Hc & Hkept & Hevs).
      split; [exact Hc|]. split; [now rewrite Hkept|exact Hevs].
    + apply after_packages_never_waits.
  - intros env file content w. apply backup_config_copy_fails.
  - intros env r w file suffix Hin Hnot.
    assert (Frame.framed Frame.any_event (Frame.is_backup_of file)
              (Frame.after_packages env r)) as Hframed.
    { unfold Frame.rendered_files in Hin. simpl in Hin.
      destruct Hin as [<-|[<-|[<-|[<-|[<-|[<-|[<-|[]]]]]]]];
        try (exfalso; apply Hnot; simpl; tauto);
        unfold Frame.after_packages; frame_with any_event_ok not_a_backup. }
    destruct (Hframed w) as [[_ Hkept] _]. apply Hkept. now exists suffix.
Qed.

End TheBackups.

Lemma backup_before_overwrite_witness :
  (exists t,
     Sh.files (snd (Frame.after_packages calm request_A with_old_resolver))
       !! Frame.backup_path "/etc/resolv.conf" t = Some "nameserver 1.1.1.1") /\
  Sh.files (snd (Frame.after_packages calm request_A with_old_zone))
    !! ("/etc/bind/smk.db" +:+ ".backup." +:+ "20261103_120000") = None.
Proof.
  destruct backup_before_overwrite as (_ & Hbacked & _ & Hothers).
  split.
  - destruct (Hbacked calm request_A with_old_resolver "/etc/resolv.conf"
                "nameserver 1.1.1.1") as (Hdone & _).
    + left. reflexivity.
    + vm_compute. reflexivity.
    + apply Hdone. vm_compute. reflexivity.
  - rewrite (Hothers calm request_A with_old_zone "/etc/bind/smk.db" "20261103_120000").
    + vm_compute. reflexivity.
    + simpl. tauto.
    + simpl. intros H. decompose [or] H; discriminate || assumption.
Defined.
